(** * Node networking core of the MCP ESP32 bots

    A shallow embedding of the link-layer messaging, server discovery and
    status/firmware reporting code of the four firmware variants of the
    repository:

    - [Speedie]        bots/speedie_bot/src/main.cpp
    - [Template]       generic_bot_template/src/main.cpp
    - [WifiClient]     examples/bot_wifi_client/src/main.cpp
    - [EspNowExample]  examples/esp_now_example/src/main.cpp

    Frames are flat byte buffers laid out like the C structs, the globals of
    a sketch are the fields of a [Bot] record that every function threads
    through, and everything a function does to the outside world (serial
    log, mDNS, HTTP, radio) is appended to the bot's [trace]; the requests
    [initializeWiFi] makes to the WiFi driver are returned next to the bot.
    Log lines are kept as their format string, without the emoji and the
    newline, and their arguments. *)

From Stdlib Require Import ZArith Lia Strings.Byte Strings.String Strings.Ascii.
From Stdlib Require Import Floats.SpecFloat DecimalString.
From stdpp Require Import base list strings.

Local Open Scope string_scope.
Local Open Scope Z_scope.
Local Open Scope nat_scope.
Local Open Scope list_scope.

#[global] Instance byte_eq_decision : EqDecision byte := byte_eq_dec.

(** ** The C library on byte buffers *)

Module C.

(** The characters of a C string: everything before the first NUL. *)
Fixpoint chars (l : list byte) : list byte :=
  match l with
  | [] => []
  | b :: r => if Byte.eqb b x00 then [] else b :: chars r
  end.

(** [String::c_str] and C string literals. *)
Definition c_str (s : string) : list byte := chars (list_byte_of_string s).

Definition strlen (s : string) : nat := length (c_str s).

(** The Arduino [String] built from a C string. *)
Definition String_ (s : string) : string := string_of_list_byte (c_str s).

(** A local object that is declared and not initialised: [n] bytes of
    whatever the stack holds.  [garbage] is that content; it is padded so
    that the object always has its size. *)
Definition uninitialized (garbage : list byte) (n : nat) : list byte :=
  take n (garbage ++ replicate n x00).

(** [memset(buf, c, n)]. *)
Definition memset (buf : list byte) (c : byte) (n : nat) : list byte :=
  replicate n c ++ drop n buf.

(** [strncpy(buf + off, src, n)]: at most [n] characters of [src], then
    NUL padding up to [n] bytes in all.  No terminator is written when
    [src] has [n] characters or more. *)
Definition strncpy (buf : list byte) (off : nat) (src : list byte) (n : nat)
  : list byte :=
  let copied := take n (chars src) in
  take off buf ++ copied ++ replicate (n - length copied) x00
    ++ drop (off + n) buf.

(** [buf[i] = c]. *)
Definition store_byte (buf : list byte) (i : nat) (c : byte) : list byte :=
  <[i := c]> buf.

Definition byte_of_Z (z : Z) : byte :=
  match Byte.of_N (Z.to_N (z mod 256)) with
  | Some b => b
  | None => x00
  end.

Definition Z_of_byte (b : byte) : Z := Z.of_N (Byte.to_N b).

(** The four bytes of a [uint32_t], least significant first (the ESP32 is
    little-endian). *)
Definition le32 (v : Z) : list byte :=
  [byte_of_Z v; byte_of_Z (v / 256); byte_of_Z (v / 65536);
   byte_of_Z (v / 16777216)].

(** Store of a [uint32_t] member at [off]. *)
Definition store_u32 (buf : list byte) (off : nat) (v : Z) : list byte :=
  take off buf ++ le32 v ++ drop (off + 4) buf.

(** [buf[i]] read as [uint8_t]; reading outside the buffer gives 0. *)
Definition load_u8 (buf : list byte) (i : nat) : Z :=
  match buf !! i with
  | Some b => Z_of_byte b
  | None => 0%Z
  end.

(** [String(buf + off)]: the C string that starts at [off]. It ends at
    the first NUL wherever that is, or with the buffer. *)
Definition read_cstr (buf : list byte) (off : nat) : string :=
  string_of_list_byte (chars (drop off buf)).

(** The bytes of the array field at [off] of size [n]. *)
Definition field (buf : list byte) (off n : nat) : list byte :=
  take n (drop off buf).

(** [strcpy(buf + off, src)] into an array member of [size] bytes: the
    characters of [src] and the terminator.  There is no bound in the
    call; C gives the copy no meaning when it does not fit the member,
    which is [None] here. *)
Definition strcpy (buf : list byte) (off size : nat) (src : list byte)
  : option (list byte) :=
  let copied := chars src ++ [x00] in
  if length copied <=? size
  then Some (take off buf ++ copied ++ drop (off + length copied) buf)
  else None.

(** [isspace] in the C locale. *)
Definition isspace (b : byte) : bool :=
  let n := Byte.to_N b in
  (n =? 32)%N || ((9 <=? n)%N && (n <=? 13)%N).

(** The value of a hexadecimal digit. *)
Definition hex_value (b : byte) : option Z :=
  let n := Byte.to_N b in
  if (48 <=? n)%N && (n <=? 57)%N then Some (Z.of_N n - 48)%Z
  else if (65 <=? n)%N && (n <=? 70)%N then Some (Z.of_N n - 55)%Z
  else if (97 <=? n)%N && (n <=? 102)%N then Some (Z.of_N n - 87)%Z
  else None.

Fixpoint skip_space (l : list byte) : list byte :=
  match l with
  | b :: r => if isspace b then skip_space r else l
  | [] => []
  end.

Fixpoint hex_digits (acc : Z) (l : list byte) : Z :=
  match l with
  | b :: r =>
      match hex_value b with
      | Some d => hex_digits (16 * acc + d) r
      | None => acc
      end
  | [] => acc
  end.

Definition LONG_MAX : Z := 2147483647.

(** [strtol(s, NULL, 16)]: white space, an optional sign, an optional
    [0x], then hexadecimal digits up to the first other character; 0 when
    there is no digit, the nearest [long] when the value does not fit. *)
Definition strtol_16 (s : list byte) : Z :=
  let s := skip_space (chars s) in
  let '(negative, s) :=
    match s with
    | b :: r =>
        if Byte.eqb b x2d then (true, r)
        else if Byte.eqb b x2b then (false, r)
        else (false, s)
    | [] => (false, s)
    end in
  let s :=
    match s with
    | z :: x :: r =>
        if Byte.eqb z x30 && (Byte.eqb x x78 || Byte.eqb x x58) then r else s
    | _ => s
    end in
  let v := hex_digits 0 s in
  if negative then Z.max (- v) (- LONG_MAX - 1) else Z.min v LONG_MAX.

End C.

(** ** Struct layout *)

Module Layout.

Record member := { m_size : nat; m_align : nat }.

Definition char_array (n : nat) : member := {| m_size := n; m_align := 1 |}.
Definition uint32_t : member := {| m_size := 4; m_align := 4 |}.
Definition uint8_t : member := {| m_size := 1; m_align := 1 |}.

Definition align_up (n a : nat) : nat := ((n + a - 1) / a) * a.

(** Offsets of the members, each at the next multiple of its alignment. *)
Fixpoint offsets_from (pos : nat) (ms : list member) : list nat :=
  match ms with
  | [] => []
  | m :: r =>
      let o := align_up pos (m_align m) in
      o :: offsets_from (o + m_size m) r
  end.

Fixpoint end_from (pos : nat) (ms : list member) : nat :=
  match ms with
  | [] => pos
  | m :: r => end_from (align_up pos (m_align m) + m_size m) r
  end.

Definition struct_align (ms : list member) : nat :=
  foldr (fun m a => Nat.max (m_align m) a) 1 ms.

(** [sizeof]: the end of the last member rounded up to the alignment of
    the struct. *)
Definition sizeof (ms : list member) : nat :=
  align_up (end_from 0 ms) (struct_align ms).

Definition offsetof (ms : list member) (i : nat) : nat :=
  nth i (offsets_from 0 ms) 0.

End Layout.

(** ** Arduino [String] helpers *)

Module Arduino.

(** [String(int)]: decimal. *)
Definition String_of_int (z : Z) : string :=
  NilZero.string_of_int (Z.to_int z).

(** [s == t]. *)
Definition equals (s t : string) : bool := String.eqb s t.

(** [s.endsWith(suffix)]. *)
Definition endsWith (s suffix : string) : bool :=
  let n := String.length s in
  let k := String.length suffix in
  if Nat.ltb n k then false
  else String.eqb (String.substring (n - k) k s) suffix.

(** [s.substring(from, to)]. *)
Definition substring (s : string) (from to : nat) : string :=
  let '(from, to) := if to <? from then (to, from) else (from, to) in
  if String.length s <=? from then ""
  else
    let to := Nat.min to (String.length s) in
    String.substring from (to - from) s.

End Arduino.

(** ** The ESP-NOW radio driver

    The driver is the vendor's (ESP-IDF, [esp_now.h]) and not part of the
    repository.  This is the contract its API reference documents, as far as
    the sketches depend on it: a list of at most 20 peers without
    duplicates, frames of at most 250 bytes, and an iteration cursor for
    [esp_now_fetch_peer]. *)

Definition mac_addr := list byte.

Module EspNow.

Inductive esp_err_t :=
| ESP_OK
| ESP_ERR_ESPNOW_NOT_INIT
| ESP_ERR_ESPNOW_ARG
| ESP_ERR_ESPNOW_NO_MEM
| ESP_ERR_ESPNOW_FULL
| ESP_ERR_ESPNOW_NOT_FOUND
| ESP_ERR_ESPNOW_INTERNAL
| ESP_ERR_ESPNOW_EXIST
| ESP_ERR_ESPNOW_IF.

Definition is_ok (e : esp_err_t) : bool :=
  match e with ESP_OK => true | _ => false end.

Definition ESP_NOW_MAX_DATA_LEN : nat := 250.
Definition ESP_NOW_MAX_TOTAL_PEER_NUM : nat := 20.

Record esp_now_peer_info_t := {
  peer_addr : mac_addr;
  channel : Z;
  encrypt : bool
}.

Record driver := {
  initialized : bool;                      (* after [esp_now_init] *)
  peer_list : list esp_now_peer_info_t;    (* in order of registration *)
  fetch_pos : nat                          (* where [fetch_peer] goes on *)
}.

Definition has_addr (mac : mac_addr) (p : esp_now_peer_info_t) : bool :=
  bool_decide (peer_addr p = mac).

Definition esp_now_is_peer_exist (mac : mac_addr) (d : driver) : bool :=
  existsb (has_addr mac) (peer_list d).

Definition esp_now_add_peer (info : esp_now_peer_info_t) (d : driver)
  : esp_err_t * driver :=
  if negb (initialized d) then (ESP_ERR_ESPNOW_NOT_INIT, d)
  else if (14 <? channel info)%Z || (channel info <? 0)%Z
  then (ESP_ERR_ESPNOW_ARG, d)
  else if esp_now_is_peer_exist (peer_addr info) d
  then (ESP_ERR_ESPNOW_EXIST, d)
  else if ESP_NOW_MAX_TOTAL_PEER_NUM <=? length (peer_list d)
  then (ESP_ERR_ESPNOW_FULL, d)
  else (ESP_OK,
        {| initialized := initialized d;
           peer_list := peer_list d ++ [info];
           fetch_pos := fetch_pos d |}).

(** [esp_now_send(mac, data, len)] for a unicast destination. *)
Definition esp_now_send (mac : mac_addr) (len : nat) (d : driver) : esp_err_t :=
  if negb (initialized d) then ESP_ERR_ESPNOW_NOT_INIT
  else if (len =? 0) || (ESP_NOW_MAX_DATA_LEN <? len) then ESP_ERR_ESPNOW_ARG
  else if negb (esp_now_is_peer_exist mac d) then ESP_ERR_ESPNOW_NOT_FOUND
  else ESP_OK.

(** [esp_now_get_peer_num]: [total_num]. *)
Definition esp_now_get_peer_num (d : driver) : nat := length (peer_list d).

(** A unicast address has the group bit of its first byte clear. *)
Definition is_unicast (p : esp_now_peer_info_t) : bool :=
  match peer_addr p with
  | b :: _ => N.even (Byte.to_N b)
  | [] => true
  end.

(** [esp_now_fetch_peer(from_head, &peer)]: the next unicast peer, looking
    from the head of the list when [from_head] is set and after the peer
    fetched last otherwise. *)
Definition esp_now_fetch_peer (from_head : bool) (d : driver)
  : esp_err_t * option esp_now_peer_info_t * driver :=
  if negb (initialized d) then (ESP_ERR_ESPNOW_NOT_INIT, None, d)
  else
    let start := if from_head then 0 else fetch_pos d in
    match list_find (fun p => is_unicast p = true) (drop start (peer_list d)) with
    | Some (i, p) =>
        (ESP_OK, Some p,
         {| initialized := initialized d;
            peer_list := peer_list d;
            fetch_pos := S (start + i) |})
    | None => (ESP_ERR_ESPNOW_NOT_FOUND, None, d)
    end.

End EspNow.

Import EspNow.

(** ** Bot state, environment and trace *)

(** JSON documents, as built and read with ArduinoJson. *)
#[warnings="-register-all"]
Inductive json :=
| JNull
| JStr (s : string)
| JInt (z : Z)
| JFloat (f : spec_float)
| JObj (members : list (string * json)).

(** An argument of a formatted log line. *)
Inductive arg :=
| AStr (s : string)
| AInt (z : Z)
| AMac (m : mac_addr)
| AFloat (f : spec_float)
| AErr (e : esp_err_t).

(** What a sketch does to the outside world. *)
Inductive event :=
| Serial (fmt : string) (args : list arg)
| MdnsBegin (hostname : string)
| MdnsQueryService (service proto : string)
| HttpPost (url : string) (headers : list (string * string)) (body : json)
| HttpGet (url : string) (headers : list (string * string))
| HttpUpdate (url : string)
| RadioAddPeer (info : esp_now_peer_info_t) (result : esp_err_t)
| RadioSend (dest : mac_addr) (data : list byte) (result : esp_err_t)
| Delay (ms : Z).

(** The settings of [config.h]. *)
Record Config := {
  MCP_SERVER_IP_FALLBACK : string;
  MCP_API_KEY : string;
  FIRMWARE_VERSION : spec_float
}.

(** [struct BotStatus]. *)
Record BotStatus := {
  status : string;
  batteryLevel : spec_float;
  wifiSignal : Z;
  uptime : Z;
  location_lat : spec_float;
  location_lng : spec_float
}.

(** The globals of a sketch, the driver's state and the trace so far. *)
Record Bot := {
  botID : string;
  mcpServerIP : string;
  mcpServerPort : Z;
  botStatus : BotStatus;
  messagesSent : Z;
  radio : driver;
  trace : list event
}.

(** The body of the firmware-check response, as the fields the sketches read
    from the parsed document: a number that is absent reads as 0.0, a string
    that is absent as a null pointer. *)
Record FirmwareDoc := {
  doc_version : spec_float;
  doc_filename : option string;
  doc_download_url : option string
}.

(** [t_httpUpdate_return]. *)
Inductive t_httpUpdate_return :=
| HTTP_UPDATE_FAILED
| HTTP_UPDATE_NO_UPDATES
| HTTP_UPDATE_OK.

(** What the hardware and the network answer during one call. *)
Record Env := {
  wifi_connected : bool;                 (* WiFi.status() == WL_CONNECTED *)
  wifi_channel : Z;                      (* esp_wifi_get_channel *)
  wifi_rssi : Z;                         (* WiFi.RSSI() *)
  wifi_mac : mac_addr;                   (* esp_wifi_get_mac(WIFI_IF_STA) *)
  millis : Z;                            (* millis() *)
  stack : list byte;                     (* content of uninitialised locals *)
  mdns_begin : bool;                     (* MDNS.begin(...) *)
  mdns_services : list (string * Z);     (* answers: IP(i).toString(), port(i) *)
  http_post_code : Z;                    (* http.POST(...) *)
  http_get_code : Z;                     (* http.GET() *)
  http_get_doc : FirmwareDoc;            (* deserializeJson(http.getString()) *)
  http_update : t_httpUpdate_return;     (* httpUpdate.update(...) *)
  sensor_readings : list (string * json) (* the simulated sensor values *)
}.

Definition emit (e : event) (b : Bot) : Bot :=
  {| botID := botID b; mcpServerIP := mcpServerIP b;
     mcpServerPort := mcpServerPort b; botStatus := botStatus b;
     messagesSent := messagesSent b; radio := radio b;
     trace := trace b ++ [e] |}.

Definition set_radio (d : driver) (b : Bot) : Bot :=
  {| botID := botID b; mcpServerIP := mcpServerIP b;
     mcpServerPort := mcpServerPort b; botStatus := botStatus b;
     messagesSent := messagesSent b; radio := d;
     trace := trace b |}.

Definition set_server (ip : string) (port : Z) (b : Bot) : Bot :=
  {| botID := botID b; mcpServerIP := ip;
     mcpServerPort := port; botStatus := botStatus b;
     messagesSent := messagesSent b; radio := radio b;
     trace := trace b |}.

Definition set_messagesSent (n : Z) (b : Bot) : Bot :=
  {| botID := botID b; mcpServerIP := mcpServerIP b;
     mcpServerPort := mcpServerPort b; botStatus := botStatus b;
     messagesSent := n; radio := radio b;
     trace := trace b |}.

Definition set_botStatus (st : BotStatus) (b : Bot) : Bot :=
  {| botID := botID b; mcpServerIP := mcpServerIP b;
     mcpServerPort := mcpServerPort b; botStatus := st;
     messagesSent := messagesSent b; radio := radio b;
     trace := trace b |}.

(** [botStatus.status = s]. *)
Definition set_status (s : string) (b : Bot) : Bot :=
  let st := botStatus b in
  set_botStatus
    {| status := s; batteryLevel := batteryLevel st; wifiSignal := wifiSignal st;
       uptime := uptime st; location_lat := location_lat st;
       location_lng := location_lng st |} b.

(** [botStatus.wifiSignal = v]. *)
Definition set_wifiSignal (v : Z) (b : Bot) : Bot :=
  let st := botStatus b in
  set_botStatus
    {| status := status st; batteryLevel := batteryLevel st; wifiSignal := v;
       uptime := uptime st; location_lat := location_lat st;
       location_lng := location_lng st |} b.

(** [wl_status_t], what [WiFi.status()] returns. *)
Inductive wl_status_t :=
| WL_NO_SHIELD
| WL_IDLE_STATUS
| WL_NO_SSID_AVAIL
| WL_SCAN_COMPLETED
| WL_CONNECTED
| WL_CONNECT_FAILED
| WL_CONNECTION_LOST
| WL_DISCONNECTED.

Definition wl_code (s : wl_status_t) : Z :=
  match s with
  | WL_NO_SHIELD => 255
  | WL_IDLE_STATUS => 0
  | WL_NO_SSID_AVAIL => 1
  | WL_SCAN_COMPLETED => 2
  | WL_CONNECTED => 3
  | WL_CONNECT_FAILED => 4
  | WL_CONNECTION_LOST => 5
  | WL_DISCONNECTED => 6
  end.

Definition is_connected (s : wl_status_t) : bool :=
  match s with WL_CONNECTED => true | _ => false end.

(** What the WiFi driver answers while [initializeWiFi] runs: the result
    of the scan, the station's status after each number of half-second
    waits, and the address it was given. *)
Record WiFiAnswers := {
  scanNetworks : list (string * Z * bool);  (* SSID(i), RSSI(i), open *)
  status_after : nat → wl_status_t;         (* WiFi.status() after n waits *)
  localIP : string                          (* WiFi.localIP() *)
}.

(** The requests [initializeWiFi] makes to the WiFi driver. *)
Inductive wifi_call :=
| WiFi_mode_STA
| WiFi_scanNetworks
| WiFi_begin (ssid password : string).

(** [esp_now_add_peer(&info)] on the bot's radio. *)
Definition radio_add_peer (info : esp_now_peer_info_t) (b : Bot) : esp_err_t * Bot :=
  let '(r, d) := esp_now_add_peer info (radio b) in
  (r, emit (RadioAddPeer info r) (set_radio d b)).

(** [esp_now_send(mac, data, len)] on the bot's radio, [len] being the size
    of [data]. *)
Definition radio_send (mac : mac_addr) (data : list byte) (b : Bot) : esp_err_t * Bot :=
  let r := esp_now_send mac (length data) (radio b) in
  (r, emit (RadioSend mac data r) b).

(** Observations on a trace. *)
Definition sends (t : list event) : list (mac_addr * list byte) :=
  omap (fun e => match e with RadioSend m d _ => Some (m, d) | _ => None end) t.

Definition http_posts (t : list event) : list string :=
  omap (fun e => match e with HttpPost u _ _ => Some u | _ => None end) t.

Definition updates (t : list event) : list string :=
  omap (fun e => match e with HttpUpdate u => Some u | _ => None end) t.

Definition mdns_lookups (t : list event) : list string :=
  omap (fun e => match e with MdnsBegin h => Some h | _ => None end) t.

(** [snprintf(macStr, 18, "%02X:%02X:%02X:%02X:%02X:%02X", mac[0], ...)]. *)
Definition hex_digit (n : N) : ascii :=
  ascii_of_N (if (n <? 10)%N then 48 + n else 55 + n)%N.

Definition hex2 (b : byte) : string :=
  let n := Byte.to_N b in
  String (hex_digit (n / 16)) (String (hex_digit (n mod 16)) EmptyString).

Definition macStr (mac : mac_addr) : string :=
  let at_ i := hex2 (nth i mac x00) in
  at_ 0 +:+ ":" +:+ at_ 1 +:+ ":" +:+ at_ 2 +:+ ":" +:+ at_ 3 +:+ ":"
    +:+ at_ 4 +:+ ":" +:+ at_ 5.

(** The floats the firmware versions use: 1.0 and 1.1 as binary32. *)
Definition float_0 : spec_float := S754_zero false.
Definition float_1_0 : spec_float := S754_finite false 8388608 (-23).
Definition float_1_1 : spec_float := S754_finite false 9227469 (-23).

(** The paths of the coordination server the sketches use. *)
Definition mcpStatusEndpoint : string := "/api/bot/status".
Definition mcpFirmwareEndpoint : string := "/api/firmware/latest".
Definition mcpESPNowEndpoint : string := "/api/esp-now/message".

(** The [X-API-Key] header, when a key is configured. *)
Definition api_key_header (cfg : Config) : list (string * string) :=
  if 0 <? C.strlen (MCP_API_KEY cfg)
  then [("X-API-Key", C.String_ (MCP_API_KEY cfg))]
  else [].

(** ** bots/speedie_bot *)

Module Speedie.

Definition config : Config :=
  {| MCP_SERVER_IP_FALLBACK := "192.168.1.130";
     MCP_API_KEY := "api_secure_key_1234567890";
     FIRMWARE_VERSION := float_1_0 |}.

(** [esp_now_message_t]: sender_id[24], message_type[12], payload[128],
    timestamp. *)
Definition esp_now_message_t : list Layout.member :=
  [Layout.char_array 24; Layout.char_array 12; Layout.char_array 128;
   Layout.uint32_t].

Definition sizeof_message : nat := Eval vm_compute in Layout.sizeof esp_now_message_t.
Definition off_sender_id : nat := Eval vm_compute in Layout.offsetof esp_now_message_t 0.
Definition off_message_type : nat := Eval vm_compute in Layout.offsetof esp_now_message_t 1.
Definition off_payload : nat := Eval vm_compute in Layout.offsetof esp_now_message_t 2.
Definition off_timestamp : nat := Eval vm_compute in Layout.offsetof esp_now_message_t 3.

Definition addESPNowPeer (env : Env) (peerMac : mac_addr) (b : Bot) : Bot :=
  let peerExists := esp_now_is_peer_exist peerMac (radio b) in
  if peerExists then emit (Serial "ESP-NOW peer already exists" []) b
  else
    let peerInfo :=
      {| peer_addr := peerMac; channel := wifi_channel env; encrypt := false |} in
    let '(result, b) := radio_add_peer peerInfo b in
    if negb (is_ok result) then
      let b := emit (Serial "Failed to add ESP-NOW peer. Error code: %d" [AErr result]) b in
      let peerInfo := {| peer_addr := peerMac; channel := 0; encrypt := false |} in
      let '(result, b) := radio_add_peer peerInfo b in
      if negb (is_ok result) then
        emit (Serial "Failed to add ESP-NOW peer even with channel 0. Error code: %d"
                [AErr result]) b
      else
        emit (Serial "ESP-NOW peer added successfully on channel %d"
                [AInt (channel peerInfo)]) b
    else
      emit (Serial "ESP-NOW peer added successfully on channel %d"
              [AInt (channel peerInfo)]) b.

(** The frame [sendESPNowMessage] builds in its local [message]. *)
Definition make_message (env : Env) (id messageType payload : string) : list byte :=
  let message := C.uninitialized (stack env) sizeof_message in
  let message := C.memset message x00 sizeof_message in
  let message := C.strncpy message off_sender_id (C.c_str id) (24 - 1) in
  let message := C.strncpy message off_message_type (C.c_str messageType) (12 - 1) in
  let message := C.strncpy message off_payload (C.c_str payload) (128 - 1) in
  C.store_u32 message off_timestamp (millis env).

Definition log_send_error (result : esp_err_t) (b : Bot) : Bot :=
  match result with
  | ESP_ERR_ESPNOW_NOT_INIT => emit (Serial "ESP-NOW not initialized" []) b
  | ESP_ERR_ESPNOW_ARG => emit (Serial "Invalid argument" []) b
  | ESP_ERR_ESPNOW_INTERNAL => emit (Serial "Internal error" []) b
  | ESP_ERR_ESPNOW_NO_MEM => emit (Serial "Out of memory" []) b
  | ESP_ERR_ESPNOW_NOT_FOUND => emit (Serial "Peer not found" []) b
  | ESP_ERR_ESPNOW_IF => emit (Serial "Invalid interface" []) b
  | _ => emit (Serial "Unknown ESP-NOW error: %d (0x%X)" [AErr result; AErr result]) b
  end.

(** [sendESPNowMessage] from the declaration of [message] on: the peer is
    known to the driver. *)
Definition transmit (env : Env) (peerMac : mac_addr) (messageType payload : string)
    (b : Bot) : Bot :=
  let message := make_message env (botID b) messageType payload in
  let b := emit (Serial "Sending ESP-NOW message to %s: type=%s, payload=%s"
                   [AStr (macStr peerMac); AStr messageType; AStr payload]) b in
  let b := emit (Serial "Message size: %d bytes" [AInt (Z.of_nat sizeof_message)]) b in
  let b := emit (Serial "Message contents: sender_id='%s', message_type='%s', payload='%s', timestamp=%lu"
                   [AStr (C.read_cstr message off_sender_id);
                    AStr (C.read_cstr message off_message_type);
                    AStr (C.read_cstr message off_payload);
                    AInt (millis env)]) b in
  let '(result, b) := radio_send peerMac message b in
  let b := emit (Serial "ESP-NOW send result: %d (0x%X) -> %s"
                   [AErr result; AErr result; AErr result]) b in
  if is_ok result then emit (Serial "ESP-NOW message sent successfully" []) b
  else
    let b := emit (Serial "Error sending ESP-NOW message. Error code: %d (0x%X)"
                     [AErr result; AErr result]) b in
    log_send_error result b.

Definition sendESPNowMessage (env : Env) (peerMac : mac_addr)
    (messageType payload : string) (b : Bot) : Bot :=
  if negb (esp_now_is_peer_exist peerMac (radio b)) then
    let b := emit (Serial "ESP-NOW peer %s not found, attempting to add..."
                     [AStr (macStr peerMac)]) b in
    let b := addESPNowPeer env peerMac b in
    let b := emit (Delay 10) b in
    if negb (esp_now_is_peer_exist peerMac (radio b)) then
      emit (Serial "Failed to add ESP-NOW peer %s, cannot send message"
              [AStr (macStr peerMac)]) b
    else transmit env peerMac messageType payload b
  else transmit env peerMac messageType payload b.

Definition respondToPeerMessage (env : Env) (peerMac : mac_addr)
    (responseType : string) (b : Bot) : Bot :=
  let responsePayload := botID b +:+ "_response" in
  let b := emit (Serial "Responding to %s with: %s" [AStr (macStr peerMac); AStr responseType]) b in
  sendESPNowMessage env peerMac responseType responsePayload b.

Definition sendESPNowActivity (cfg : Config) (env : Env)
    (senderMac receiverMac messageType payload : string) (b : Bot) : Bot :=
  if negb (wifi_connected env) || Arduino.equals (mcpServerIP b) "" then b
  else
    let url := "http://" +:+ mcpServerIP b +:+ ":"
                 +:+ Arduino.String_of_int (mcpServerPort b) +:+ mcpESPNowEndpoint in
    let headers := ("Content-Type", "application/json") :: api_key_header cfg in
    let doc :=
      JObj [("sender_mac", JStr senderMac);
            ("receiver_mac", JStr receiverMac);
            ("message_type", JStr messageType);
            ("payload", JObj [("data", JStr payload);
                              ("reported_by", JStr (botID b))])] in
    emit (HttpPost url headers doc) b.

Definition onESPNowReceive (cfg : Config) (env : Env) (mac : mac_addr)
    (incomingData : list byte) (b : Bot) : Bot :=
  let sender_id := C.read_cstr incomingData off_sender_id in
  let message_type := C.read_cstr incomingData off_message_type in
  let message_payload := C.read_cstr incomingData off_payload in
  let b := emit (Serial "ESP-NOW RECEIVED from %s [%s]: %s"
                   [AStr sender_id; AStr message_type; AStr message_payload]) b in
  let msgType := message_type in
  let payload := message_payload in
  let b :=
    if Arduino.equals msgType "heartbeat" then
      let b := emit (Serial "Heartbeat from %s" [AStr sender_id]) b in
      respondToPeerMessage env mac "heartbeat_ack" b
    else if Arduino.equals msgType "status" then
      let b := emit (Serial "Status update from %s: %s" [AStr sender_id; AStr payload]) b in
      respondToPeerMessage env mac "status_ack" b
    else if Arduino.endsWith msgType "_ack" then
      emit (Serial "Acknowledgment from %s: %s" [AStr sender_id; AStr msgType]) b
    else
      emit (Serial "Unknown message type: %s" [AStr msgType]) b in
  sendESPNowActivity cfg env (macStr mac) (macStr (wifi_mac env))
    message_type message_payload b.

Definition discoverMCPServer (cfg : Config) (env : Env) (b : Bot) : bool * Bot :=
  let b := emit (Serial "Discovering MCP server via mDNS..." []) b in
  let b := emit (MdnsBegin (botID b)) b in
  if negb (mdns_begin env) then
    (false, emit (Serial "Error setting up MDNS responder!" []) b)
  else
    let b := emit (MdnsQueryService "mcp-server" "tcp") b in
    let n := length (mdns_services env) in
    if n =? 0 then
      let b := emit (Serial "mDNS: No MCP server found via discovery." []) b in
      if 0 <? C.strlen (MCP_SERVER_IP_FALLBACK cfg) then
        let b := emit (Serial "mDNS: Using fallback IP: %s"
                         [AStr (C.String_ (MCP_SERVER_IP_FALLBACK cfg))]) b in
        let b := set_server (C.String_ (MCP_SERVER_IP_FALLBACK cfg)) 8081 b in
        (true, b)
      else
        (false,
         emit (Serial "mDNS: No fallback IP configured. Will retry discovery later." []) b)
    else
      let '(ip, port) := nth 0 (mdns_services env) ("", 0%Z) in
      let b := set_server ip port b in
      let b := emit (Serial "MCP server found at: " []) b in
      let b := emit (Serial "%s" [AStr ip]) b in
      let b := emit (Serial ":" []) b in
      let b := emit (Serial "%d" [AInt port]) b in
      (true, b).

Definition sendStatusToMCP (cfg : Config) (env : Env) (b : Bot) : Bot :=
  if negb (wifi_connected env) || Arduino.equals (mcpServerIP b) "" then
    let b :=
      if Arduino.equals (mcpServerIP b) "" then snd (discoverMCPServer cfg env b)
      else b in
    emit (Serial "Cannot send status - WiFi not connected or MCP server not found." []) b
  else
    let url := "http://" +:+ mcpServerIP b +:+ ":"
                 +:+ Arduino.String_of_int (mcpServerPort b) +:+ mcpStatusEndpoint in
    let headers := ("Content-Type", "application/json") :: api_key_header cfg in
    let st := botStatus b in
    let location :=
      if negb (SFeqb (location_lat st) float_0) || negb (SFeqb (location_lng st) float_0)
      then [("location", JObj [("lat", JFloat (location_lat st));
                               ("lng", JFloat (location_lng st))])]
      else [] in
    let doc :=
      JObj ([("bot_id", JStr (botID b));
             ("status", JStr (status st));
             ("battery_level", JFloat (batteryLevel st));
             ("wifi_signal", JInt (wifi_rssi env));
             ("uptime_seconds", JInt (uptime st));
             ("mac_address", JStr (macStr (wifi_mac env)))]
            ++ location
            ++ [("sensor_data", JObj (sensor_readings env))]) in
    let b := emit (HttpPost url headers doc) b in
    let httpResponseCode := http_post_code env in
    if (0 <? httpResponseCode)%Z then
      emit (Serial "Status sent to MCP: %d" [AInt httpResponseCode]) b
    else
      emit (Serial "Error sending status: %d" [AInt httpResponseCode]) b.

(** [knownPeers]: speedie_bot knows Wheelie_Bot. *)
Definition knownPeers : list mac_addr := [[x20; xe7; xc8; x59; x5c; xec]].

(** The test that makes the loops over [knownPeers] pass over an entry: the
    first byte is 0xFF, or all six bytes are zero. *)
Definition skipped (mac : mac_addr) : bool :=
  let at_ i := nth i mac x00 in
  Byte.eqb (at_ 0) xff
  || (Byte.eqb (at_ 0) x00 && Byte.eqb (at_ 1) x00 && Byte.eqb (at_ 2) x00
      && Byte.eqb (at_ 3) x00 && Byte.eqb (at_ 4) x00 && Byte.eqb (at_ 5) x00).

(** The loop of [sendHeartbeatToAllPeers] over the entries that are left. *)
Fixpoint heartbeat_loop (env : Env) (peers : list mac_addr) (b : Bot) : Bot :=
  match peers with
  | [] => b
  | peer :: rest =>
      if skipped peer then heartbeat_loop env rest b
      else
        let b := emit (Serial "Sending heartbeat to peer: %02X:%02X:%02X:%02X:%02X:%02X"
                         [AMac peer]) b in
        let b := sendESPNowMessage env peer "heartbeat" (botID b) b in
        heartbeat_loop env rest b
  end.

(** [sendHeartbeatToAllPeers], for the table [peers] in the place of
    [knownPeers]. *)
Definition sendHeartbeatToAllPeers (env : Env) (peers : list mac_addr) (b : Bot) : Bot :=
  let b := emit (Serial "Sending heartbeat to known peers..." []) b in
  heartbeat_loop env peers b.

(** The loop of [initializeWiFi] that waits for the connection: [budget]
    is what is left of the 20 attempts. *)
Fixpoint wait_for_connection (w : WiFiAnswers) (budget attempts : nat) (b : Bot)
  : nat * Bot :=
  match budget with
  | 0 => (attempts, b)
  | S budget =>
      if is_connected (status_after w attempts) then (attempts, b)
      else
        let b := emit (Delay 500) b in
        let b := emit (Serial "." []) b in
        wait_for_connection w budget (S attempts) b
  end.

Definition print_networks (nets : list (string * Z * bool)) (b : Bot) : Bot :=
  foldl (fun b '(i, (ssid, rssi, open)) =>
           emit (Serial "%d: %s (%d dBm) %s"
                   [AInt (Z.of_nat i + 1); AStr ssid; AInt rssi;
                    AStr (if open : bool then "Open" else "Encrypted")]) b)
    b (imap (fun i net => (i, net)) nets).

(** [initializeWiFi], with [WIFI_SSID] and [WIFI_PASSWORD] of [config.h];
    the requests to the WiFi driver are returned next to the bot. *)
Definition initializeWiFi (ssid password : string) (w : WiFiAnswers) (env : Env)
    (b : Bot) : list wifi_call * Bot :=
  let b := emit (Serial "Scanning for WiFi networks..." []) b in
  let n := length (scanNetworks w) in
  let b := emit (Serial "Found %d networks:" [AInt (Z.of_nat n)]) b in
  let b := print_networks (scanNetworks w) b in
  let b := emit (Serial "" []) b in
  let b := emit (Serial "Connecting to WiFi network: %s" [AStr ssid]) b in
  let '(attempts, b) := wait_for_connection w 20 0 b in
  let calls := [WiFi_mode_STA; WiFi_scanNetworks; WiFi_begin ssid password] in
  if is_connected (status_after w attempts) then
    let b := emit (Serial "" []) b in
    let b := emit (Serial "WiFi connected!" []) b in
    let b := emit (Serial "IP address: " []) b in
    let b := emit (Serial "%s" [AStr (localIP w)]) b in
    let b := emit (Serial "Signal strength: %d dBm" [AInt (wifi_rssi env)]) b in
    (calls, set_wifiSignal (wifi_rssi env) b)
  else
    let b := emit (Serial "WiFi connection failed!" []) b in
    let b := emit (Serial "WiFi status code: %d"
                     [AInt (wl_code (status_after w attempts))]) b in
    let b := set_status "wifi_error" b in
    (calls, set_server "" 0 b).

Definition checkForFirmwareUpdate (cfg : Config) (env : Env) (b : Bot) : Bot :=
  if negb (wifi_connected env) || Arduino.equals (mcpServerIP b) "" then
    emit (Serial "Cannot check for firmware update - WiFi not connected or MCP server not found" []) b
  else
    let b := emit (Serial "Checking for new firmware..." []) b in
    let url := "http://" +:+ mcpServerIP b +:+ ":"
                 +:+ Arduino.String_of_int (mcpServerPort b) +:+ mcpFirmwareEndpoint in
    let b := emit (HttpGet url []) b in
    let httpCode := http_get_code env in
    if (httpCode =? 200)%Z then
      let latestVersion := doc_version (http_get_doc env) in
      let filename := doc_filename (http_get_doc env) in
      let b := emit (Serial "Current firmware version: %.2f"
                       [AFloat (FIRMWARE_VERSION cfg)]) b in
      let b := emit (Serial "Latest firmware version on server: %.2f"
                       [AFloat latestVersion]) b in
      if SFltb (FIRMWARE_VERSION cfg) latestVersion then
        let b := emit (Serial "New firmware available (v%.2f). Starting update from %s..."
                         [AFloat latestVersion; AStr (default "(null)" filename)]) b in
        let firmwareUrl :=
          "http://" +:+ mcpServerIP b +:+ ":"
            +:+ Arduino.String_of_int (mcpServerPort b) +:+ "/firmware/"
            +:+ default "" filename in
        let b := emit (HttpUpdate firmwareUrl) b in
        match http_update env with
        | HTTP_UPDATE_FAILED =>
            emit (Serial "HTTP_UPDATE_FAILED Error (%d): %s" []) b
        | HTTP_UPDATE_NO_UPDATES => emit (Serial "HTTP_UPDATE_NO_UPDATES" []) b
        | HTTP_UPDATE_OK => emit (Serial "HTTP_UPDATE_OK" []) b
        end
      else
        emit (Serial "Firmware is up to date." []) b
    else b.

End Speedie.

(** ** generic_bot_template *)

Module Template.

(** The settings of the template's [config.h], which is kept in the
    repository as bots/Temperature_Sensor/src/config.h. *)
Definition config : Config :=
  {| MCP_SERVER_IP_FALLBACK := "192.168.1.130";
     MCP_API_KEY := "api_secure_key_1234567890";
     FIRMWARE_VERSION := float_1_0 |}.

(** [esp_now_message_t]: the same four members as in speedie_bot. *)
Definition esp_now_message_t : list Layout.member :=
  [Layout.char_array 24; Layout.char_array 12; Layout.char_array 128;
   Layout.uint32_t].

Definition sizeof_message : nat := Eval vm_compute in Layout.sizeof esp_now_message_t.
Definition off_sender_id : nat := Eval vm_compute in Layout.offsetof esp_now_message_t 0.
Definition off_message_type : nat := Eval vm_compute in Layout.offsetof esp_now_message_t 1.
Definition off_payload : nat := Eval vm_compute in Layout.offsetof esp_now_message_t 2.
Definition off_timestamp : nat := Eval vm_compute in Layout.offsetof esp_now_message_t 3.

Definition addESPNowPeer (peerMac : mac_addr) (b : Bot) : Bot :=
  let peerInfo := {| peer_addr := peerMac; channel := 0; encrypt := false |} in
  let '(result, b) := radio_add_peer peerInfo b in
  if negb (is_ok result) then
    emit (Serial "Failed to add ESP-NOW peer: %02X:%02X:%02X:%02X:%02X:%02X"
            [AMac peerMac]) b
  else
    emit (Serial "ESP-NOW peer added successfully: %02X:%02X:%02X:%02X:%02X:%02X"
            [AMac peerMac]) b.

(** The frame [sendESPNowMessage] builds: no clearing, a terminator
    stored in the last byte of each character array. *)
Definition make_message (env : Env) (id messageType payload : string) : list byte :=
  let message := C.uninitialized (stack env) sizeof_message in
  let message := C.strncpy message off_sender_id (C.c_str id) (24 - 1) in
  let message := C.store_byte message (off_sender_id + (24 - 1)) x00 in
  let message := C.strncpy message off_message_type (C.c_str messageType) (12 - 1) in
  let message := C.store_byte message (off_message_type + (12 - 1)) x00 in
  let message := C.strncpy message off_payload (C.c_str payload) (128 - 1) in
  let message := C.store_byte message (off_payload + (128 - 1)) x00 in
  C.store_u32 message off_timestamp (millis env).

Definition sendESPNowMessage (env : Env) (peerMac : mac_addr)
    (messageType payload : string) (b : Bot) : Bot :=
  let message := make_message env (botID b) messageType payload in
  let b := emit (Serial "Sending ESP-NOW message to %s: type=%s, payload=%s"
                   [AStr (macStr peerMac); AStr messageType; AStr payload]) b in
  let b := emit (Serial "Message size: %d bytes" [AInt (Z.of_nat sizeof_message)]) b in
  let '(result, b) := radio_send peerMac message b in
  if is_ok result then emit (Serial "ESP-NOW message sent successfully" []) b
  else emit (Serial "Error sending ESP-NOW message: %s (0x%x)"
               [AErr result; AErr result]) b.

Definition sendESPNowActivity (cfg : Config) (env : Env)
    (senderMac receiverMac messageType payload : string) (b : Bot) : Bot :=
  if negb (wifi_connected env) || Arduino.equals (mcpServerIP b) "" then b
  else
    let url := "http://" +:+ mcpServerIP b +:+ ":"
                 +:+ Arduino.String_of_int (mcpServerPort b) +:+ mcpESPNowEndpoint in
    let headers := ("Content-Type", "application/json") :: api_key_header cfg in
    let doc :=
      JObj [("sender_mac", JStr senderMac);
            ("receiver_mac", JStr receiverMac);
            ("message_type", JStr messageType);
            ("payload", JObj [("data", JStr payload);
                              ("reported_by", JStr (botID b))])] in
    emit (HttpPost url headers doc) b.

Definition respondToPeerMessage (cfg : Config) (env : Env) (peerMac : mac_addr)
    (responseType : string) (b : Bot) : Bot :=
  let b := emit (Serial "Responding to %s with: %s" [AStr (macStr peerMac); AStr responseType]) b in
  let responsePayload := botID b +:+ "_response" in
  let b := sendESPNowMessage env peerMac responseType responsePayload b in
  sendESPNowActivity cfg env (macStr peerMac) "self" responseType responsePayload b.

Definition onESPNowReceive (cfg : Config) (env : Env) (mac : mac_addr)
    (incomingData : list byte) (b : Bot) : Bot :=
  let sender_id := C.read_cstr incomingData off_sender_id in
  let message_type := C.read_cstr incomingData off_message_type in
  let message_payload := C.read_cstr incomingData off_payload in
  let b := emit (Serial "ESP-NOW RECEIVED from %s [%s]: %s"
                   [AStr sender_id; AStr message_type; AStr message_payload]) b in
  let msgType := message_type in
  let payload := message_payload in
  let b :=
    if Arduino.equals msgType "heartbeat" then
      let b := emit (Serial "Heartbeat from %s" [AStr sender_id]) b in
      respondToPeerMessage cfg env mac "heartbeat_ack" b
    else if Arduino.equals msgType "status" then
      let b := emit (Serial "Status update from %s: %s" [AStr sender_id; AStr payload]) b in
      respondToPeerMessage cfg env mac "status_ack" b
    else if Arduino.endsWith msgType "_ack" then
      emit (Serial "Acknowledgment from %s: %s" [AStr sender_id; AStr msgType]) b
    else
      emit (Serial "Unknown message type: %s" [AStr msgType]) b in
  sendESPNowActivity cfg env (macStr mac) "self" message_type message_payload b.

Definition sendStatusToMCP (cfg : Config) (env : Env) (b : Bot) : Bot :=
  if negb (wifi_connected env) || Arduino.equals (mcpServerIP b) "" then b
  else
    let url := "http://" +:+ mcpServerIP b +:+ ":"
                 +:+ Arduino.String_of_int (mcpServerPort b) +:+ mcpStatusEndpoint in
    let headers := ("Content-Type", "application/json") :: api_key_header cfg in
    let st := botStatus b in
    let doc :=
      JObj [("bot_id", JStr (botID b));
            ("timestamp",
             JStr ("2025-11-01T" +:+ Arduino.String_of_int (millis env / 1000)));
            ("status", JStr (status st));
            ("battery_level", JFloat (batteryLevel st));
            ("wifi_signal", JInt (wifiSignal st));
            ("uptime_seconds", JInt (uptime st));
            ("mac_address", JStr (macStr (wifi_mac env)))] in
    let b := emit (HttpPost url headers doc) b in
    let httpResponseCode := http_post_code env in
    if (0 <? httpResponseCode)%Z then
      emit (Serial "Status sent to MCP: %d" [AInt httpResponseCode]) b
    else
      emit (Serial "Error sending status: %d" [AInt httpResponseCode]) b.

Definition checkForFirmwareUpdate (cfg : Config) (env : Env) (b : Bot) : Bot :=
  if negb (wifi_connected env) || Arduino.equals (mcpServerIP b) "" then b
  else
    let url := "http://" +:+ mcpServerIP b +:+ ":"
                 +:+ Arduino.String_of_int (mcpServerPort b) +:+ mcpFirmwareEndpoint in
    let b := emit (HttpGet url (api_key_header cfg)) b in
    let httpResponseCode := http_get_code env in
    if (httpResponseCode =? 200)%Z then
      let latestVersion := doc_version (http_get_doc env) in
      let downloadUrl := default "null" (doc_download_url (http_get_doc env)) in
      if SFltb (FIRMWARE_VERSION cfg) latestVersion then
        let b := emit (Serial "Firmware update available: v%.1f -> v%.1f"
                         [AFloat (FIRMWARE_VERSION cfg); AFloat latestVersion]) b in
        emit (Serial "Download URL: %s" [AStr downloadUrl]) b
      else b
    else b.

(** [KNOWN_PEERS] of the template's [config.h]: addresses and names. *)
Definition KNOWN_PEERS : list (mac_addr * string) :=
  [([x20; xe7; xc8; x59; x5c; xec], "Wheelie_Bot");
   ([x20; xe7; xc8; x59; x5d; x08], "Speedie_Bot")].

Definition discoverMCPServer (cfg : Config) (env : Env) (b : Bot) : bool * Bot :=
  let b := emit (Serial "Discovering MCP server via mDNS..." []) b in
  let b := emit (MdnsBegin (botID b)) b in
  if negb (mdns_begin env) then
    let b := emit (Serial "Error setting up mDNS responder!" []) b in
    let b := set_server (C.String_ (MCP_SERVER_IP_FALLBACK cfg)) 8081 b in
    (false, b)
  else
    let b := emit (MdnsQueryService "mcp-server" "tcp") b in
    let n := length (mdns_services env) in
    if n =? 0 then
      let b := emit (Serial "mDNS: No MCP server found via discovery." []) b in
      let b := emit (Serial "mDNS: Using fallback IP: %s"
                       [AStr (C.String_ (MCP_SERVER_IP_FALLBACK cfg))]) b in
      let b := set_server (C.String_ (MCP_SERVER_IP_FALLBACK cfg)) 8081 b in
      (false, b)
    else
      let '(ip, port) := nth 0 (mdns_services env) ("", 0%Z) in
      let b := set_server ip port b in
      let b := emit (Serial "MCP server found at: %s:%d" [AStr ip; AInt port]) b in
      (true, b).

(** The loop of [sendHeartbeatToAllPeers]. *)
Fixpoint heartbeat_loop (env : Env) (peers : list (mac_addr * string)) (b : Bot) : Bot :=
  match peers with
  | [] => b
  | (mac, name) :: rest =>
      let b := emit (Serial "Sending heartbeat to peer: %s" [AStr name]) b in
      let b := sendESPNowMessage env mac "heartbeat" (botID b) b in
      heartbeat_loop env rest b
  end.

(** [sendHeartbeatToAllPeers], for the table [peers] in the place of
    [KNOWN_PEERS]. *)
Definition sendHeartbeatToAllPeers (env : Env) (peers : list (mac_addr * string))
    (b : Bot) : Bot :=
  let b := emit (Serial "Sending ESP-NOW heartbeat to all peers..." []) b in
  heartbeat_loop env peers b.

Fixpoint wait_for_connection (w : WiFiAnswers) (budget attempts : nat) (b : Bot)
  : nat * Bot :=
  match budget with
  | 0 => (attempts, b)
  | S budget =>
      if is_connected (status_after w attempts) then (attempts, b)
      else
        let b := emit (Delay 500) b in
        let b := emit (Serial "." []) b in
        wait_for_connection w budget (S attempts) b
  end.

Definition print_networks (nets : list (string * Z * bool)) (b : Bot) : Bot :=
  foldl (fun b '(i, (ssid, rssi, open)) =>
           emit (Serial "%d: %s (%d dBm) %s"
                   [AInt (Z.of_nat i + 1); AStr ssid; AInt rssi;
                    AStr (if open : bool then "Open" else "Encrypted")]) b)
    b (imap (fun i net => (i, net)) nets).

(** [initializeWiFi]: as in speedie_bot, but a failure is logged only. *)
Definition initializeWiFi (ssid password : string) (w : WiFiAnswers) (env : Env)
    (b : Bot) : list wifi_call * Bot :=
  let b := emit (Serial "Scanning for WiFi networks..." []) b in
  let n := length (scanNetworks w) in
  let b := emit (Serial "Found %d networks:" [AInt (Z.of_nat n)]) b in
  let b := print_networks (scanNetworks w) b in
  let b := emit (Serial "" []) b in
  let b := emit (Serial "Connecting to WiFi network: %s" [AStr ssid]) b in
  let '(attempts, b) := wait_for_connection w 20 0 b in
  let calls := [WiFi_mode_STA; WiFi_scanNetworks; WiFi_begin ssid password] in
  if is_connected (status_after w attempts) then
    let b := emit (Serial "" []) b in
    let b := emit (Serial "WiFi connected!" []) b in
    let b := emit (Serial "IP address: " []) b in
    let b := emit (Serial "%s" [AStr (localIP w)]) b in
    let b := emit (Serial "Signal strength: %d dBm" [AInt (wifi_rssi env)]) b in
    (calls, set_wifiSignal (wifi_rssi env) b)
  else
    let b := emit (Serial "WiFi connection failed!" []) b in
    let b := emit (Serial "WiFi status code: %d"
                     [AInt (wl_code (status_after w attempts))]) b in
    (calls, b).

End Template.

(** ** examples/bot_wifi_client *)

Module WifiClient.

Definition config : Config :=
  {| MCP_SERVER_IP_FALLBACK := "192.168.1.130";
     MCP_API_KEY := "api_secure_key_1234567890";
     FIRMWARE_VERSION := float_1_0 |}.

(** [esp_now_message_t]: sender_id[32], message_type[16], payload[200],
    timestamp. *)
Definition esp_now_message_t : list Layout.member :=
  [Layout.char_array 32; Layout.char_array 16; Layout.char_array 200;
   Layout.uint32_t].

Definition sizeof_message : nat := Eval vm_compute in Layout.sizeof esp_now_message_t.
Definition off_sender_id : nat := Eval vm_compute in Layout.offsetof esp_now_message_t 0.
Definition off_message_type : nat := Eval vm_compute in Layout.offsetof esp_now_message_t 1.
Definition off_payload : nat := Eval vm_compute in Layout.offsetof esp_now_message_t 2.
Definition off_timestamp : nat := Eval vm_compute in Layout.offsetof esp_now_message_t 3.

Definition make_message (env : Env) (id messageType payload : string) : list byte :=
  let message := C.uninitialized (stack env) sizeof_message in
  let message := C.strncpy message off_sender_id (C.c_str id) (32 - 1) in
  let message := C.strncpy message off_message_type (C.c_str messageType) (16 - 1) in
  let message := C.strncpy message off_payload (C.c_str payload) (200 - 1) in
  C.store_u32 message off_timestamp (millis env).

Definition sendESPNowMessage (env : Env) (peerMac : mac_addr)
    (messageType payload : string) (b : Bot) : Bot :=
  let message := make_message env (botID b) messageType payload in
  let '(result, b) := radio_send peerMac message b in
  if is_ok result then emit (Serial "ESP-NOW message sent successfully" []) b
  else emit (Serial "Error sending ESP-NOW message" []) b.

Definition discoverMCPServer (cfg : Config) (env : Env) (b : Bot) : bool * Bot :=
  let b := emit (Serial "Discovering MCP server via mDNS..." []) b in
  let b := emit (MdnsBegin (botID b)) b in
  if negb (mdns_begin env) then
    (false, emit (Serial "Error setting up MDNS responder!" []) b)
  else
    let b := emit (MdnsQueryService "mcp-server" "tcp") b in
    let n := length (mdns_services env) in
    if n =? 0 then
      let b := emit (Serial "mDNS: No MCP server found via discovery." []) b in
      if 0 <? C.strlen (MCP_SERVER_IP_FALLBACK cfg) then
        let b := emit (Serial "mDNS: Using fallback IP: %s"
                         [AStr (C.String_ (MCP_SERVER_IP_FALLBACK cfg))]) b in
        let b := set_server (C.String_ (MCP_SERVER_IP_FALLBACK cfg)) 8080 b in
        (true, b)
      else
        (false,
         emit (Serial "mDNS: No fallback IP configured. Will retry discovery later." []) b)
    else
      let '(ip, port) := nth 0 (mdns_services env) ("", 0%Z) in
      let b := set_server ip port b in
      let b := emit (Serial "MCP server found at: " []) b in
      let b := emit (Serial "%s" [AStr ip]) b in
      let b := emit (Serial ":" []) b in
      let b := emit (Serial "%d" [AInt port]) b in
      (true, b).

Definition checkForFirmwareUpdate (cfg : Config) (env : Env) (b : Bot) : Bot :=
  if negb (wifi_connected env) || Arduino.equals (mcpServerIP b) "" then
    emit (Serial "Cannot check for firmware update - WiFi not connected or MCP server not found" []) b
  else
    let b := emit (Serial "Checking for new firmware..." []) b in
    let url := "http://" +:+ mcpServerIP b +:+ ":"
                 +:+ Arduino.String_of_int (mcpServerPort b) +:+ mcpFirmwareEndpoint in
    let b := emit (HttpGet url []) b in
    let httpCode := http_get_code env in
    if (httpCode =? 200)%Z then
      let latestVersion := doc_version (http_get_doc env) in
      let filename := doc_filename (http_get_doc env) in
      let b := emit (Serial "Current firmware version: %.2f"
                       [AFloat (FIRMWARE_VERSION cfg)]) b in
      let b := emit (Serial "Latest firmware version on server: %.2f"
                       [AFloat latestVersion]) b in
      if SFltb (FIRMWARE_VERSION cfg) latestVersion then
        let b := emit (Serial "New firmware available (v%.2f). Starting update from %s..."
                         [AFloat latestVersion; AStr (default "(null)" filename)]) b in
        let firmwareUrl :=
          "http://" +:+ mcpServerIP b +:+ ":"
            +:+ Arduino.String_of_int (mcpServerPort b) +:+ "/firmware/"
            +:+ default "" filename in
        let b := emit (HttpUpdate firmwareUrl) b in
        match http_update env with
        | HTTP_UPDATE_FAILED =>
            emit (Serial "HTTP_UPDATE_FAILED Error (%d): %s" []) b
        | HTTP_UPDATE_NO_UPDATES => emit (Serial "HTTP_UPDATE_NO_UPDATES" []) b
        | HTTP_UPDATE_OK => emit (Serial "HTTP_UPDATE_OK" []) b
        end
      else
        emit (Serial "Firmware is up to date." []) b
    else b.

Definition addESPNowPeer (peerMac : mac_addr) (b : Bot) : Bot :=
  let peerInfo := {| peer_addr := peerMac; channel := 0; encrypt := false |} in
  let '(result, b) := radio_add_peer peerInfo b in
  if negb (is_ok result) then emit (Serial "Failed to add ESP-NOW peer" []) b
  else emit (Serial "ESP-NOW peer added successfully" []) b.

Definition sendESPNowActivity (cfg : Config) (env : Env)
    (senderMac receiverMac messageType payload : string) (b : Bot) : Bot :=
  if negb (wifi_connected env) || Arduino.equals (mcpServerIP b) "" then b
  else
    let url := "http://" +:+ mcpServerIP b +:+ ":"
                 +:+ Arduino.String_of_int (mcpServerPort b) +:+ mcpESPNowEndpoint in
    let headers := ("Content-Type", "application/json") :: api_key_header cfg in
    let doc :=
      JObj [("sender_mac", JStr senderMac);
            ("receiver_mac", JStr receiverMac);
            ("message_type", JStr messageType);
            ("payload", JObj [("data", JStr payload);
                              ("reported_by", JStr (botID b))])] in
    emit (HttpPost url headers doc) b.

(** [onESPNowReceive]: the frame is read with this sketch's own layout and
    reported; there is no reply. *)
Definition onESPNowReceive (cfg : Config) (env : Env) (mac : mac_addr)
    (incomingData : list byte) (b : Bot) : Bot :=
  let b := emit (Serial "ESP-NOW received from %s: %s"
                   [AStr (macStr mac); AStr (C.read_cstr incomingData off_payload)]) b in
  sendESPNowActivity cfg env (macStr mac) (macStr (wifi_mac env))
    (C.read_cstr incomingData off_message_type)
    (C.read_cstr incomingData off_payload) b.

(** One turn of the loop of [sendHeartbeatToAllPeers]. *)
Definition heartbeat_step (env : Env) (b : Bot) : Bot :=
  let '(r, peer, d) := esp_now_fetch_peer true (radio b) in
  let b := set_radio d b in
  match is_ok r, peer with
  | true, Some peer => sendESPNowMessage env (peer_addr peer) "heartbeat" (botID b) b
  | _, _ => b
  end.

Fixpoint heartbeat_loop (turns : nat) (env : Env) (b : Bot) : Bot :=
  match turns with
  | 0 => b
  | S turns => heartbeat_loop turns env (heartbeat_step env b)
  end.

Definition sendHeartbeatToAllPeers (env : Env) (b : Bot) : Bot :=
  let total_num := esp_now_get_peer_num (radio b) in
  heartbeat_loop total_num env b.

End WifiClient.

(** ** examples/esp_now_example *)

Module EspNowExample.

Definition knownPeers : list mac_addr :=
  [[x24; x6f; x28; xaa; xbb; xcc];
   [x24; x6f; x28; xdd; xee; xff]].

(** [esp_now_message_t]: sender_id[32], message_type[16], payload[200],
    timestamp, hop_count. *)
Definition esp_now_message_t : list Layout.member :=
  [Layout.char_array 32; Layout.char_array 16; Layout.char_array 200;
   Layout.uint32_t; Layout.uint8_t].

Definition sizeof_message : nat := Eval vm_compute in Layout.sizeof esp_now_message_t.
Definition off_sender_id : nat := Eval vm_compute in Layout.offsetof esp_now_message_t 0.
Definition off_message_type : nat := Eval vm_compute in Layout.offsetof esp_now_message_t 1.
Definition off_payload : nat := Eval vm_compute in Layout.offsetof esp_now_message_t 2.
Definition off_timestamp : nat := Eval vm_compute in Layout.offsetof esp_now_message_t 3.
Definition off_hop_count : nat := Eval vm_compute in Layout.offsetof esp_now_message_t 4.

(** [message->hop_count]. *)
Definition hop_count (message : list byte) : Z := C.load_u8 message off_hop_count.

(** [message->hop_count++] on a [uint8_t]. *)
Definition incr_hop_count (message : list byte) : list byte :=
  C.store_byte message off_hop_count (C.byte_of_Z (hop_count message + 1)).

(** The data [esp_now_send] is given: [sizeof( *message)] bytes from
    [message] on. *)
Definition wire (message : list byte) : list byte :=
  take sizeof_message (message ++ replicate sizeof_message x00).

(** One turn of the loop of [broadcastMessage]. *)
Definition broadcast_step (message : list byte) (b : Bot) : Bot :=
  let '(r, peer, d) := esp_now_fetch_peer true (radio b) in
  let b := set_radio d b in
  match is_ok r, peer with
  | true, Some peer =>
      let '(result, b) := radio_send (peer_addr peer) (wire message) b in
      if is_ok result then set_messagesSent (messagesSent b + 1) b else b
  | _, _ => b
  end.

Fixpoint broadcast_loop (turns : nat) (message : list byte) (b : Bot) : Bot :=
  match turns with
  | 0 => b
  | S turns => broadcast_loop turns message (broadcast_step message b)
  end.

Definition broadcastMessage (message : list byte) (b : Bot) : Bot :=
  let total_num := esp_now_get_peer_num (radio b) in
  broadcast_loop total_num message b.

(** [handleEmergency]: the frame is changed in place, so it is returned
    next to the bot. *)
Definition handleEmergency (senderMac : mac_addr) (message : list byte) (b : Bot)
  : list byte * Bot :=
  let b := emit (Serial "EMERGENCY from %s: %s"
                   [AStr (C.read_cstr message off_sender_id);
                    AStr (C.read_cstr message off_payload)]) b in
  if (hop_count message <? 3)%Z then
    let message := incr_hop_count message in
    (message, broadcastMessage message b)
  else (message, b).

(** The loop of [addKnownPeers]. *)
Fixpoint add_peers_loop (peers : list mac_addr) (b : Bot) : Bot :=
  match peers with
  | [] => b
  | mac :: rest =>
      let peerInfo := {| peer_addr := mac; channel := 0; encrypt := false |} in
      let '(result, b) := radio_add_peer peerInfo b in
      let b :=
        if is_ok result
        then emit (Serial "Added peer: %02X:%02X:%02X:%02X:%02X:%02X" [AMac mac]) b
        else b in
      add_peers_loop rest b
  end.

Definition addKnownPeers (b : Bot) : Bot := add_peers_loop knownPeers b.

(** The frame [sendDirectMessage] builds in its local [message]: three
    unbounded copies into an object that is not cleared. *)
Definition make_direct (env : Env) (id messageType payload : string)
  : option (list byte) :=
  let message := C.uninitialized (stack env) sizeof_message in
  message ← C.strcpy message off_sender_id 32 (C.c_str id);
  message ← C.strcpy message off_message_type 16 (C.c_str messageType);
  message ← C.strcpy message off_payload 200 (C.c_str payload);
  let message := C.store_u32 message off_timestamp (millis env) in
  Some (C.store_byte message off_hop_count x00).

Definition sendDirectMessage (env : Env) (targetMac : mac_addr)
    (messageType payload : string) (b : Bot) : option Bot :=
  message ← make_direct env (botID b) messageType payload;
  let '(result, b) := radio_send targetMac message b in
  Some (if is_ok result then
          let b := set_messagesSent (messagesSent b + 1) b in
          emit (Serial "Direct message sent to %02X:%02X:%02X:%02X:%02X:%02X"
                  [AMac targetMac]) b
        else b).

(** [parseMacAddress(macStr, mac)]: the result and the caller's array
    [mac] afterwards. *)
Definition parseMacAddress (macStr : string) (mac : mac_addr) : bool * mac_addr :=
  if negb (String.length macStr =? 17) then (false, mac)
  else
    (true,
     foldl (fun mac i =>
              let byteStr := Arduino.substring macStr (i * 3) (i * 3 + 2) in
              C.store_byte mac i (C.byte_of_Z (C.strtol_16 (C.c_str byteStr))))
       mac (seq 0 6)).

End EspNowExample.

(** ** Vocabulary of the statements *)

(** A character array of [n] bytes that holds a C string cut to [n - 1]
    characters and is filled up with NULs. *)
Definition cfield (n : nat) (s : string) : list byte :=
  let copied := take (n - 1) (C.c_str s) in
  copied ++ replicate (n - length copied) x00.

(** The frame of speedie_bot and of the template, member after member. *)
Definition frame_image (id ty pl : string) (t : Z) : list byte :=
  cfield 24 id ++ cfield 12 ty ++ cfield 128 pl ++ C.le32 t.

(** Whether byte [i] of a speedie_bot frame belongs to one of the copied
    strings or to the timestamp. *)
Definition covered (id ty pl : string) (i : nat) : Prop :=
  i < length (take 23 (C.c_str id))
  ∨ (24 ≤ i ∧ i < 24 + length (take 11 (C.c_str ty)))
  ∨ (36 ≤ i ∧ i < 36 + length (take 127 (C.c_str pl)))
  ∨ 164 ≤ i.

(** [b'] is [b] after some more events. *)
Definition extends (b b' : Bot) (new : list event) : Prop :=
  trace b' = trace b ++ new.

(** The number of entries the driver's peer list has for an address. *)
Definition entries (mac : mac_addr) (d : driver) : nat :=
  length (List.filter (has_addr mac) (peer_list d)).

(** The destinations of the frames handed to the radio, each with the
    driver's answer. *)
Definition send_results (t : list event) : list (mac_addr * esp_err_t) :=
  omap (fun e => match e with RadioSend m _ r => Some (m, r) | _ => None end) t.

(** The waits a trace holds, in milliseconds. *)
Definition waits (t : list event) : list Z :=
  omap (fun e => match e with Delay ms => Some ms | _ => None end) t.

(** Whether the station is connected after some number of waits up to
    [n]. *)
Definition connects_within (w : WiFiAnswers) (n : nat) : Prop :=
  ∃ k, k ≤ n ∧ is_connected (status_after w k) = true.

(** The URLs of the GET requests of a trace. *)
Definition http_gets (t : list event) : list string :=
  omap (fun e => match e with HttpGet u _ => Some u | _ => None end) t.

(** Concrete bots and answers of the environment. *)
Module Scenario.

Definition peer (m : mac_addr) : esp_now_peer_info_t :=
  {| peer_addr := m; channel := 0; encrypt := false |}.

Definition radio_with (peers : list mac_addr) : driver :=
  {| initialized := true; peer_list := map peer peers; fetch_pos := 0 |}.

Definition radio_off : driver :=
  {| initialized := false; peer_list := []; fetch_pos := 0 |}.

Definition bot (id ip : string) (port : Z) (d : driver) : Bot :=
  {| botID := id; mcpServerIP := ip; mcpServerPort := port;
     botStatus := {| status := "active"; batteryLevel := float_1_0;
                     wifiSignal := (-50)%Z; uptime := 12%Z;
                     location_lat := float_0; location_lng := float_0 |};
     messagesSent := 0%Z; radio := d; trace := [] |}.

(** WiFi is up, mDNS answers nothing, the server sends [doc]. *)
Definition env (doc : FirmwareDoc) : Env :=
  {| wifi_connected := true; wifi_channel := 6%Z; wifi_rssi := (-50)%Z;
     wifi_mac := [x20; xe7; xc8; x59; x5d; x08];
     millis := 1000%Z; stack := [];
     mdns_begin := true; mdns_services := [];
     http_post_code := 200%Z; http_get_code := 200%Z;
     http_get_doc := doc; http_update := HTTP_UPDATE_OK;
     sensor_readings := [] |}.

Definition newer : FirmwareDoc :=
  {| doc_version := float_1_1; doc_filename := Some "fw.bin";
     doc_download_url := None |}.

Definition same : FirmwareDoc :=
  {| doc_version := float_1_0; doc_filename := Some "fw.bin";
     doc_download_url := None |}.

(** The address of Wheelie_Bot, the peer speedie_bot knows. *)
Definition wheelie : mac_addr := [x20; xe7; xc8; x59; x5c; xec].

(** A whole [esp_now_message_t] of esp_now_example: an emergency frame
    with the given hop count. *)
Definition emergency_frame (hop : Z) : list byte :=
  cfield 32 "ESP32_Bot_a1b2c3" ++ cfield 16 "emergency" ++ cfield 200 "fire"
    ++ C.le32 1000 ++ [C.byte_of_Z hop; x00; x00; x00].

(** The two peers esp_now_example knows. *)
Definition first_peer : mac_addr := [x24; x6f; x28; xaa; xbb; xcc].
Definition second_peer : mac_addr := [x24; x6f; x28; xdd; xee; xff].

(** 150 characters, more than the 127 a payload may keep. *)
Definition long_payload : string := string_of_list_byte (replicate 150 x41).

Definition example_node : Bot :=
  bot "ESP32_Bot_d4e5f6" "" 0 (radio_with EspNowExample.knownPeers).

(** The answers of [env], with a stack that holds old data. *)
Definition stale_stack_env : Env :=
  {| wifi_connected := true; wifi_channel := 6%Z; wifi_rssi := (-50)%Z;
     wifi_mac := [x20; xe7; xc8; x59; x5d; x08];
     millis := 1000%Z; stack := replicate 300 xa5;
     mdns_begin := true; mdns_services := [];
     http_post_code := 200%Z; http_get_code := 200%Z;
     http_get_doc := newer; http_update := HTTP_UPDATE_OK;
     sensor_readings := [] |}.

(** A station that is connected after three waits, and one that never
    is. *)
Definition link_after_3 : WiFiAnswers :=
  {| scanNetworks := [("lab", (-48)%Z, false)];
     status_after := fun n => if n <? 3 then WL_DISCONNECTED else WL_CONNECTED;
     localIP := "192.168.1.77" |}.


(** The server answers the firmware check with a newer version and no
    file name. *)
Definition newer_without_filename : FirmwareDoc :=
  {| doc_version := float_1_1; doc_filename := None; doc_download_url := None |}.

(** WiFi is up and the server does not answer: the POST returns -1. *)
Definition server_down_env : Env :=
  {| wifi_connected := true; wifi_channel := 6%Z; wifi_rssi := (-50)%Z;
     wifi_mac := [x20; xe7; xc8; x59; x5d; x08];
     millis := 1000%Z; stack := [];
     mdns_begin := true; mdns_services := [];
     http_post_code := (-1)%Z; http_get_code := (-1)%Z;
     http_get_doc := same; http_update := HTTP_UPDATE_FAILED;
     sensor_readings := [] |}.

End Scenario.

(** * Properties *)

(** ** The C library *)

Lemma chars_no_nul (l : list byte) : Forall (fun b => b ≠ x00) (C.chars l).
Proof.
  induction l as [|b r IH]; simpl; [constructor|].
  destruct (Byte.eqb b x00) eqn:E; [constructor|].
  constructor; [|exact IH].
  intros ->. discriminate E.
Qed.

Lemma chars_app_nul (s r : list byte) :
  Forall (fun b => b ≠ x00) s → C.chars (s ++ x00 :: r) = s.
Proof.
  induction 1 as [|b s Hb _ IH]; simpl; [reflexivity|].
  destruct (Byte.eqb b x00) eqn:E.
  - apply byte_dec_bl in E. contradiction.
  - by rewrite IH.
Qed.

Lemma chars_take_no_nul (n : nat) (l : list byte) :
  Forall (fun b => b ≠ x00) (take n (C.chars l)).
Proof. apply Forall_take, chars_no_nul. Qed.

Lemma length_uninitialized (g : list byte) (n : nat) :
  length (C.uninitialized g n) = n.
Proof.
  unfold C.uninitialized.
  rewrite length_take, length_app, length_replicate. lia.
Qed.

Lemma length_le32 (v : Z) : length (C.le32 v) = 4.
Proof. reflexivity. Qed.

Lemma length_strncpy (buf : list byte) (off : nat) (src : list byte) (n : nat) :
  off + n ≤ length buf → length (C.strncpy buf off src n) = length buf.
Proof.
  intros H. unfold C.strncpy.
  rewrite !length_app, length_replicate, !length_take, length_drop. lia.
Qed.

Lemma length_store_u32 (buf : list byte) (off : nat) (v : Z) :
  off + 4 ≤ length buf → length (C.store_u32 buf off v) = length buf.
Proof.
  intros H. unfold C.store_u32.
  rewrite !length_app, length_le32, length_take, length_drop. lia.
Qed.

Lemma length_store_byte (buf : list byte) (i : nat) (c : byte) :
  length (C.store_byte buf i c) = length buf.
Proof. apply length_insert. Qed.

(** Writing right behind what has been written so far. *)
Lemma strncpy_next (pre rest src : list byte) (off n : nat) :
  length pre = off →
  C.strncpy (pre ++ rest) off src n =
    pre ++ (take n (C.chars src)
              ++ replicate (n - length (take n (C.chars src))) x00)
        ++ drop n rest.
Proof.
  intros <-. unfold C.strncpy.
  by rewrite take_app_length, drop_app_add, <- !app_assoc.
Qed.

Lemma store_u32_next (pre rest : list byte) (off : nat) (v : Z) :
  length pre = off →
  C.store_u32 (pre ++ rest) off v = pre ++ C.le32 v ++ drop 4 rest.
Proof.
  intros <-. unfold C.store_u32.
  by rewrite take_app_length, drop_app_add.
Qed.

Lemma store_byte_next (pre rest : list byte) (i : nat) (c : byte) :
  length pre = i → 0 < length rest →
  C.store_byte (pre ++ rest) i c = pre ++ c :: drop 1 rest.
Proof.
  intros <- H. unfold C.store_byte.
  rewrite insert_take_drop by (rewrite length_app; lia).
  rewrite take_app_length.
  replace (S (length pre)) with (length pre + 1) by lia.
  by rewrite drop_app_add.
Qed.

Lemma length_cfield (n : nat) (s : string) : 0 < n → length (cfield n s) = n.
Proof.
  intros H. unfold cfield.
  rewrite length_app, length_replicate, length_take. lia.
Qed.

(** A field written by [strncpy] with one byte less than its size, with a
    NUL behind, is a [cfield]. *)
Lemma cfield_snoc (n : nat) (s : string) :
  0 < n →
  (take (n - 1) (C.c_str s)
     ++ replicate (n - 1 - length (take (n - 1) (C.c_str s))) x00) ++ [x00]
  = cfield n s.
Proof.
  intros H. unfold cfield.
  rewrite <- app_assoc, <- replicate_S_end. do 2 f_equal.
  pose proof (firstn_le_length (n - 1) (C.c_str s)). lia.
Qed.

(** The C string read from a [cfield] is the string that was copied. *)
Lemma chars_cfield (n : nat) (s : string) (rest : list byte) :
  0 < n → C.chars (cfield n s ++ rest) = take (n - 1) (C.c_str s).
Proof.
  intros H. unfold cfield.
  pose proof (firstn_le_length (n - 1) (C.c_str s)) as Hle.
  replace (n - length (take (n - 1) (C.c_str s)))
    with (S (n - 1 - length (take (n - 1) (C.c_str s)))) by lia.
  simpl replicate. rewrite <- !app_assoc. simpl.
  apply chars_app_nul, chars_take_no_nul.
Qed.

(** ** Frames *)

Lemma length_padded (n : nat) (l : list byte) :
  length (take n l ++ replicate (n - length (take n l)) x00) = n.
Proof.
  rewrite length_app, length_replicate.
  pose proof (firstn_le_length n l). lia.
Qed.

Lemma memset_all (buf : list byte) (c : byte) (n : nat) :
  length buf = n → C.memset buf c n = replicate n c.
Proof.
  intros H. unfold C.memset. rewrite drop_ge by lia. apply app_nil_r.
Qed.

Lemma chars_idem (l : list byte) : C.chars (C.chars l) = C.chars l.
Proof.
  induction l as [|b r IH]; simpl; [reflexivity|].
  destruct (Byte.eqb b x00) eqn:E; [reflexivity|].
  simpl. by rewrite E, IH.
Qed.

Lemma chars_c_str (s : string) : C.chars (C.c_str s) = C.c_str s.
Proof. apply chars_idem. Qed.

Lemma speedie_make_message_image (env : Env) (id ty pl : string) :
  Speedie.make_message env id ty pl = frame_image id ty pl (millis env).
Proof.
  unfold Speedie.make_message, frame_image.
  rewrite memset_all by apply length_uninitialized.
  unfold Speedie.sizeof_message, Speedie.off_sender_id, Speedie.off_message_type,
    Speedie.off_payload, Speedie.off_timestamp.
  rewrite <- !(cfield_snoc _ _) by lia.
  set (P1 := take (24 - 1) (C.c_str id) ++ _).
  set (P2 := take (12 - 1) (C.c_str ty) ++ _).
  set (P3 := take (128 - 1) (C.c_str pl) ++ _).
  assert (H1 : length P1 = 23) by apply length_padded.
  assert (H2 : length P2 = 11) by apply length_padded.
  assert (H3 : length P3 = 127) by apply length_padded.
  rewrite (strncpy_next [] (replicate 168 x00) _ 0 (24 - 1) eq_refl).
  rewrite !chars_c_str. fold P1. rewrite app_nil_l.
  change (drop (24 - 1) (replicate 168 x00)) with ([x00] ++ replicate 144 x00).
  rewrite (app_assoc P1 [x00]).
  rewrite (strncpy_next (P1 ++ [x00]) (replicate 144 x00) _ 24 (12 - 1))
    by (rewrite length_app, H1; reflexivity).
  rewrite !chars_c_str. fold P2.
  change (drop (12 - 1) (replicate 144 x00)) with ([x00] ++ replicate 132 x00).
  rewrite (app_assoc P2 [x00]), (app_assoc (P1 ++ [x00])).
  rewrite (strncpy_next ((P1 ++ [x00]) ++ P2 ++ [x00]) (replicate 132 x00) _ 36 (128 - 1))
    by (rewrite !length_app, H1, H2; reflexivity).
  rewrite !chars_c_str. fold P3.
  change (drop (128 - 1) (replicate 132 x00)) with ([x00] ++ replicate 4 x00).
  rewrite (app_assoc P3 [x00]), (app_assoc ((P1 ++ [x00]) ++ P2 ++ [x00])).
  rewrite (store_u32_next _ (replicate 4 x00) 164)
    by (rewrite !length_app, H1, H2, H3; reflexivity).
  change (drop 4 (replicate 4 x00)) with (@nil byte).
  rewrite app_nil_r, <- !app_assoc. reflexivity.
Qed.

Lemma strncpy_terminated (pre rest src : list byte) (off n : nat) :
  length pre = off → n < length rest →
  C.store_byte (C.strncpy (pre ++ rest) off src n) (off + n) x00 =
    (pre ++ (take n (C.chars src)
               ++ replicate (n - length (take n (C.chars src))) x00) ++ [x00])
      ++ drop (S n) rest.
Proof.
  intros Hpre Hn. rewrite (strncpy_next pre rest src off n Hpre).
  rewrite (app_assoc pre).
  rewrite store_byte_next.
  - rewrite drop_drop. rewrite <- !app_assoc. simpl.
    by replace (n + 1) with (S n) by lia.
  - rewrite length_app, length_padded. lia.
  - rewrite length_drop. lia.
Qed.

Lemma template_make_message_image (env : Env) (id ty pl : string) :
  Template.make_message env id ty pl = frame_image id ty pl (millis env).
Proof.
  unfold Template.make_message, frame_image.
  unfold Template.sizeof_message, Template.off_sender_id, Template.off_message_type,
    Template.off_payload, Template.off_timestamp.
  pose proof (length_uninitialized (stack env) 168) as Hg.
  set (g := C.uninitialized (stack env) 168) in *.
  rewrite (strncpy_terminated [] g _ 0 (24 - 1) eq_refl) by (rewrite Hg; simpl; lia).
  rewrite chars_c_str, cfield_snoc, app_nil_l by lia.
  rewrite (strncpy_terminated (cfield 24 id) _ _ 24 (12 - 1))
    by (rewrite ?length_cfield, ?length_drop, ?Hg; simpl; lia).
  rewrite chars_c_str, cfield_snoc by lia.
  rewrite (strncpy_terminated (cfield 24 id ++ cfield 12 ty) _ _ 36 (128 - 1))
    by (rewrite ?length_app, ?length_cfield, ?length_drop, ?Hg; simpl; lia).
  rewrite chars_c_str, cfield_snoc by lia.
  rewrite (store_u32_next _ _ 164)
    by (rewrite ?length_app, ?length_cfield; simpl; lia).
  rewrite (drop_ge (drop _ _)) by (rewrite !length_drop, Hg; simpl; lia).
  rewrite app_nil_r, <- !app_assoc. reflexivity.
Qed.

Lemma length_frame_image (id ty pl : string) (t : Z) :
  length (frame_image id ty pl t) = 168.
Proof.
  unfold frame_image.
  rewrite !length_app, !length_cfield, length_le32 by lia. reflexivity.
Qed.

Lemma drop_frame_image_24 (id ty pl : string) (t : Z) :
  drop 24 (frame_image id ty pl t) = cfield 12 ty ++ cfield 128 pl ++ C.le32 t.
Proof.
  unfold frame_image.
  rewrite drop_app_length'; [reflexivity|]. by rewrite length_cfield by lia.
Qed.

Lemma drop_frame_image_36 (id ty pl : string) (t : Z) :
  drop 36 (frame_image id ty pl t) = cfield 128 pl ++ C.le32 t.
Proof.
  unfold frame_image. rewrite app_assoc.
  rewrite drop_app_length'; [reflexivity|].
  by rewrite length_app, !length_cfield by lia.
Qed.

Lemma drop_frame_image_164 (id ty pl : string) (t : Z) :
  drop 164 (frame_image id ty pl t) = C.le32 t.
Proof.
  unfold frame_image. rewrite !app_assoc.
  rewrite drop_app_length'; [reflexivity|].
  by rewrite !length_app, !length_cfield by lia.
Qed.

(** What a receiver reads back from the three character arrays. *)
Lemma read_frame_image (id ty pl : string) (t : Z) :
  let m := frame_image id ty pl t in
  C.read_cstr m 0 = string_of_list_byte (take 23 (C.c_str id))
  ∧ C.read_cstr m 24 = string_of_list_byte (take 11 (C.c_str ty))
  ∧ C.read_cstr m 36 = string_of_list_byte (take 127 (C.c_str pl)).
Proof.
  simpl. unfold C.read_cstr.
  rewrite drop_frame_image_24, drop_frame_image_36, drop_0.
  unfold frame_image. by rewrite !chars_cfield by lia.
Qed.

Lemma lookup_cfield (n : nat) (s : string) (i : nat) :
  i < n →
  cfield n s !! i =
    if decide (i < length (take (n - 1) (C.c_str s)))
    then take (n - 1) (C.c_str s) !! i
    else Some x00.
Proof.
  intros Hi. unfold cfield. case_decide as Hc.
  - by rewrite lookup_app_l.
  - rewrite lookup_app_r by lia. apply lookup_replicate_2. lia.
Qed.

(** Outside the copied strings and the timestamp the frame is zero. *)
Lemma frame_image_zero (id ty pl : string) (t : Z) (i : nat) (c : byte) :
  frame_image id ty pl t !! i = Some c → ¬ covered id ty pl i → c = x00.
Proof.
  unfold covered, frame_image. intros Hc Hn.
  pose proof (firstn_le_length 23 (C.c_str id)).
  pose proof (firstn_le_length 11 (C.c_str ty)).
  pose proof (firstn_le_length 127 (C.c_str pl)).
  assert (Hi : i < 164) by lia.
  destruct (decide (i < 24)) as [H24|H24].
  { rewrite lookup_app_l in Hc by (rewrite length_cfield; lia).
    rewrite lookup_cfield in Hc by lia. simpl in Hc.
    case_decide; [lia|congruence]. }
  rewrite lookup_app_r in Hc by (rewrite length_cfield; lia).
  rewrite length_cfield in Hc by lia.
  destruct (decide (i < 36)) as [H36|H36].
  { rewrite lookup_app_l in Hc by (rewrite length_cfield; lia).
    rewrite lookup_cfield in Hc by lia. simpl in Hc.
    case_decide; [lia|congruence]. }
  rewrite lookup_app_r in Hc by (rewrite length_cfield; lia).
  rewrite length_cfield in Hc by lia.
  rewrite lookup_app_l in Hc by (rewrite length_cfield; lia).
  rewrite lookup_cfield in Hc by lia. simpl in Hc.
  case_decide; [lia|congruence].
Qed.

(** The last byte of each character array is a NUL. *)
Lemma frame_image_terminated (id ty pl : string) (t : Z) :
  let m := frame_image id ty pl t in
  m !! 23 = Some x00 ∧ m !! 35 = Some x00 ∧ m !! 163 = Some x00.
Proof.
  simpl.
  pose proof (firstn_le_length 23 (C.c_str id)).
  pose proof (firstn_le_length 11 (C.c_str ty)).
  pose proof (firstn_le_length 127 (C.c_str pl)).
  assert (Hz : ∀ i, i = 23 ∨ i = 35 ∨ i = 163 →
            frame_image id ty pl t !! i = Some x00).
  { intros i Hi.
    destruct (frame_image id ty pl t !! i) as [c|] eqn:E.
    - f_equal. apply (frame_image_zero _ _ _ _ _ _ E). unfold covered. lia.
    - apply lookup_ge_None in E. rewrite length_frame_image in E. lia. }
  repeat split; apply Hz; auto.
Qed.

Lemma wifi_client_make_message_length (env : Env) (id ty pl : string) :
  length (WifiClient.make_message env id ty pl) = 252.
Proof.
  unfold WifiClient.make_message, WifiClient.sizeof_message,
    WifiClient.off_timestamp, WifiClient.off_payload,
    WifiClient.off_message_type, WifiClient.off_sender_id.
  pose proof (length_uninitialized (stack env) 252) as Hg.
  set (g := C.uninitialized (stack env) 252) in *.
  assert (H1 : length (C.strncpy g 0 (C.c_str id) (32 - 1)) = 252)
    by (rewrite length_strncpy; simpl; lia).
  set (m1 := C.strncpy g 0 _ _) in *.
  assert (H2 : length (C.strncpy m1 32 (C.c_str ty) (16 - 1)) = 252)
    by (rewrite length_strncpy; simpl; lia).
  set (m2 := C.strncpy m1 32 _ _) in *.
  assert (H3 : length (C.strncpy m2 48 (C.c_str pl) (200 - 1)) = 252)
    by (rewrite length_strncpy; simpl; lia).
  set (m3 := C.strncpy m2 48 _ _) in *.
  rewrite length_store_u32; lia.
Qed.

(** ** Traces *)

Lemma extends_refl (b : Bot) : extends b b [].
Proof. unfold extends. by rewrite app_nil_r. Qed.

Lemma extends_emit (b b' : Bot) (new : list event) (e : event) :
  extends b b' new → extends b (emit e b') (new ++ [e]).
Proof. unfold extends. simpl. intros ->. by rewrite app_assoc. Qed.

Lemma extends_trans (b1 b2 b3 : Bot) (n1 n2 : list event) :
  extends b1 b2 n1 → extends b2 b3 n2 → extends b1 b3 (n1 ++ n2).
Proof. unfold extends. intros H1 ->. rewrite H1. by rewrite app_assoc. Qed.

(** Goals of the shape "there are new events with ...", for a function
    that only branches and emits: take every branch and read the events
    off the trace. *)
Ltac by_trace_cases :=
  repeat case_match; simplify_eq; simpl;
  (eexists; split; [rewrite <- ?app_assoc; reflexivity | by repeat split]).

Lemma sends_app (t1 t2 : list event) : sends (t1 ++ t2) = sends t1 ++ sends t2.
Proof. apply omap_app. Qed.

Lemma http_posts_app (t1 t2 : list event) :
  http_posts (t1 ++ t2) = http_posts t1 ++ http_posts t2.
Proof. apply omap_app. Qed.

Lemma updates_app (t1 t2 : list event) : updates (t1 ++ t2) = updates t1 ++ updates t2.
Proof. apply omap_app. Qed.

Lemma mdns_lookups_app (t1 t2 : list event) :
  mdns_lookups (t1 ++ t2) = mdns_lookups t1 ++ mdns_lookups t2.
Proof. apply omap_app. Qed.

(** ** What a send leaves in the trace *)

(** What speedie_bot's [addESPNowPeer] leaves behind: some log lines and
    requests to the driver, no frame. *)
Lemma speedie_add_peer_extends (env : Env) (mac : mac_addr) (b : Bot) :
  ∃ new, extends b (Speedie.addESPNowPeer env mac b) new
         ∧ sends new = []
         ∧ botID (Speedie.addESPNowPeer env mac b) = botID b.
Proof.
  unfold Speedie.addESPNowPeer, radio_add_peer, extends.
  by_trace_cases.
Qed.

(** The part of [sendESPNowMessage] that talks to the radio asks for one
    frame, the one [make_message] builds. *)
Lemma speedie_transmit_extends (env : Env) (mac : mac_addr) (ty pl : string) (b : Bot) :
  ∃ new, extends b (Speedie.transmit env mac ty pl b) new
         ∧ sends new = [(mac, Speedie.make_message env (botID b) ty pl)].
Proof.
  unfold Speedie.transmit, radio_send, Speedie.log_send_error, extends.
  by_trace_cases.
Qed.

Lemma speedie_send_extends (env : Env) (mac : mac_addr) (ty pl : string) (b : Bot) :
  ∃ new, extends b (Speedie.sendESPNowMessage env mac ty pl b) new
         ∧ (sends new = []
            ∨ sends new = [(mac, Speedie.make_message env (botID b) ty pl)]).
Proof.
  unfold Speedie.sendESPNowMessage.
  destruct (esp_now_is_peer_exist mac (radio b)) eqn:E; simpl.
  - destruct (speedie_transmit_extends env mac ty pl b) as (new & H1 & H2).
    exists new. auto.
  - set (b0 := emit _ b).
    destruct (speedie_add_peer_extends env mac b0) as (n1 & H1 & H2 & H3).
    set (b1 := Speedie.addESPNowPeer env mac b0) in *.
    assert (H0 : extends b b1 ([Serial "ESP-NOW peer %s not found, attempting to add..."
                                   [AStr (macStr mac)]] ++ n1)).
    { apply (extends_trans b b0 b1); [|exact H1]. apply (extends_emit b b []), extends_refl. }
    change (radio (emit (Delay 10) b1)) with (radio b1).
    destruct (esp_now_is_peer_exist mac (radio b1)) eqn:E'; simpl.
    + destruct (speedie_transmit_extends env mac ty pl (emit (Delay 10) b1))
        as (n2 & H4 & H5).
      eexists. split.
      * eapply extends_trans; [|exact H4]. apply extends_emit, H0.
      * right. rewrite !sends_app, H2, H5. simpl. by rewrite H3.
    + eexists. split.
      * apply extends_emit, extends_emit, H0.
      * left. rewrite !sends_app, H2. reflexivity.
Qed.

(** C9: for every sender id, message type and payload (and whatever the
    stack held), the frame speedie_bot's [sendESPNowMessage] hands to the
    radio is fully initialised.  It has the size of the struct; each
    character array holds its string cut to the array size less one and is
    zero from there to its end, so each ends in a NUL and reads back as the
    cut string; the last four bytes are the timestamp; and every byte that
    belongs neither to a copied string nor to the timestamp is zero. *)
Theorem speedie_frame_fully_initialized
    (env : Env) (mac : mac_addr) (messageType payload : string) (b : Bot) :
  let m := Speedie.make_message env (botID b) messageType payload in
  (∃ new, extends b (Speedie.sendESPNowMessage env mac messageType payload b) new
          ∧ ∀ dest data, (dest, data) ∈ sends new → data = m)
  ∧ length m = Speedie.sizeof_message
  ∧ C.field m Speedie.off_sender_id 24 = cfield 24 (botID b)
  ∧ C.field m Speedie.off_message_type 12 = cfield 12 messageType
  ∧ C.field m Speedie.off_payload 128 = cfield 128 payload
  ∧ C.field m Speedie.off_timestamp 4 = C.le32 (millis env)
  ∧ (m !! 23 = Some x00 ∧ m !! 35 = Some x00 ∧ m !! 163 = Some x00)
  ∧ (C.read_cstr m Speedie.off_sender_id
       = string_of_list_byte (take 23 (C.c_str (botID b)))
     ∧ C.read_cstr m Speedie.off_message_type
       = string_of_list_byte (take 11 (C.c_str messageType))
     ∧ C.read_cstr m Speedie.off_payload
       = string_of_list_byte (take 127 (C.c_str payload)))
  ∧ (∀ i c, m !! i = Some c → ¬ covered (botID b) messageType payload i → c = x00).
Proof.
  intros m. subst m. rewrite speedie_make_message_image.
  split; [|split; [|split; [|split; [|split; [|split; [|split; [|split]]]]]]].
  - destruct (speedie_send_extends env mac messageType payload b) as (new & H1 & H2).
    exists new. split; [exact H1|]. intros dest data Hin.
    rewrite speedie_make_message_image in H2.
    destruct H2 as [H2|H2]; rewrite H2 in Hin.
    + by apply elem_of_nil in Hin.
    + apply list_elem_of_singleton in Hin. congruence.
  - apply length_frame_image.
  - unfold C.field, frame_image. rewrite drop_0.
    by rewrite take_app_length' by (by rewrite length_cfield by lia).
  - unfold C.field. rewrite drop_frame_image_24.
    by rewrite take_app_length' by (by rewrite length_cfield by lia).
  - unfold C.field. rewrite drop_frame_image_36.
    by rewrite take_app_length' by (by rewrite length_cfield by lia).
  - unfold C.field. rewrite drop_frame_image_164. reflexivity.
  - apply frame_image_terminated.
  - apply read_frame_image.
  - apply frame_image_zero.
Qed.

(** The template builds the same frame as speedie_bot, whatever its
    uninitialised local held. *)
Lemma template_frame_is_speedie_frame (env : Env) (id ty pl : string) :
  Template.make_message env id ty pl = Speedie.make_message env id ty pl.
Proof. by rewrite template_make_message_image, speedie_make_message_image. Qed.

(** In the template and in speedie_bot the frame fits the link: 168 bytes,
    and a payload of more than 127 bytes is cut to 127. *)
Lemma template_frame_within_mtu (env : Env) (id ty pl : string) :
  length (Template.make_message env id ty pl) ≤ ESP_NOW_MAX_DATA_LEN
  ∧ C.read_cstr (Template.make_message env id ty pl) Template.off_payload
    = string_of_list_byte (take 127 (C.c_str pl)).
Proof.
  rewrite template_make_message_image, length_frame_image.
  split; [unfold ESP_NOW_MAX_DATA_LEN; lia|]. apply read_frame_image.
Qed.

(** In bot_wifi_client a payload of 150 characters is kept whole: the cut
    is at 199. *)
Example wifi_client_keeps_150_characters :
  let frame := WifiClient.make_message (Scenario.env Scenario.newer)
                 "ESP32_Bot" "status" Scenario.long_payload in
  String.length Scenario.long_payload = 150
  ∧ C.read_cstr frame WifiClient.off_payload = Scenario.long_payload.
Proof. split; reflexivity. Qed.

(** C1, on bot_wifi_client: whatever the payload, the frame
    [sendESPNowMessage] hands to the radio has the 252 bytes of the
    struct with its 32, 16 and 200 byte arrays, two more than a frame may
    have, and the send is refused as an invalid argument once the driver
    is initialised. *)
Theorem wifi_client_frame_exceeds_mtu
    (env : Env) (mac : mac_addr) (messageType payload : string) (b : Bot) :
  ∃ frame r,
    trace (WifiClient.sendESPNowMessage env mac messageType payload b)
      = trace b ++ [RadioSend mac frame r; Serial "Error sending ESP-NOW message" []]
    ∧ frame = WifiClient.make_message env (botID b) messageType payload
    ∧ length frame = 252
    ∧ ESP_NOW_MAX_DATA_LEN < length frame
    ∧ r ≠ ESP_OK
    ∧ (initialized (radio b) = true → r = ESP_ERR_ESPNOW_ARG).
Proof.
  unfold WifiClient.sendESPNowMessage, radio_send.
  pose proof (wifi_client_make_message_length env (botID b) messageType payload) as Hl.
  set (frame := WifiClient.make_message env (botID b) messageType payload) in *.
  assert (Hr : esp_now_send mac (length frame) (radio b) ≠ ESP_OK
               ∧ (initialized (radio b) = true →
                  esp_now_send mac (length frame) (radio b) = ESP_ERR_ESPNOW_ARG)).
  { unfold esp_now_send. rewrite Hl.
    destruct (initialized (radio b)); simpl; split; congruence. }
  destruct Hr as [Hr1 Hr2].
  exists frame, (esp_now_send mac (length frame) (radio b)).
  destruct (esp_now_send mac (length frame) (radio b)) eqn:E; [congruence|..];
    simpl; rewrite <- app_assoc; repeat split; auto;
    rewrite Hl; unfold ESP_NOW_MAX_DATA_LEN; lia.
Qed.

(** ** The driver's peer list *)

Lemma not_exist_no_entries (mac : mac_addr) (d : driver) :
  esp_now_is_peer_exist mac d = false → entries mac d = 0.
Proof.
  unfold esp_now_is_peer_exist, entries.
  induction (peer_list d) as [|p l IH]; simpl; [reflexivity|].
  destruct (has_addr mac p); simpl; [discriminate|exact IH].
Qed.

Lemma add_peer_known (info : esp_now_peer_info_t) (d : driver) :
  esp_now_is_peer_exist (peer_addr info) d = true →
  snd (esp_now_add_peer info d) = d ∧ is_ok (fst (esp_now_add_peer info d)) = false.
Proof.
  intros H. unfold esp_now_add_peer. rewrite H.
  repeat case_match; simpl; auto.
Qed.

(** A rejected peer leaves the list as it was; an accepted one is its new
    last entry. *)
Lemma add_peer_cases (info : esp_now_peer_info_t) (d : driver) :
  (is_ok (fst (esp_now_add_peer info d)) = false ∧ snd (esp_now_add_peer info d) = d)
  ∨ (fst (esp_now_add_peer info d) = ESP_OK
     ∧ esp_now_is_peer_exist (peer_addr info) d = false
     ∧ peer_list (snd (esp_now_add_peer info d)) = peer_list d ++ [info]
     ∧ initialized (snd (esp_now_add_peer info d)) = initialized d).
Proof.
  unfold esp_now_add_peer.
  repeat case_match; simpl; auto.
Qed.

Lemma exist_app (mac : mac_addr) (d : driver) (l : list esp_now_peer_info_t) (d' : driver) :
  peer_list d' = peer_list d ++ l →
  esp_now_is_peer_exist mac d' =
    esp_now_is_peer_exist mac d || existsb (has_addr mac) l.
Proof. unfold esp_now_is_peer_exist. intros ->. apply existsb_app. Qed.

Lemma add_peer_registers (info : esp_now_peer_info_t) (d : driver) :
  fst (esp_now_add_peer info d) = ESP_OK →
  esp_now_is_peer_exist (peer_addr info) (snd (esp_now_add_peer info d)) = true.
Proof.
  intros H. destruct (add_peer_cases info d) as [[Hf _]|(_ & _ & Hl & _)].
  - rewrite H in Hf. discriminate.
  - rewrite (exist_app _ d [info]) by exact Hl. simpl.
    unfold has_addr. rewrite bool_decide_eq_true_2 by reflexivity.
    by rewrite orb_true_r.
Qed.

Lemma add_peer_entries (mac : mac_addr) (info : esp_now_peer_info_t) (d : driver) :
  entries mac d ≤ 1 → entries mac (snd (esp_now_add_peer info d)) ≤ 1.
Proof.
  intros H. destruct (add_peer_cases info d) as [[_ ->]|(_ & Hn & Hl & _)]; [exact H|].
  unfold entries in *. rewrite Hl, List.filter_app, length_app. simpl.
  destruct (has_addr mac info) eqn:Heq; simpl; [|lia].
  apply bool_decide_eq_true_1 in Heq.
  rewrite <- Heq. apply not_exist_no_entries in Hn. unfold entries in Hn. lia.
Qed.

(** ** Registration *)

(** The driver state after speedie_bot's [addESPNowPeer]. *)
Lemma speedie_add_peer_radio (env : Env) (mac : mac_addr) (b : Bot) :
  let info1 := {| peer_addr := mac; channel := wifi_channel env; encrypt := false |} in
  let info0 := {| peer_addr := mac; channel := 0; encrypt := false |} in
  radio (Speedie.addESPNowPeer env mac b) =
    if esp_now_is_peer_exist mac (radio b) then radio b
    else if is_ok (fst (esp_now_add_peer info1 (radio b)))
    then snd (esp_now_add_peer info1 (radio b))
    else snd (esp_now_add_peer info0 (radio b)).
Proof.
  simpl. unfold Speedie.addESPNowPeer, radio_add_peer.
  destruct (esp_now_is_peer_exist mac (radio b)); [reflexivity|].
  destruct (add_peer_cases {| peer_addr := mac; channel := wifi_channel env;
                              encrypt := false |} (radio b)) as [[Hf Hd]|(Hok & _)].
  - destruct (esp_now_add_peer _ (radio b)) as [r d] eqn:E1. simpl in *.
    rewrite Hf. subst d. simpl.
    destruct (esp_now_add_peer {| peer_addr := mac; channel := 0; encrypt := false |}
                (radio b)) as [r0 d0] eqn:E0. simpl.
    by destruct (is_ok r0).
  - destruct (esp_now_add_peer _ (radio b)) as [r d] eqn:E1. simpl in *.
    subst r. reflexivity.
Qed.

Lemma template_add_peer_radio (mac : mac_addr) (b : Bot) :
  radio (Template.addESPNowPeer mac b) =
    snd (esp_now_add_peer {| peer_addr := mac; channel := 0; encrypt := false |}
           (radio b)).
Proof.
  unfold Template.addESPNowPeer, radio_add_peer.
  destruct (esp_now_add_peer _ (radio b)) as [r d]. simpl.
  by destruct (is_ok r).
Qed.

(** Registering a known address changes nothing in the driver. *)
Lemma speedie_add_known (env : Env) (mac : mac_addr) (b : Bot) :
  esp_now_is_peer_exist mac (radio b) = true →
  Speedie.addESPNowPeer env mac b = emit (Serial "ESP-NOW peer already exists" []) b.
Proof. intros H. unfold Speedie.addESPNowPeer. by rewrite H. Qed.

Lemma template_add_known (mac : mac_addr) (b : Bot) :
  esp_now_is_peer_exist mac (radio b) = true →
  radio (Template.addESPNowPeer mac b) = radio b.
Proof.
  intros H. rewrite template_add_peer_radio.
  by apply (add_peer_known {| peer_addr := mac; channel := 0; encrypt := false |}).
Qed.

(** What the template logs for a known address: the driver's refusal. *)
Lemma template_add_known_trace (mac : mac_addr) (b : Bot) :
  initialized (radio b) = true →
  esp_now_is_peer_exist mac (radio b) = true →
  trace (Template.addESPNowPeer mac b)
  = trace b
      ++ [RadioAddPeer {| peer_addr := mac; channel := 0; encrypt := false |}
            ESP_ERR_ESPNOW_EXIST;
          Serial "Failed to add ESP-NOW peer: %02X:%02X:%02X:%02X:%02X:%02X"
            [AMac mac]].
Proof.
  intros Hi Hk. unfold Template.addESPNowPeer, radio_add_peer, esp_now_add_peer.
  rewrite Hi. simpl. rewrite Hk. simpl. by rewrite <- app_assoc.
Qed.

(** After a registration the address is known, or the driver is as it was. *)
Lemma speedie_add_known_or_same (env : Env) (mac : mac_addr) (b : Bot) :
  esp_now_is_peer_exist mac (radio (Speedie.addESPNowPeer env mac b)) = true
  ∨ radio (Speedie.addESPNowPeer env mac b) = radio b.
Proof.
  rewrite speedie_add_peer_radio. simpl.
  destruct (esp_now_is_peer_exist mac (radio b)) eqn:E; [by right|].
  set (info1 := {| peer_addr := mac; channel := wifi_channel env; encrypt := false |}).
  set (info0 := {| peer_addr := mac; channel := 0%Z; encrypt := false |}).
  destruct (is_ok (fst (esp_now_add_peer info1 (radio b)))) eqn:E1.
  - left. apply (add_peer_registers info1).
    by destruct (fst (esp_now_add_peer info1 (radio b))).
  - destruct (add_peer_cases info0 (radio b)) as [[_ Hd]|(Hok & _)]; [by right|].
    left. by apply (add_peer_registers info0).
Qed.

Lemma template_add_known_or_same (mac : mac_addr) (b : Bot) :
  esp_now_is_peer_exist mac (radio (Template.addESPNowPeer mac b)) = true
  ∨ radio (Template.addESPNowPeer mac b) = radio b.
Proof.
  rewrite template_add_peer_radio.
  set (info0 := {| peer_addr := mac; channel := 0%Z; encrypt := false |}).
  destruct (add_peer_cases info0 (radio b)) as [[_ Hd]|(Hok & _)]; [by right|].
  left. by apply (add_peer_registers info0).
Qed.

Lemma speedie_add_entries (env : Env) (mac m : mac_addr) (b : Bot) :
  entries m (radio b) ≤ 1 → entries m (radio (Speedie.addESPNowPeer env mac b)) ≤ 1.
Proof.
  intros H. rewrite speedie_add_peer_radio. simpl.
  repeat case_match; auto using add_peer_entries.
Qed.

Lemma template_add_entries (mac m : mac_addr) (b : Bot) :
  entries m (radio b) ≤ 1 → entries m (radio (Template.addESPNowPeer mac b)) ≤ 1.
Proof. intros H. rewrite template_add_peer_radio. by apply add_peer_entries. Qed.

(** The registry after a registration depends on the registry before
    only. *)
Lemma speedie_add_radio_ext (env : Env) (mac : mac_addr) (b1 b2 : Bot) :
  radio b1 = radio b2 →
  radio (Speedie.addESPNowPeer env mac b1) = radio (Speedie.addESPNowPeer env mac b2).
Proof. intros H. rewrite !speedie_add_peer_radio. simpl. by rewrite H. Qed.

Lemma template_add_radio_ext (mac : mac_addr) (b1 b2 : Bot) :
  radio b1 = radio b2 →
  radio (Template.addESPNowPeer mac b1) = radio (Template.addESPNowPeer mac b2).
Proof. intros H. rewrite !template_add_peer_radio. by rewrite H. Qed.

(** The claim of C3 fails on the template: registering an address the
    driver knows is handed to the driver all the same, and its refusal of
    the duplicate is logged as a failed add. *)
Lemma template_reregistration_logs_failure :
  let b := Scenario.bot "Temperature_Sensor" "" 0
             (Scenario.radio_with [Scenario.wheelie]) in
  esp_now_is_peer_exist Scenario.wheelie (radio b) = true
  ∧ trace (Template.addESPNowPeer Scenario.wheelie b)
    = [RadioAddPeer (Scenario.peer Scenario.wheelie) ESP_ERR_ESPNOW_EXIST;
       Serial "Failed to add ESP-NOW peer: %02X:%02X:%02X:%02X:%02X:%02X"
         [AMac Scenario.wheelie]].
Proof. split; reflexivity. Qed.

(** C3, amended: peer registration is idempotent on the registry, in
    speedie_bot and in the template.  Registering an address the driver
    already knows leaves the registry as it is, with the address
    registered; speedie_bot sees the known address itself and only logs
    that the peer exists, the template leaves it to the driver to refuse
    the duplicate and logs that as a failed add.  Registering the same
    address a second time changes nothing, and a registry with at most one
    entry for an address never gets a second one. *)
Theorem peer_registration_idempotent (env : Env) (mac : mac_addr) (b : Bot) :
  let s1 := Speedie.addESPNowPeer env mac b in
  let s2 := Speedie.addESPNowPeer env mac s1 in
  let t1 := Template.addESPNowPeer mac b in
  let t2 := Template.addESPNowPeer mac t1 in
  (esp_now_is_peer_exist mac (radio b) = true →
     (s1 = emit (Serial "ESP-NOW peer already exists" []) b
      ∧ radio s1 = radio b ∧ esp_now_is_peer_exist mac (radio s1) = true)
     ∧ (radio t1 = radio b ∧ esp_now_is_peer_exist mac (radio t1) = true
        ∧ (initialized (radio b) = true →
           trace t1
           = trace b
               ++ [RadioAddPeer {| peer_addr := mac; channel := 0; encrypt := false |}
                     ESP_ERR_ESPNOW_EXIST;
                   Serial "Failed to add ESP-NOW peer: %02X:%02X:%02X:%02X:%02X:%02X"
                     [AMac mac]])))
  ∧ (radio s2 = radio s1 ∧ radio t2 = radio t1)
  ∧ (entries mac (radio b) ≤ 1 →
     entries mac (radio s2) ≤ 1 ∧ entries mac (radio t2) ≤ 1).
Proof.
  simpl. split; [|split].
  - intros H.
    rewrite (speedie_add_known env mac b H), (template_add_known mac b H).
    simpl. repeat split; auto.
    intros Hi. by apply template_add_known_trace.
  - split.
    + destruct (speedie_add_known_or_same env mac b) as [H|H].
      * by rewrite (speedie_add_known env mac _ H).
      * exact (speedie_add_radio_ext env mac _ b H).
    + destruct (template_add_known_or_same mac b) as [H|H].
      * by apply template_add_known.
      * exact (template_add_radio_ext mac _ b H).
  - intros H. split.
    + by do 2 apply speedie_add_entries.
    + by do 2 apply template_add_entries.
Qed.

(** Registering a fresh address with a driver that has room gives exactly
    one entry, also when it is registered twice. *)
Example register_twice_one_entry :
  let b := Scenario.bot "Speedie_Bot(2)" "" 0 (Scenario.radio_with []) in
  let env := Scenario.env Scenario.newer in
  entries Scenario.wheelie
    (radio (Speedie.addESPNowPeer env Scenario.wheelie
              (Speedie.addESPNowPeer env Scenario.wheelie b))) = 1
  ∧ entries Scenario.wheelie
      (radio (Template.addESPNowPeer Scenario.wheelie
                (Template.addESPNowPeer Scenario.wheelie b))) = 1.
Proof. split; reflexivity. Qed.

Lemma peer_registration_idempotent_witness :
  let b := Scenario.bot "Speedie_Bot(2)" "" 0
             (Scenario.radio_with [Scenario.wheelie]) in
  let env := Scenario.env Scenario.newer in
  (esp_now_is_peer_exist Scenario.wheelie (radio b) = true
   ∧ entries Scenario.wheelie (radio b) ≤ 1)
  ∧ Speedie.addESPNowPeer env Scenario.wheelie b
    = emit (Serial "ESP-NOW peer already exists" []) b
  ∧ radio (Template.addESPNowPeer Scenario.wheelie b) = radio b
  ∧ entries Scenario.wheelie
      (radio (Template.addESPNowPeer Scenario.wheelie
                (Template.addESPNowPeer Scenario.wheelie b))) ≤ 1.
Proof.
  intros b env. split; [split; [reflexivity|exact (le_n 1)]|].
  destruct (peer_registration_idempotent env Scenario.wheelie b) as (Hk & _ & He).
  destruct (Hk eq_refl) as ((Hs & _ & _) & (Ht & _ & _)).
  destruct (He (le_n 1)) as [_ Het].
  split; [exact Hs|]. split; [exact Ht|exact Het].
Defined.

(** In speedie_bot a registration fails, that is, leaves the address
    unknown, exactly when the driver rejects the peer twice: on the current
    WiFi channel and on channel 0. *)
Lemma speedie_add_fails_iff (env : Env) (mac : mac_addr) (b : Bot) :
  esp_now_is_peer_exist mac (radio b) = false →
  esp_now_is_peer_exist mac (radio (Speedie.addESPNowPeer env mac b)) = false
  ↔ is_ok (fst (esp_now_add_peer
                  {| peer_addr := mac; channel := wifi_channel env; encrypt := false |}
                  (radio b))) = false
    ∧ is_ok (fst (esp_now_add_peer
                    {| peer_addr := mac; channel := 0; encrypt := false |}
                    (radio b))) = false.
Proof.
  intros Hn. rewrite speedie_add_peer_radio. simpl. rewrite Hn.
  set (info1 := {| peer_addr := mac; channel := wifi_channel env; encrypt := false |}).
  set (info0 := {| peer_addr := mac; channel := 0%Z; encrypt := false |}).
  destruct (is_ok (fst (esp_now_add_peer info1 (radio b)))) eqn:E1.
  - split; [|intros [? _]; discriminate].
    intros H. rewrite (add_peer_registers info1) in H; [discriminate|].
    by destruct (fst (esp_now_add_peer info1 (radio b))).
  - destruct (is_ok (fst (esp_now_add_peer info0 (radio b)))) eqn:E0.
    + split; [|intros [_ ?]; discriminate].
      intros H. rewrite (add_peer_registers info0) in H; [discriminate|].
      by destruct (fst (esp_now_add_peer info0 (radio b))).
    + split; [auto|intros _].
      destruct (add_peer_cases info0 (radio b)) as [[_ ->]|(Hok & _)]; [exact Hn|].
      rewrite Hok in E0. discriminate.
Qed.

(** The first thing speedie_bot's [addESPNowPeer] does for an unknown
    address is to ask the driver to add it. *)
Lemma speedie_add_asks_driver (env : Env) (mac : mac_addr) (b : Bot) :
  esp_now_is_peer_exist mac (radio b) = false →
  ∃ info r rest,
    trace (Speedie.addESPNowPeer env mac b) = trace b ++ RadioAddPeer info r :: rest
    ∧ peer_addr info = mac.
Proof.
  intros Hn. unfold Speedie.addESPNowPeer, radio_add_peer. rewrite Hn.
  repeat case_match; simplify_eq; simpl;
    (do 3 eexists; split; [rewrite <- ?app_assoc; simpl; reflexivity | reflexivity]).
Qed.

(** C6: a send to an address that is not in the peer registry first runs
    the registration of that address, which asks the driver to add it; when
    the registration fails, so that the address is still unknown, the send
    logs that the peer could not be added and returns with no frame handed
    to the radio. *)
Theorem speedie_send_registers_first
    (env : Env) (mac : mac_addr) (messageType payload : string) (b : Bot) :
  esp_now_is_peer_exist mac (radio b) = false →
  let b0 := emit (Serial "ESP-NOW peer %s not found, attempting to add..."
                    [AStr (macStr mac)]) b in
  let b1 := Speedie.addESPNowPeer env mac b0 in
  let b' := Speedie.sendESPNowMessage env mac messageType payload b in
  (∃ rest, trace b' = trace b1 ++ rest)
  ∧ (∃ info r rest,
       trace b1 = trace b0 ++ RadioAddPeer info r :: rest ∧ peer_addr info = mac)
  ∧ (esp_now_is_peer_exist mac (radio b1) = false →
     b' = emit (Serial "Failed to add ESP-NOW peer %s, cannot send message"
                  [AStr (macStr mac)]) (emit (Delay 10) b1)
     ∧ sends (trace b') = sends (trace b)
     ∧ radio b' = radio b).
Proof.
  intros Hn b0 b1 b'. split; [|split].
  - subst b'. unfold Speedie.sendESPNowMessage. rewrite Hn. simpl. fold b0 b1.
    destruct (esp_now_is_peer_exist mac (radio b1)); simpl.
    + destruct (speedie_transmit_extends env mac messageType payload
                  (emit (Delay 10) b1)) as (new & H & _).
      unfold extends in H. simpl in H. rewrite H, <- app_assoc. eauto.
    + rewrite <- app_assoc. eauto.
  - by apply speedie_add_asks_driver.
  - intros Hf. subst b'. unfold Speedie.sendESPNowMessage. rewrite Hn. simpl.
    fold b0 b1. rewrite Hf. simpl. split; [reflexivity|].
    destruct (speedie_add_peer_extends env mac b0) as (new & H1 & H2 & _).
    fold b1 in H1. unfold extends in H1. simpl in H1.
    split.
    + rewrite H1, !sends_app, H2. simpl. by rewrite !app_nil_r.
    + destruct (speedie_add_known_or_same env mac b0) as [H|H]; fold b1 in H.
      * rewrite Hf in H. discriminate.
      * exact H.
Qed.

Lemma speedie_send_registers_first_witness :
  let b := Scenario.bot "Speedie_Bot(2)" "192.168.1.130" 8081 Scenario.radio_off in
  let env := Scenario.env Scenario.newer in
  esp_now_is_peer_exist Scenario.wheelie (radio b) = false
  ∧ sends (trace (Speedie.sendESPNowMessage env Scenario.wheelie "heartbeat"
                    "Speedie_Bot(2)" b)) = [].
Proof.
  simpl. split; [reflexivity|].
  destruct (speedie_send_registers_first (Scenario.env Scenario.newer)
              Scenario.wheelie "heartbeat" "Speedie_Bot(2)"
              (Scenario.bot "Speedie_Bot(2)" "192.168.1.130" 8081 Scenario.radio_off)
              eq_refl) as (_ & _ & H).
  destruct (H eq_refl) as (_ & Hs & _). exact Hs.
Defined.

(** ** Server discovery *)

Lemma equals_empty (s : string) : Arduino.equals s "" = true ↔ s = "".
Proof. unfold Arduino.equals. apply String.eqb_eq. Qed.

(** [discoverMCPServer] fails, in speedie_bot and in bot_wifi_client, when
    the mDNS responder cannot be set up or when nothing answers and no
    fallback is configured, and only then. *)
Lemma discovery_fails_iff (cfg : Config) (env : Env) (b : Bot) :
  let failing := mdns_begin env = false
                 ∨ (mdns_services env = [] ∧ C.strlen (MCP_SERVER_IP_FALLBACK cfg) = 0) in
  (fst (Speedie.discoverMCPServer cfg env b) = false ↔ failing)
  ∧ (fst (WifiClient.discoverMCPServer cfg env b) = false ↔ failing).
Proof.
  simpl. unfold Speedie.discoverMCPServer, WifiClient.discoverMCPServer.
  destruct (mdns_begin env); simpl; [|by intuition].
  destruct (mdns_services env) as [|[ip port] l]; simpl.
  - destruct (C.strlen (MCP_SERVER_IP_FALLBACK cfg)); simpl; intuition congruence.
  - intuition congruence.
Qed.

(** C10: discovery is atomic with respect to the endpoint.  Whenever
    [discoverMCPServer] fails, because the mDNS responder cannot be set up
    or because nothing answers and no fallback host is configured, it
    returns false and the server IP and port are what they were, in
    bot_wifi_client and in speedie_bot. *)
Theorem discovery_failure_keeps_endpoint (cfg : Config) (env : Env) (b : Bot) :
  mdns_begin env = false
  ∨ (mdns_services env = [] ∧ C.strlen (MCP_SERVER_IP_FALLBACK cfg) = 0) →
  let w := WifiClient.discoverMCPServer cfg env b in
  let s := Speedie.discoverMCPServer cfg env b in
  (fst w = false
   ∧ mcpServerIP (snd w) = mcpServerIP b ∧ mcpServerPort (snd w) = mcpServerPort b)
  ∧ (fst s = false
     ∧ mcpServerIP (snd s) = mcpServerIP b ∧ mcpServerPort (snd s) = mcpServerPort b).
Proof.
  intros H. simpl. unfold Speedie.discoverMCPServer, WifiClient.discoverMCPServer.
  destruct H as [H|[H1 H2]].
  - rewrite H. simpl. auto.
  - rewrite H1, H2. destruct (mdns_begin env); simpl; auto.
Qed.

Lemma discovery_failure_keeps_endpoint_witness :
  let cfg := {| MCP_SERVER_IP_FALLBACK := ""; MCP_API_KEY := "";
                FIRMWARE_VERSION := float_1_0 |} in
  let env := Scenario.env Scenario.newer in
  let b := Scenario.bot "Speedie_Bot(2)" "10.0.0.7" 8081 (Scenario.radio_with []) in
  (mdns_services env = [] ∧ C.strlen (MCP_SERVER_IP_FALLBACK cfg) = 0)
  ∧ mcpServerIP (snd (Speedie.discoverMCPServer cfg env b)) = "10.0.0.7"
  ∧ mcpServerPort (snd (WifiClient.discoverMCPServer cfg env b)) = 8081%Z.
Proof.
  simpl. split; [split; reflexivity|].
  destruct (discovery_failure_keeps_endpoint
              {| MCP_SERVER_IP_FALLBACK := ""; MCP_API_KEY := "";
                 FIRMWARE_VERSION := float_1_0 |}
              (Scenario.env Scenario.newer)
              (Scenario.bot "Speedie_Bot(2)" "10.0.0.7" 8081 (Scenario.radio_with []))
              (or_intror (conj eq_refl eq_refl)))
    as [(_ & _ & Hw) (_ & Hs & _)].
  split; [exact Hs | exact Hw].
Defined.

(** The claim of C4 fails on bot_wifi_client in its concrete scenario: with
    the fallback 192.168.1.130 of its [config.h] and no mDNS answer the
    endpoint gets port 8080, not 8081. *)
Lemma wifi_client_fallback_port_8080 :
  let b := Scenario.bot "ESP32_Bot" "" 0 (Scenario.radio_with []) in
  let r := WifiClient.discoverMCPServer WifiClient.config
             (Scenario.env Scenario.newer) b in
  MCP_SERVER_IP_FALLBACK WifiClient.config = "192.168.1.130"
  ∧ fst r = true
  ∧ mcpServerIP (snd r) = "192.168.1.130"
  ∧ mcpServerPort (snd r) = 8080%Z
  ∧ mcpServerPort (snd r) ≠ 8081%Z.
Proof. simpl. repeat split. discriminate. Qed.

(** C4, amended: when the mDNS query returns no result and a fallback host
    is configured, [discoverMCPServer] returns true with the endpoint set to
    the fallback host and the default port of the sketch, 8081 in
    speedie_bot and 8080 in bot_wifi_client, and logs that the fallback is
    used; when neither the resolution nor a configured fallback succeeds
    (the responder cannot be set up, or nothing answers and no fallback
    host is configured) it returns false and an endpoint that was unset
    stays unset. *)
Theorem locate_falls_back (cfg : Config) (env : Env) (b : Bot) :
  let host := C.String_ (MCP_SERVER_IP_FALLBACK cfg) in
  let attempt := [Serial "Discovering MCP server via mDNS..." [];
                  MdnsBegin (botID b);
                  MdnsQueryService "mcp-server" "tcp";
                  Serial "mDNS: No MCP server found via discovery." []] in
  let s := Speedie.discoverMCPServer cfg env b in
  let w := WifiClient.discoverMCPServer cfg env b in
  (mdns_begin env = true → mdns_services env = [] →
   0 < C.strlen (MCP_SERVER_IP_FALLBACK cfg) →
   (fst s = true ∧ mcpServerIP (snd s) = host ∧ mcpServerPort (snd s) = 8081%Z
    ∧ trace (snd s) = trace b ++ attempt
                        ++ [Serial "mDNS: Using fallback IP: %s" [AStr host]])
   ∧ (fst w = true ∧ mcpServerIP (snd w) = host ∧ mcpServerPort (snd w) = 8080%Z
      ∧ trace (snd w) = trace b ++ attempt
                          ++ [Serial "mDNS: Using fallback IP: %s" [AStr host]]))
  ∧ (mdns_begin env = false
     ∨ (mdns_services env = [] ∧ C.strlen (MCP_SERVER_IP_FALLBACK cfg) = 0) →
     mcpServerIP b = "" →
     (fst s = false ∧ mcpServerIP (snd s) = "")
     ∧ (fst w = false ∧ mcpServerIP (snd w) = "")).
Proof.
  simpl. split.
  - intros Hb Hs Hf.
    unfold Speedie.discoverMCPServer, WifiClient.discoverMCPServer.
    rewrite Hb, Hs. simpl.
    apply Nat.ltb_lt in Hf. rewrite Hf. simpl.
    rewrite <- !app_assoc. simpl. auto 10.
  - intros Hfail Hu.
    unfold Speedie.discoverMCPServer, WifiClient.discoverMCPServer.
    destruct Hfail as [Hb|[Hs Hf]].
    + rewrite Hb. simpl. auto.
    + rewrite Hs, Hf. destruct (mdns_begin env); simpl; auto.
Qed.

(** The scenario of the specification, on speedie_bot. *)
Lemma locate_falls_back_witness :
  let env := Scenario.env Scenario.newer in
  let b := Scenario.bot "Speedie_Bot(2)" "" 0 (Scenario.radio_with []) in
  let s := Speedie.discoverMCPServer Speedie.config env b in
  (mdns_begin env = true ∧ mdns_services env = []
   ∧ 0 < C.strlen (MCP_SERVER_IP_FALLBACK Speedie.config))
  ∧ mcpServerIP (snd s) = "192.168.1.130" ∧ mcpServerPort (snd s) = 8081%Z.
Proof.
  assert (Hf : 0 < C.strlen (MCP_SERVER_IP_FALLBACK Speedie.config))
    by (unfold C.strlen; simpl; lia).
  simpl. split; [repeat split; exact Hf|].
  destruct (locate_falls_back Speedie.config (Scenario.env Scenario.newer)
              (Scenario.bot "Speedie_Bot(2)" "" 0 (Scenario.radio_with [])))
    as [H _].
  destruct (H eq_refl eq_refl Hf) as [(_ & Hip & Hport & _) _].
  split; [exact Hip | exact Hport].
Defined.

(** ** Status reports *)

Lemma speedie_discover_extends (cfg : Config) (env : Env) (b : Bot) :
  ∃ new, extends b (snd (Speedie.discoverMCPServer cfg env b)) new
         ∧ http_posts new = [] ∧ sends new = []
         ∧ mdns_lookups new = [botID b].
Proof.
  unfold Speedie.discoverMCPServer, extends.
  by_trace_cases.
Qed.

(** The claim of C5 fails on the template: with no server known its
    [sendStatusToMCP] returns at once and no discovery is run. *)
Lemma template_report_skips_discovery :
  let b := Scenario.bot "Temperature_Sensor" "" 0 (Scenario.radio_with []) in
  let b' := Template.sendStatusToMCP Template.config (Scenario.env Scenario.newer) b in
  mcpServerIP b = "" ∧ mdns_lookups (trace b') = [] ∧ b' = b.
Proof. repeat split. Qed.

(** C5, amended: when the server endpoint is unset, speedie_bot's
    [sendStatusToMCP] runs the discovery once, logs that it cannot send and
    returns, and the template's returns at once with no discovery; in both
    no status request is sent in that call, and neither raises an error. *)
Theorem report_without_endpoint (cfg : Config) (env : Env) (b : Bot) :
  mcpServerIP b = "" →
  let s := Speedie.sendStatusToMCP cfg env b in
  (s = emit (Serial "Cannot send status - WiFi not connected or MCP server not found." [])
         (snd (Speedie.discoverMCPServer cfg env b))
   ∧ mdns_lookups (trace s) = mdns_lookups (trace b) ++ [botID b]
   ∧ http_posts (trace s) = http_posts (trace b))
  ∧ Template.sendStatusToMCP cfg env b = b.
Proof.
  intros Hu. simpl. unfold Speedie.sendStatusToMCP, Template.sendStatusToMCP.
  rewrite Hu. simpl. rewrite orb_true_r. split; [|reflexivity].
  split; [reflexivity|].
  destruct (speedie_discover_extends cfg env b) as (new & H & Hp & _ & Hm).
  unfold extends in H. simpl. rewrite H.
  rewrite !mdns_lookups_app, !http_posts_app, Hp, Hm. simpl.
  by rewrite !app_nil_r.
Qed.

Lemma report_without_endpoint_witness :
  let b := Scenario.bot "Speedie_Bot(2)" "" 0 (Scenario.radio_with []) in
  let env := Scenario.env Scenario.newer in
  mcpServerIP b = ""
  ∧ http_posts (trace (Speedie.sendStatusToMCP Speedie.config env b)) = []
  ∧ mdns_lookups (trace (Speedie.sendStatusToMCP Speedie.config env b))
    = ["Speedie_Bot(2)"].
Proof.
  simpl. split; [reflexivity|].
  destruct (report_without_endpoint Speedie.config (Scenario.env Scenario.newer)
              (Scenario.bot "Speedie_Bot(2)" "" 0 (Scenario.radio_with []))
              eq_refl) as [(_ & Hm & Hp) _].
  split; [exact Hp | exact Hm].
Defined.

(** With a server known and WiFi up a status request is sent: the guard is
    what keeps the request back. *)
Lemma speedie_report_with_endpoint (cfg : Config) (env : Env) (b : Bot) :
  wifi_connected env = true → mcpServerIP b ≠ "" →
  http_posts (trace (Speedie.sendStatusToMCP cfg env b))
  = http_posts (trace b)
      ++ ["http://" +:+ mcpServerIP b +:+ ":"
            +:+ Arduino.String_of_int (mcpServerPort b) +:+ mcpStatusEndpoint].
Proof.
  intros Hw Hs. unfold Speedie.sendStatusToMCP. rewrite Hw. simpl.
  destruct (Arduino.equals (mcpServerIP b) "") eqn:E.
  { apply equals_empty in E. contradiction. }
  destruct (0 <? http_post_code env)%Z; simpl;
    rewrite !http_posts_app; simpl; by rewrite app_nil_r.
Qed.

(** ** Firmware check *)

Lemma string_append_assoc (s1 s2 s3 : string) :
  (s1 +:+ s2) +:+ s3 = s1 +:+ s2 +:+ s3.
Proof.
  induction s1 as [|c s1 IH]; [reflexivity|].
  change (String c ((s1 +:+ s2) +:+ s3) = String c (s1 +:+ s2 +:+ s3)).
  by f_equal.
Qed.

(** The claim of C8 fails on the template: a newer version on the server
    is logged and no update is started. *)
Lemma template_never_updates :
  let b := Scenario.bot "Temperature_Sensor" "192.168.1.130" 8081
             (Scenario.radio_with []) in
  let env := Scenario.env Scenario.newer in
  SFltb (FIRMWARE_VERSION Template.config) (doc_version (http_get_doc env)) = true
  ∧ updates (trace (Template.checkForFirmwareUpdate Template.config env b)) = [].
Proof. split; reflexivity. Qed.

(** C8, amended: in bot_wifi_client, for every firmware-check response
    (WiFi up, server known, HTTP 200) the updater is invoked if and only if
    the reported version is greater than [FIRMWARE_VERSION], and then once,
    with the URL http://ip:port/firmware/filename; the template invokes no
    updater whatever the response. *)
Theorem firmware_update_decision (cfg : Config) (env : Env) (b : Bot) :
  wifi_connected env = true → mcpServerIP b ≠ "" → http_get_code env = 200%Z →
  let doc := http_get_doc env in
  let endpoint := "http://" +:+ mcpServerIP b +:+ ":"
                    +:+ Arduino.String_of_int (mcpServerPort b) in
  updates (trace (WifiClient.checkForFirmwareUpdate cfg env b))
  = updates (trace b)
      ++ (if SFltb (FIRMWARE_VERSION cfg) (doc_version doc)
          then [endpoint +:+ "/firmware/" +:+ default "" (doc_filename doc)]
          else [])
  ∧ updates (trace (Template.checkForFirmwareUpdate cfg env b)) = updates (trace b).
Proof.
  intros Hw Hs Hc. simpl.
  unfold WifiClient.checkForFirmwareUpdate, Template.checkForFirmwareUpdate.
  rewrite Hw, Hc. simpl.
  destruct (Arduino.equals (mcpServerIP b) "") eqn:E.
  { apply equals_empty in E. contradiction. }
  destruct (SFltb (FIRMWARE_VERSION cfg) (doc_version (http_get_doc env)));
    [destruct (http_update env)|];
    simpl; rewrite !updates_app; simpl; rewrite ?app_nil_r; split; try reflexivity;
    by rewrite !string_append_assoc.
Qed.

Lemma firmware_update_decision_witness :
  let b := Scenario.bot "ESP32_Bot" "192.168.1.130" 8080 (Scenario.radio_with []) in
  (wifi_connected (Scenario.env Scenario.newer) = true
   ∧ mcpServerIP b ≠ ""
   ∧ http_get_code (Scenario.env Scenario.newer) = 200%Z)
  ∧ updates (trace (WifiClient.checkForFirmwareUpdate WifiClient.config
                      (Scenario.env Scenario.newer) b))
    = ["http://192.168.1.130:8080/firmware/fw.bin"]
  ∧ Arduino.endsWith "http://192.168.1.130:8080/firmware/fw.bin" "/firmware/fw.bin"
    = true
  ∧ updates (trace (WifiClient.checkForFirmwareUpdate WifiClient.config
                      (Scenario.env Scenario.same) b))
    = [].
Proof.
  simpl.
  assert (Hs : "192.168.1.130" ≠ "") by discriminate.
  split; [repeat split; exact Hs|].
  split; [|split; [reflexivity|]].
  - exact (proj1 (firmware_update_decision WifiClient.config
                    (Scenario.env Scenario.newer)
                    (Scenario.bot "ESP32_Bot" "192.168.1.130" 8080
                       (Scenario.radio_with []))
                    eq_refl Hs eq_refl)).
  - exact (proj1 (firmware_update_decision WifiClient.config
                    (Scenario.env Scenario.same)
                    (Scenario.bot "ESP32_Bot" "192.168.1.130" 8080
                       (Scenario.radio_with []))
                    eq_refl Hs eq_refl)).
Defined.

(** ** Receiving frames *)

Lemma template_send_sends (env : Env) (mac : mac_addr) (ty pl : string) (b : Bot) :
  sends (trace (Template.sendESPNowMessage env mac ty pl b))
  = sends (trace b) ++ [(mac, Template.make_message env (botID b) ty pl)]
  ∧ botID (Template.sendESPNowMessage env mac ty pl b) = botID b.
Proof.
  unfold Template.sendESPNowMessage, radio_send.
  destruct (is_ok _); simpl; rewrite !sends_app; simpl;
    by rewrite !app_nil_r.
Qed.

Lemma template_activity_sends (cfg : Config) (env : Env) (s r ty pl : string) (b : Bot) :
  sends (trace (Template.sendESPNowActivity cfg env s r ty pl b)) = sends (trace b).
Proof.
  unfold Template.sendESPNowActivity.
  destruct (_ || _); simpl; [reflexivity|].
  rewrite sends_app. simpl. by rewrite app_nil_r.
Qed.

Lemma template_respond_sends (cfg : Config) (env : Env) (mac : mac_addr)
    (ty : string) (b : Bot) :
  sends (trace (Template.respondToPeerMessage cfg env mac ty b))
  = sends (trace b)
      ++ [(mac, Template.make_message env (botID b) ty (botID b +:+ "_response"))].
Proof.
  unfold Template.respondToPeerMessage.
  rewrite template_activity_sends.
  destruct (template_send_sends env mac ty (botID b +:+ "_response")
              (emit (Serial "Responding to %s with: %s" [AStr (macStr mac); AStr ty]) b))
    as [H _].
  simpl in *. rewrite H, sends_app. simpl. by rewrite app_nil_r.
Qed.

(** The frames the template's receive handler answers with: one reply to
    the sender for a heartbeat and for a status frame, none for the rest. *)
Lemma template_receive_sends (cfg : Config) (env : Env) (mac : mac_addr)
    (incomingData : list byte) (b : Bot) :
  let msgType := C.read_cstr incomingData Template.off_message_type in
  let reply ty :=
    (mac, Template.make_message env (botID b) ty (botID b +:+ "_response")) in
  sends (trace (Template.onESPNowReceive cfg env mac incomingData b))
  = sends (trace b)
      ++ (if Arduino.equals msgType "heartbeat" then [reply "heartbeat_ack"]
          else if Arduino.equals msgType "status" then [reply "status_ack"]
          else []).
Proof.
  simpl. unfold Template.onESPNowReceive.
  rewrite template_activity_sends.
  repeat case_match; rewrite ?template_respond_sends; simpl;
    rewrite !sends_app; simpl; by rewrite ?app_nil_r.
Qed.

(** A frame whose type is neither heartbeat nor status gets no reply and is
    logged, as an acknowledgment or as unknown. *)
Lemma template_receive_other (cfg : Config) (env : Env) (mac : mac_addr)
    (incomingData : list byte) (b : Bot) :
  let msgType := C.read_cstr incomingData Template.off_message_type in
  Arduino.equals msgType "heartbeat" = false →
  Arduino.equals msgType "status" = false →
  Arduino.endsWith msgType "_ack" = false →
  let b' := Template.onESPNowReceive cfg env mac incomingData b in
  sends (trace b') = sends (trace b)
  ∧ Serial "Unknown message type: %s" [AStr msgType] ∈ trace b'.
Proof.
  simpl. intros H1 H2 H3. split.
  - rewrite template_receive_sends. simpl. rewrite H1, H2. apply app_nil_r.
  - unfold Template.onESPNowReceive, Template.sendESPNowActivity.
    rewrite H1, H2, H3.
    destruct (_ || _); simpl;
      rewrite !elem_of_app, !list_elem_of_singleton; auto 10.
Qed.

(** The type field of a frame sent with a given type. *)
Lemma template_frame_type (env : Env) (id ty pl : string) :
  C.read_cstr (Template.make_message env id ty pl) Template.off_message_type
  = string_of_list_byte (take 11 (C.c_str ty)).
Proof. rewrite template_make_message_image. apply read_frame_image. Qed.

(** A status frame is answered with a frame of type status_ack. *)
Lemma template_status_reply (cfg : Config) (env : Env) (mac : mac_addr)
    (incomingData : list byte) (b : Bot) :
  C.read_cstr incomingData Template.off_message_type = "status" →
  ∃ reply,
    sends (trace (Template.onESPNowReceive cfg env mac incomingData b))
    = sends (trace b) ++ [(mac, reply)]
    ∧ C.read_cstr reply Template.off_message_type = "status_ack".
Proof.
  intros H. eexists. split.
  - rewrite template_receive_sends. simpl. rewrite H. reflexivity.
  - by rewrite template_frame_type.
Qed.

(** C7, on the template: a frame of type heartbeat makes the receive
    handler send one reply to the sender, requested with the type
    heartbeat_ack; the twelve bytes of [message_type] hold eleven
    characters, so the reply goes out with the type heartbeat_a, and the
    handler of the peer that gets it takes it for an unknown type. *)
Theorem heartbeat_reply_type_is_cut (cfg : Config) (env : Env) (mac : mac_addr)
    (incomingData : list byte) (b : Bot) :
  C.read_cstr incomingData Template.off_message_type = "heartbeat" →
  let reply := Template.make_message env (botID b) "heartbeat_ack"
                 (botID b +:+ "_response") in
  sends (trace (Template.onESPNowReceive cfg env mac incomingData b))
  = sends (trace b) ++ [(mac, reply)]
  ∧ C.read_cstr reply Template.off_message_type = "heartbeat_a"
  ∧ C.read_cstr reply Template.off_message_type ≠ "heartbeat_ack"
  ∧ (∀ cfg' env' mac' b',
       let p := Template.onESPNowReceive cfg' env' mac' reply b' in
       sends (trace p) = sends (trace b')
       ∧ Serial "Unknown message type: %s" [AStr "heartbeat_a"] ∈ trace p).
Proof.
  intros H reply.
  assert (Ht : C.read_cstr reply Template.off_message_type = "heartbeat_a")
    by (subst reply; by rewrite template_frame_type).
  split; [|split; [exact Ht|split]].
  - rewrite template_receive_sends. simpl. rewrite H. reflexivity.
  - rewrite Ht. discriminate.
  - intros cfg' env' mac' b'.
    pose proof (template_receive_other cfg' env' mac' reply b') as Ho.
    simpl in Ho. rewrite Ht in Ho. by apply Ho.
Qed.

Lemma heartbeat_reply_type_is_cut_witness :
  let env := Scenario.env Scenario.newer in
  let b := Scenario.bot "Temperature_Sensor" "" 0
             (Scenario.radio_with [Scenario.wheelie]) in
  let heartbeat := Template.make_message env "Wheelie_Bot" "heartbeat" "Wheelie_Bot" in
  C.read_cstr heartbeat Template.off_message_type = "heartbeat"
  ∧ map (fun s => C.read_cstr (snd s) Template.off_message_type)
        (sends (trace (Template.onESPNowReceive Template.config env
                         Scenario.wheelie heartbeat b)))
    = ["heartbeat_a"].
Proof.
  intros env b heartbeat. split; [reflexivity|].
  destruct (heartbeat_reply_type_is_cut Template.config env Scenario.wheelie
              heartbeat b eq_refl) as (Hs & Ht & _).
  exact (eq_trans
           (f_equal (map (fun s => C.read_cstr (snd s) Template.off_message_type)) Hs)
           (f_equal (fun x => [x]) Ht)).
Defined.

Lemma speedie_frame_type (env : Env) (id ty pl : string) :
  C.read_cstr (Speedie.make_message env id ty pl) Speedie.off_message_type
  = string_of_list_byte (take 11 (C.c_str ty)).
Proof. rewrite speedie_make_message_image. apply read_frame_image. Qed.

(** speedie_bot answers a heartbeat with the same frame, when it can reach
    the sender. *)
Lemma speedie_heartbeat_reply (env : Env) (mac : mac_addr) (b : Bot) :
  let reply := Speedie.make_message env (botID b) "heartbeat_ack"
                 (botID b +:+ "_response") in
  (∃ new, extends b (Speedie.respondToPeerMessage env mac "heartbeat_ack" b) new
          ∧ (sends new = [] ∨ sends new = [(mac, reply)]))
  ∧ C.read_cstr reply Speedie.off_message_type = "heartbeat_a".
Proof.
  simpl. split.
  - unfold Speedie.respondToPeerMessage.
    destruct (speedie_send_extends env mac "heartbeat_ack" (botID b +:+ "_response")
                (emit (Serial "Responding to %s with: %s"
                         [AStr (macStr mac); AStr "heartbeat_ack"]) b))
      as (new & H1 & H2).
    exists ([Serial "Responding to %s with: %s"
               [AStr (macStr mac); AStr "heartbeat_ack"]] ++ new).
    split.
    + eapply extends_trans; [|exact H1]. apply (extends_emit b b []), extends_refl.
    + rewrite sends_app. exact H2.
  - by rewrite speedie_frame_type.
Qed.

Lemma speedie_activity_extends (cfg : Config) (env : Env)
    (s r ty pl : string) (b : Bot) :
  ∃ new, extends b (Speedie.sendESPNowActivity cfg env s r ty pl b) new
         ∧ sends new = [].
Proof.
  unfold Speedie.sendESPNowActivity, extends.
  destruct (_ || _); simpl.
  - exists []. by rewrite app_nil_r.
  - eexists. split; reflexivity.
Qed.

(** The receive handler of speedie_bot on a heartbeat: at most one frame,
    for the sender, and its type is the cut one. *)
Lemma speedie_receive_heartbeat (cfg : Config) (env : Env) (mac : mac_addr)
    (incomingData : list byte) (b : Bot) :
  C.read_cstr incomingData Speedie.off_message_type = "heartbeat" →
  let reply := Speedie.make_message env (botID b) "heartbeat_ack"
                 (botID b +:+ "_response") in
  (∃ new, extends b (Speedie.onESPNowReceive cfg env mac incomingData b) new
          ∧ (sends new = [] ∨ sends new = [(mac, reply)]))
  ∧ C.read_cstr reply Speedie.off_message_type = "heartbeat_a".
Proof.
  intros H reply. split; [|by apply speedie_heartbeat_reply].
  unfold Speedie.onESPNowReceive. rewrite H. simpl.
  set (b0 := emit _ (emit _ b)).
  destruct (speedie_heartbeat_reply env mac b0) as [(n1 & H1 & H2) _].
  set (b1 := Speedie.respondToPeerMessage env mac "heartbeat_ack" b0) in *.
  destruct (speedie_activity_extends cfg env (macStr mac) (macStr (wifi_mac env))
              "heartbeat" (C.read_cstr incomingData Speedie.off_payload) b1)
    as (n2 & H3 & H4).
  eexists. split.
  - eapply extends_trans; [|exact H3].
    eapply extends_trans; [|exact H1].
    apply extends_emit, (extends_emit b b []), extends_refl.
  - rewrite !sends_app, H4, app_nil_r. simpl. exact H2.
Qed.

(** ** Emergency relay *)

Lemma Z_of_byte_of_Z (z : Z) : C.Z_of_byte (C.byte_of_Z z) = (z mod 256)%Z.
Proof.
  unfold C.Z_of_byte, C.byte_of_Z.
  assert (Hr : (0 ≤ z mod 256 < 256)%Z) by (apply Z.mod_pos_bound; lia).
  destruct (Byte.of_N (Z.to_N (z mod 256))) as [c|] eqn:E.
  - apply Byte.to_of_N in E. rewrite E. lia.
  - apply Byte.of_N_None_iff in E. lia.
Qed.

Lemma hop_count_range (message : list byte) :
  (0 ≤ EspNowExample.hop_count message < 256)%Z.
Proof.
  unfold EspNowExample.hop_count, C.load_u8.
  destruct (message !! EspNowExample.off_hop_count) as [c|]; [|lia].
  unfold C.Z_of_byte. pose proof (Byte.to_N_bounded c). lia.
Qed.

(** [hop_count++] on a whole struct, below the limit. *)
Lemma hop_count_incr (message : list byte) :
  length message = EspNowExample.sizeof_message →
  (EspNowExample.hop_count message < 3)%Z →
  EspNowExample.hop_count (EspNowExample.incr_hop_count message)
  = (EspNowExample.hop_count message + 1)%Z
  ∧ length (EspNowExample.incr_hop_count message) = EspNowExample.sizeof_message.
Proof.
  intros Hl Hh. pose proof (hop_count_range message) as Hr.
  unfold EspNowExample.incr_hop_count, C.store_byte. split.
  - unfold EspNowExample.hop_count at 1, C.load_u8.
    rewrite list_lookup_insert_eq
      by (rewrite Hl; unfold EspNowExample.off_hop_count,
            EspNowExample.sizeof_message; lia).
    rewrite Z_of_byte_of_Z. apply Z.mod_small. lia.
  - by rewrite length_insert.
Qed.

Lemma wire_whole (message : list byte) :
  length message = EspNowExample.sizeof_message → EspNowExample.wire message = message.
Proof.
  intros H. unfold EspNowExample.wire. by rewrite take_app_length'.
Qed.

(** One turn of the loop of [broadcastMessage]: the peer fetched from the
    head of the list is the first unicast peer, every time. *)
Lemma broadcast_step_sends (message : list byte) (b : Bot)
    (i : nat) (p : esp_now_peer_info_t) :
  initialized (radio b) = true →
  list_find (fun p => is_unicast p = true) (peer_list (radio b)) = Some (i, p) →
  let b' := EspNowExample.broadcast_step message b in
  sends (trace b') = sends (trace b) ++ [(peer_addr p, EspNowExample.wire message)]
  ∧ initialized (radio b') = true
  ∧ peer_list (radio b') = peer_list (radio b).
Proof.
  intros Hi Hf. simpl.
  unfold EspNowExample.broadcast_step, esp_now_fetch_peer, radio_send.
  rewrite Hi. simpl. rewrite drop_0, Hf. simpl.
  destruct (is_ok _); simpl; rewrite sends_app; auto.
Qed.

Lemma broadcast_loop_sends (turns : nat) (message : list byte) (b : Bot)
    (i : nat) (p : esp_now_peer_info_t) :
  initialized (radio b) = true →
  list_find (fun p => is_unicast p = true) (peer_list (radio b)) = Some (i, p) →
  sends (trace (EspNowExample.broadcast_loop turns message b))
  = sends (trace b) ++ replicate turns (peer_addr p, EspNowExample.wire message).
Proof.
  revert b. induction turns as [|turns IH]; intros b Hi Hf; simpl.
  - by rewrite app_nil_r.
  - destruct (broadcast_step_sends message b i p Hi Hf) as (Hs & Hi' & Hl').
    rewrite IH; [|exact Hi'|by rewrite Hl'].
    rewrite Hs, <- app_assoc. reflexivity.
Qed.

(** [broadcastMessage] asks for as many frames as there are peers, all of
    them for the first unicast peer of the list. *)
Lemma broadcast_targets_head (message : list byte) (b : Bot)
    (i : nat) (p : esp_now_peer_info_t) :
  initialized (radio b) = true →
  list_find (fun p => is_unicast p = true) (peer_list (radio b)) = Some (i, p) →
  sends (trace (EspNowExample.broadcastMessage message b))
  = sends (trace b)
      ++ replicate (length (peer_list (radio b)))
           (peer_addr p, EspNowExample.wire message).
Proof. intros Hi Hf. by apply (broadcast_loop_sends _ _ _ i). Qed.

(** A frame that arrives with hop count 3 or more is logged and not
    relayed. *)
Lemma emergency_dropped (mac : mac_addr) (message : list byte) (b : Bot) :
  (3 ≤ EspNowExample.hop_count message)%Z →
  EspNowExample.handleEmergency mac message b
  = (message,
     emit (Serial "EMERGENCY from %s: %s"
             [AStr (C.read_cstr message EspNowExample.off_sender_id);
              AStr (C.read_cstr message EspNowExample.off_payload)]) b).
Proof.
  intros H. unfold EspNowExample.handleEmergency.
  destruct (Z.ltb_spec (EspNowExample.hop_count message) 3); [lia|reflexivity].
Qed.

Lemma emergency_dropped_sends (mac : mac_addr) (message : list byte) (b : Bot) :
  (3 ≤ EspNowExample.hop_count message)%Z →
  sends (trace (snd (EspNowExample.handleEmergency mac message b))) = sends (trace b).
Proof.
  intros H. rewrite emergency_dropped by exact H. simpl.
  rewrite sends_app. apply app_nil_r.
Qed.

(** A frame that arrives with a hop count below 3 has it incremented and is
    handed to [broadcastMessage]; every frame requested from the radio
    carries the incremented count. *)
Lemma emergency_relayed (mac : mac_addr) (message : list byte) (b : Bot) :
  length message = EspNowExample.sizeof_message →
  (EspNowExample.hop_count message < 3)%Z →
  let r := EspNowExample.handleEmergency mac message b in
  EspNowExample.hop_count (fst r) = (EspNowExample.hop_count message + 1)%Z
  ∧ length (fst r) = EspNowExample.sizeof_message
  ∧ snd r = EspNowExample.broadcastMessage (fst r)
              (emit (Serial "EMERGENCY from %s: %s"
                       [AStr (C.read_cstr message EspNowExample.off_sender_id);
                        AStr (C.read_cstr message EspNowExample.off_payload)]) b).
Proof.
  intros Hl Hh. simpl. unfold EspNowExample.handleEmergency.
  destruct (Z.ltb_spec (EspNowExample.hop_count message) 3); [|lia]. simpl.
  destruct (hop_count_incr message Hl Hh) as [H1 H2]. auto.
Qed.

(** A frame relayed from hop count 2 goes out with 3, and whoever handles
    it next drops it. *)
Lemma emergency_last_hop (mac mac' : mac_addr) (message : list byte) (b b' : Bot) :
  length message = EspNowExample.sizeof_message →
  EspNowExample.hop_count message = 2%Z →
  let relayed := fst (EspNowExample.handleEmergency mac message b) in
  EspNowExample.hop_count relayed = 3%Z
  ∧ sends (trace (snd (EspNowExample.handleEmergency mac' relayed b')))
    = sends (trace b').
Proof.
  intros Hl Hh. simpl.
  destruct (emergency_relayed mac message b Hl) as (H1 & _); [lia|].
  rewrite Hh in H1. split; [exact H1|].
  apply emergency_dropped_sends. lia.
Qed.

(** C2, on esp_now_example with its two known peers: an emergency frame
    that arrives with hop count 0 is relayed with hop count 1, and both
    frames [broadcastMessage] asks the radio for are addressed to the first
    peer of the list; none is addressed to the second.  The frame has the
    256 bytes of the struct, which the driver refuses. *)
Theorem emergency_relay_misses_second_peer :
  let r := EspNowExample.handleEmergency Scenario.wheelie (Scenario.emergency_frame 0)
             Scenario.example_node in
  EspNowExample.hop_count (Scenario.emergency_frame 0) = 0%Z
  ∧ map peer_addr (peer_list (radio Scenario.example_node))
    = [Scenario.first_peer; Scenario.second_peer]
  ∧ EspNowExample.hop_count (fst r) = 1%Z
  ∧ map fst (sends (trace (snd r))) = [Scenario.first_peer; Scenario.first_peer]
  ∧ ¬ (Scenario.second_peer ∈ map fst (sends (trace (snd r))))
  ∧ Forall (fun s => length (snd s) = 256 ∧ EspNowExample.hop_count (snd s) = 1%Z)
      (sends (trace (snd r)))
  ∧ Forall (fun e => match e with
                     | RadioSend _ _ res => res = ESP_ERR_ESPNOW_ARG
                     | _ => True
                     end) (trace (snd r)).
Proof.
  vm_compute.
  split; [reflexivity|]. split; [reflexivity|]. split; [reflexivity|].
  split; [reflexivity|]. split.
  - intros H. repeat (apply elem_of_cons in H; destruct H as [H|H]; [discriminate|]).
    by apply elem_of_nil in H.
  - split; repeat constructor.
Qed.

(** ** Frames between the sketches *)

Lemma length_list_byte_of_string (s : string) :
  length (list_byte_of_string s) = String.length s.
Proof.
  unfold list_byte_of_string. rewrite length_map.
  induction s as [|c s IH]; simpl; [reflexivity|]. by rewrite IH.
Qed.

(** A string without a NUL that fits a field is copied whole. *)
Lemma take_c_str_fits (n : nat) (s : string) :
  C.String_ s = s → String.length s ≤ n →
  string_of_list_byte (take n (C.c_str s)) = s.
Proof.
  intros Hs Hn.
  assert (Hc : C.c_str s = list_byte_of_string s).
  { rewrite <- Hs at 2. unfold C.String_.
    by rewrite list_byte_of_string_of_list_byte. }
  rewrite take_ge by (rewrite Hc, length_list_byte_of_string; lia).
  exact Hs.
Qed.

(** What is read from the middle of a field: the rest of the string. *)
Lemma chars_drop_cfield (n k : nat) (s : string) (rest : list byte) :
  k < n →
  C.chars (drop k (cfield n s) ++ rest) = drop k (take (n - 1) (C.c_str s)).
Proof.
  intros Hk. unfold cfield.
  set (T := take (n - 1) (C.c_str s)).
  assert (HT : length T ≤ n - 1) by apply firstn_le_length.
  rewrite drop_app.
  rewrite drop_replicate.
  replace (n - length T - (k - length T)) with (S (n - length T - (k - length T) - 1))
    by lia.
  simpl replicate. rewrite <- app_assoc. simpl.
  apply chars_app_nul, Forall_drop.
  subst T. unfold C.c_str. apply chars_take_no_nul.
Qed.

Lemma drop_frame_image_32 (id ty pl : string) (t : Z) :
  drop 32 (frame_image id ty pl t)
  = drop 8 (cfield 12 ty) ++ cfield 128 pl ++ C.le32 t.
Proof.
  change 32 with (24 + 8). rewrite <- drop_drop, drop_frame_image_24.
  rewrite drop_app_le by (rewrite length_cfield; lia). reflexivity.
Qed.

Lemma drop_frame_image_48 (id ty pl : string) (t : Z) :
  drop 48 (frame_image id ty pl t) = drop 12 (cfield 128 pl) ++ C.le32 t.
Proof.
  change 48 with (36 + 12). rewrite <- drop_drop, drop_frame_image_36.
  rewrite drop_app_le by (rewrite length_cfield; lia). reflexivity.
Qed.

(** X1: the frame the template builds is, byte for byte, the frame
    speedie_bot builds for the same sender id, type, payload and
    timestamp, whatever the uninitialised local of either sketch held:
    the template's three terminator stores do what speedie_bot's
    [memset] does. *)
Theorem template_and_speedie_frames_agree (env env' : Env) (id ty pl : string) :
  millis env = millis env' →
  Template.make_message env id ty pl = Speedie.make_message env' id ty pl.
Proof.
  intros H.
  by rewrite template_make_message_image, speedie_make_message_image, H.
Qed.

Lemma template_and_speedie_frames_agree_witness :
  Template.make_message (Scenario.env Scenario.newer) "Temperature_Sensor" "heartbeat" "x"
  = Speedie.make_message (Scenario.stale_stack_env) "Temperature_Sensor" "heartbeat" "x".
Proof.
  apply (template_and_speedie_frames_agree (Scenario.env Scenario.newer)
           Scenario.stale_stack_env).
  reflexivity.
Defined.

(** X2: strings that fit their fields go through unchanged.  For every
    sender id of at most 23 characters, type of at most 11 and payload of
    at most 127, none with a NUL inside, the receive handlers of the
    template and of speedie_bot read from the frame the template built
    exactly the three strings, which is what their first log line shows. *)
Theorem fitting_strings_round_trip (cfg : Config) (env env' : Env) (mac : mac_addr)
    (id ty pl : string) (b : Bot) :
  C.String_ id = id → C.String_ ty = ty → C.String_ pl = pl →
  String.length id ≤ 23 → String.length ty ≤ 11 → String.length pl ≤ 127 →
  let frame := Template.make_message env id ty pl in
  let line := Serial "ESP-NOW RECEIVED from %s [%s]: %s" [AStr id; AStr ty; AStr pl] in
  (C.read_cstr frame Template.off_sender_id = id
   ∧ C.read_cstr frame Template.off_message_type = ty
   ∧ C.read_cstr frame Template.off_payload = pl)
  ∧ (∃ rest, trace (Template.onESPNowReceive cfg env' mac frame b)
             = trace b ++ line :: rest)
  ∧ (∃ rest, trace (Speedie.onESPNowReceive cfg env' mac frame b)
             = trace b ++ line :: rest).
Proof.
  intros Hid Hty Hpl Lid Lty Lpl frame line.
  assert (Hr : C.read_cstr frame 0 = id ∧ C.read_cstr frame 24 = ty
               ∧ C.read_cstr frame 36 = pl).
  { subst frame. rewrite template_make_message_image.
    destruct (read_frame_image id ty pl (millis env)) as (R1 & R2 & R3).
    simpl in R1, R2, R3. rewrite R1, R2, R3.
    by rewrite !take_c_str_fits. }
  destruct Hr as (R1 & R2 & R3).
  split; [by repeat split|]. split.
  - unfold Template.onESPNowReceive.
    change Template.off_sender_id with 0. change Template.off_message_type with 24.
    change Template.off_payload with 36. rewrite R1, R2, R3.
    set (b0 := emit line b).
    assert (H0 : extends b b0 [line]) by apply (extends_emit b b []), extends_refl.
    match goal with |- ∃ rest, trace (Template.sendESPNowActivity _ _ _ _ _ _ ?x) = _ =>
      set (b1 := x) end.
    assert (H1 : ∃ n, extends b0 b1 n).
    { subst b1. unfold Template.respondToPeerMessage, Template.sendESPNowActivity,
        Template.sendESPNowMessage, radio_send, extends.
      repeat case_match; simplify_eq; simpl;
        (eexists; rewrite <- ?app_assoc; reflexivity). }
    destruct H1 as (n1 & H1).
    assert (H2 : ∃ n, extends b1 (Template.sendESPNowActivity cfg env' (macStr mac) "self"
                                    ty pl b1) n).
    { unfold Template.sendESPNowActivity, extends.
      destruct (_ || _); simpl; [exists []; by rewrite app_nil_r|by eexists]. }
    destruct H2 as (n2 & H2).
    exists (n1 ++ n2).
    pose proof (extends_trans _ _ _ _ _ (extends_trans _ _ _ _ _ H0 H1) H2) as H.
    unfold extends in H. rewrite H. by rewrite <- !app_assoc.
  - unfold Speedie.onESPNowReceive.
    change Speedie.off_sender_id with 0. change Speedie.off_message_type with 24.
    change Speedie.off_payload with 36. rewrite R1, R2, R3.
    set (b0 := emit line b).
    assert (H0 : extends b b0 [line]) by apply (extends_emit b b []), extends_refl.
    match goal with |- ∃ rest, trace (Speedie.sendESPNowActivity _ _ _ _ _ _ ?x) = _ =>
      set (b1 := x) end.
    assert (H1 : ∃ n, extends b0 b1 n).
    { subst b1. unfold Speedie.respondToPeerMessage.
      repeat case_match.
      - destruct (speedie_send_extends env' mac "heartbeat_ack" (botID b0 +:+ "_response")
                    (emit (Serial "Responding to %s with: %s"
                             [AStr (macStr mac); AStr "heartbeat_ack"])
                       (emit (Serial "Heartbeat from %s" [AStr id]) b0)))
          as (n & Hn & _).
        eexists. eapply extends_trans; [|exact Hn].
        apply extends_emit, (extends_emit b0 b0 []), extends_refl.
      - destruct (speedie_send_extends env' mac "status_ack" (botID b0 +:+ "_response")
                    (emit (Serial "Responding to %s with: %s"
                             [AStr (macStr mac); AStr "status_ack"])
                       (emit (Serial "Status update from %s: %s" [AStr id; AStr pl]) b0)))
          as (n & Hn & _).
        eexists. eapply extends_trans; [|exact Hn].
        apply extends_emit, (extends_emit b0 b0 []), extends_refl.
      - eexists. apply (extends_emit b0 b0 []), extends_refl.
      - eexists. apply (extends_emit b0 b0 []), extends_refl. }
    destruct H1 as (n1 & H1).
    destruct (speedie_activity_extends cfg env' (macStr mac) (macStr (wifi_mac env'))
                ty pl b1) as (n2 & H2 & _).
    exists (n1 ++ n2).
    pose proof (extends_trans _ _ _ _ _ (extends_trans _ _ _ _ _ H0 H1) H2) as H.
    unfold extends in H. rewrite H. by rewrite <- !app_assoc.
Qed.

Lemma fitting_strings_round_trip_witness :
  let frame := Template.make_message (Scenario.env Scenario.newer)
                 "Wheelie_Bot" "heartbeat" "Wheelie_Bot" in
  C.read_cstr frame Template.off_sender_id = "Wheelie_Bot"
  ∧ C.read_cstr frame Template.off_message_type = "heartbeat"
  ∧ C.read_cstr frame Template.off_payload = "Wheelie_Bot".
Proof.
  intros frame.
  destruct (fitting_strings_round_trip Template.config (Scenario.env Scenario.newer)
              (Scenario.env Scenario.newer) Scenario.wheelie
              "Wheelie_Bot" "heartbeat" "Wheelie_Bot"
              (Scenario.bot "Temperature_Sensor" "" 0 (Scenario.radio_with []))
              eq_refl eq_refl eq_refl) as [H _]; [simpl; lia..|].
  exact H.
Defined.

(** ** Sending without and with registration *)

Lemma send_results_app (t1 t2 : list event) :
  send_results (t1 ++ t2) = send_results t1 ++ send_results t2.
Proof. apply omap_app. Qed.

Lemma length_template_frame (env : Env) (id ty pl : string) :
  length (Template.make_message env id ty pl) = 168.
Proof. rewrite template_make_message_image. apply length_frame_image. Qed.

Lemma length_speedie_frame (env : Env) (id ty pl : string) :
  length (Speedie.make_message env id ty pl) = 168.
Proof. rewrite speedie_make_message_image. apply length_frame_image. Qed.

(** A frame of 168 bytes for a known peer is accepted, for an unknown peer
    it is refused as not found. *)
Lemma esp_now_send_168 (mac : mac_addr) (d : driver) :
  initialized d = true →
  esp_now_send mac 168 d
  = if esp_now_is_peer_exist mac d then ESP_OK else ESP_ERR_ESPNOW_NOT_FOUND.
Proof.
  intros Hi. unfold esp_now_send. rewrite Hi. simpl.
  by destruct (esp_now_is_peer_exist mac d).
Qed.

(** The template's send on an initialised driver: the registry is not
    touched and the driver's answer depends on the registry only. *)
Lemma template_send_never_registers_core
    (env : Env) (mac : mac_addr) (ty pl : string) (b : Bot) :
  initialized (radio b) = true →
  let b' := Template.sendESPNowMessage env mac ty pl b in
  radio b' = radio b
  ∧ send_results (trace b')
    = send_results (trace b)
        ++ [(mac, if esp_now_is_peer_exist mac (radio b) then ESP_OK
                  else ESP_ERR_ESPNOW_NOT_FOUND)].
Proof.
  intros Hi. simpl.
  unfold Template.sendESPNowMessage, radio_send. simpl.
  rewrite length_template_frame, (esp_now_send_168 mac (radio b) Hi).
  destruct (esp_now_is_peer_exist mac (radio b)); simpl;
    rewrite !send_results_app; simpl; by rewrite !app_nil_r.
Qed.

(** X3: the template's [sendESPNowMessage] never registers the
    destination.  On an initialised driver the registry is left as it was
    and the one request handed to the radio is accepted exactly when the
    address is registered already; for any other address the driver
    answers that the peer is not found and the sketch logs the error. *)
Theorem template_send_never_registers
    (env : Env) (mac : mac_addr) (ty pl : string) (b : Bot) :
  initialized (radio b) = true →
  let b' := Template.sendESPNowMessage env mac ty pl b in
  let frame := Template.make_message env (botID b) ty pl in
  let r := if esp_now_is_peer_exist mac (radio b) then ESP_OK
           else ESP_ERR_ESPNOW_NOT_FOUND in
  radio b' = radio b
  ∧ trace b'
    = trace b
        ++ [Serial "Sending ESP-NOW message to %s: type=%s, payload=%s"
              [AStr (macStr mac); AStr ty; AStr pl];
            Serial "Message size: %d bytes" [AInt 168];
            RadioSend mac frame r;
            if esp_now_is_peer_exist mac (radio b)
            then Serial "ESP-NOW message sent successfully" []
            else Serial "Error sending ESP-NOW message: %s (0x%x)"
                   [AErr ESP_ERR_ESPNOW_NOT_FOUND; AErr ESP_ERR_ESPNOW_NOT_FOUND]].
Proof.
  intros Hi. simpl.
  unfold Template.sendESPNowMessage, radio_send. simpl.
  rewrite length_template_frame, (esp_now_send_168 mac (radio b) Hi).
  destruct (esp_now_is_peer_exist mac (radio b)); simpl;
    by rewrite <- !app_assoc.
Qed.

Lemma template_send_never_registers_witness :
  let b := Scenario.bot "Temperature_Sensor" "" 0 (Scenario.radio_with []) in
  let b' := Template.sendESPNowMessage (Scenario.env Scenario.newer)
              Scenario.wheelie "heartbeat" "Temperature_Sensor" b in
  radio b' = radio b ∧ length (trace b') = 4.
Proof.
  intros b b'.
  destruct (template_send_never_registers (Scenario.env Scenario.newer)
              Scenario.wheelie "heartbeat" "Temperature_Sensor" b eq_refl)
    as [Hr Ht].
  split; [exact Hr|].
  exact (eq_trans (f_equal (@length event) Ht) eq_refl).
Defined.

(** The channel-0 request for an unknown address is accepted by an
    initialised driver with room. *)
Lemma add_peer_channel_0 (mac : mac_addr) (d : driver) :
  initialized d = true →
  esp_now_is_peer_exist mac d = false →
  length (peer_list d) < 20 →
  fst (esp_now_add_peer {| peer_addr := mac; channel := 0; encrypt := false |} d) = ESP_OK.
Proof.
  intros Hi Hn Hl. unfold esp_now_add_peer, ESP_NOW_MAX_TOTAL_PEER_NUM.
  cbn [peer_addr channel]. rewrite Hi, Hn.
  destruct (Nat.leb_spec 20 (length (peer_list d))) as [E|E]; [lia|].
  reflexivity.
Qed.

Lemma add_peer_ok_entries (info : esp_now_peer_info_t) (d : driver) :
  fst (esp_now_add_peer info d) = ESP_OK →
  entries (peer_addr info) (snd (esp_now_add_peer info d)) = 1
  ∧ initialized (snd (esp_now_add_peer info d)) = initialized d
  ∧ length (peer_list (snd (esp_now_add_peer info d))) = S (length (peer_list d))
  ∧ (∀ m, esp_now_is_peer_exist m d = true →
          esp_now_is_peer_exist m (snd (esp_now_add_peer info d)) = true).
Proof.
  intros Hok.
  destruct (add_peer_cases info d) as [[Hf _]|(_ & Hn & Hl & Hi)].
  { rewrite Hok in Hf. discriminate. }
  split; [|split; [exact Hi|split]].
  - unfold entries. rewrite Hl, List.filter_app, length_app. simpl.
    apply not_exist_no_entries in Hn. unfold entries in Hn. rewrite Hn.
    unfold has_addr. by rewrite bool_decide_eq_true_2.
  - rewrite Hl, length_app. simpl. lia.
  - intros m Hm. rewrite (exist_app m d [info]) by exact Hl. by rewrite Hm.
Qed.

(** What the part of speedie_bot's send that talks to the radio leaves
    behind for a known peer on an initialised driver. *)
Lemma speedie_transmit_known (env : Env) (mac : mac_addr) (ty pl : string) (b : Bot) :
  initialized (radio b) = true →
  esp_now_is_peer_exist mac (radio b) = true →
  let b' := Speedie.transmit env mac ty pl b in
  let frame := Speedie.make_message env (botID b) ty pl in
  radio b' = radio b ∧ botID b' = botID b
  ∧ ∃ new, extends b b' new
           ∧ sends new = [(mac, frame)]
           ∧ RadioSend mac frame ESP_OK ∈ new
           ∧ send_results new = [(mac, ESP_OK)].
Proof.
  intros Hi Hk. simpl.
  unfold Speedie.transmit, radio_send. simpl.
  rewrite length_speedie_frame, (esp_now_send_168 mac (radio b) Hi), Hk. simpl.
  repeat split. unfold extends. simpl.
  eexists. split; [rewrite <- !app_assoc; reflexivity|]. split; [reflexivity|].
  split; [|reflexivity].
  rewrite !elem_of_app, !list_elem_of_singleton. auto 10.
Qed.

(** X4: speedie_bot's [sendESPNowMessage] to an address the registry
    does not hold, on an initialised driver with a free slot: whatever
    channel the WiFi reports, the address is registered, once, and the frame
    is handed to the radio and accepted. *)
Theorem speedie_send_registers_and_delivers
    (env : Env) (mac : mac_addr) (ty pl : string) (b : Bot) :
  initialized (radio b) = true →
  esp_now_is_peer_exist mac (radio b) = false →
  length (peer_list (radio b)) < 20 →
  let b' := Speedie.sendESPNowMessage env mac ty pl b in
  let frame := Speedie.make_message env (botID b) ty pl in
  esp_now_is_peer_exist mac (radio b') = true
  ∧ entries mac (radio b') = 1
  ∧ ∃ new, extends b b' new
           ∧ sends new = [(mac, frame)]
           ∧ RadioSend mac frame ESP_OK ∈ new.
Proof.
  intros Hi Hn Hl. simpl.
  unfold Speedie.sendESPNowMessage. rewrite Hn. simpl.
  set (b0 := emit _ b).
  destruct (speedie_add_peer_extends env mac b0) as (n1 & E1 & S1 & I1).
  pose proof (speedie_add_peer_radio env mac b0) as Hr. simpl in Hr.
  change (radio b0) with (radio b) in Hr. rewrite Hn in Hr.
  set (info1 := {| peer_addr := mac; channel := wifi_channel env; encrypt := false |}) in *.
  set (info0 := {| peer_addr := mac; channel := 0%Z; encrypt := false |}) in *.
  set (b1 := Speedie.addESPNowPeer env mac b0) in *.
  assert (Hd : ∃ info, peer_addr info = mac
                       ∧ fst (esp_now_add_peer info (radio b)) = ESP_OK
                       ∧ radio b1 = snd (esp_now_add_peer info (radio b))).
  { destruct (is_ok (fst (esp_now_add_peer info1 (radio b)))) eqn:E.
    - exists info1. repeat split; [|exact Hr].
      by destruct (fst (esp_now_add_peer info1 (radio b))).
    - exists info0. repeat split; [|exact Hr].
      by apply add_peer_channel_0. }
  destruct Hd as (info & Ha & Hok & Hb1).
  destruct (add_peer_ok_entries info (radio b) Hok) as (He & Hi1 & _ & _).
  rewrite <- Hb1, Ha in He. rewrite <- Hb1, Hi in Hi1.
  assert (Hk : esp_now_is_peer_exist mac (radio b1) = true).
  { rewrite Hb1, <- Ha. by apply add_peer_registers. }
  change (radio (emit (Delay 10) b1)) with (radio b1). rewrite Hk. simpl.
  destruct (speedie_transmit_known env mac ty pl (emit (Delay 10) b1) Hi1 Hk)
    as (R2 & _ & n2 & E2 & S2 & In2 & _).
  simpl in R2, E2, S2, In2. rewrite I1 in S2, In2. change (botID b0) with (botID b) in *.
  rewrite R2. change (radio (emit (Delay 10) b1)) with (radio b1).
  split; [exact Hk|split; [exact He|]].
  eexists. split.
  - eapply extends_trans; [|exact E2].
    apply extends_emit. eapply extends_trans; [|exact E1].
    apply (extends_emit b b []), extends_refl.
  - rewrite !sends_app, S1, S2. split; [reflexivity|].
    rewrite !elem_of_app. auto.
Qed.

Lemma speedie_send_registers_and_delivers_witness :
  let b := Scenario.bot "Speedie_Bot" "" 0 (Scenario.radio_with []) in
  let b' := Speedie.sendESPNowMessage (Scenario.env Scenario.newer)
              Scenario.wheelie "heartbeat" "Speedie_Bot" b in
  esp_now_is_peer_exist Scenario.wheelie (radio b') = true
  ∧ entries Scenario.wheelie (radio b') = 1.
Proof.
  intros b b'.
  destruct (speedie_send_registers_and_delivers (Scenario.env Scenario.newer)
              Scenario.wheelie "heartbeat" "Speedie_Bot" b eq_refl eq_refl)
    as (H1 & H2 & _).
  - simpl. lia.
  - split; [exact H1|exact H2].
Defined.

(** ** Heartbeats to the known peers *)

Lemma speedie_transmit_botID (env : Env) (mac : mac_addr) (ty pl : string) (b : Bot) :
  botID (Speedie.transmit env mac ty pl b) = botID b.
Proof.
  unfold Speedie.transmit, radio_send, Speedie.log_send_error.
  repeat case_match; reflexivity.
Qed.

Lemma speedie_send_botID (env : Env) (mac : mac_addr) (ty pl : string) (b : Bot) :
  botID (Speedie.sendESPNowMessage env mac ty pl b) = botID b.
Proof.
  unfold Speedie.sendESPNowMessage.
  destruct (speedie_add_peer_extends env mac
              (emit (Serial "ESP-NOW peer %s not found, attempting to add..."
                       [AStr (macStr mac)]) b)) as (_ & _ & _ & H).
  repeat case_match; rewrite ?speedie_transmit_botID; simpl; auto.
Qed.

(** What the skip test lets through is neither the broadcast address nor
    the all-zero address. *)
Lemma not_skipped (mac : mac_addr) :
  Speedie.skipped mac = false →
  nth 0 mac x00 ≠ xff ∧ mac ≠ replicate 6 xff ∧ mac ≠ replicate 6 x00.
Proof.
  intros H. repeat split.
  - intros E. unfold Speedie.skipped in H. rewrite E in H. discriminate.
  - intros ->. discriminate.
  - intros ->. discriminate.
Qed.

Lemma speedie_heartbeat_loop_targets (env : Env) (peers : list mac_addr) (b : Bot) :
  ∃ new, extends b (Speedie.heartbeat_loop env peers b) new
         ∧ ∀ dest data, (dest, data) ∈ sends new →
             dest ∈ peers ∧ Speedie.skipped dest = false
             ∧ data = Speedie.make_message env (botID b) "heartbeat" (botID b).
Proof.
  revert b. induction peers as [|p rest IH]; intros b; simpl.
  - exists []. split; [apply extends_refl|]. intros dest data H.
    by apply elem_of_nil in H.
  - destruct (Speedie.skipped p) eqn:Es.
    + destruct (IH b) as (new & H1 & H2). exists new. split; [exact H1|].
      intros dest data H. destruct (H2 dest data H) as (? & ? & ?).
      repeat split; auto. by apply elem_of_cons; right.
    + set (b0 := emit _ b).
      destruct (speedie_send_extends env p "heartbeat" (botID b0) b0) as (n1 & E1 & S1).
      pose proof (speedie_send_botID env p "heartbeat" (botID b0) b0) as I1.
      set (b1 := Speedie.sendESPNowMessage env p "heartbeat" (botID b0) b0) in *.
      destruct (IH b1) as (n2 & E2 & S2).
      eexists. split.
      * eapply extends_trans; [|exact E2]. eapply extends_trans; [|exact E1].
        apply (extends_emit b b []), extends_refl.
      * intros dest data H. rewrite !sends_app in H. simpl in H.
        apply elem_of_app in H. destruct H as [H|H].
        -- destruct S1 as [S1|S1]; rewrite S1 in H; [by apply elem_of_nil in H|].
           apply list_elem_of_singleton in H. injection H as -> ->.
           repeat split; auto. by apply elem_of_cons; left.
        -- destruct (S2 dest data H) as (? & ? & ?).
           rewrite I1 in *. repeat split; auto. by apply elem_of_cons; right.
Qed.

(** X5: speedie_bot's [sendHeartbeatToAllPeers] never addresses the
    broadcast address or the all-zero address, whatever the table of known
    peers holds: every frame it hands to the radio goes to an entry of the
    table that passes the skip test, so its first byte is not 0xFF and it
    is not all zero, and the frame is the heartbeat frame with the bot's id
    as payload. *)
Theorem speedie_heartbeat_skips_broadcast_and_zero
    (env : Env) (peers : list mac_addr) (b : Bot) :
  ∃ new, extends b (Speedie.sendHeartbeatToAllPeers env peers b) new
         ∧ ∀ dest data, (dest, data) ∈ sends new →
             dest ∈ peers
             ∧ nth 0 dest x00 ≠ xff
             ∧ dest ≠ replicate 6 xff
             ∧ dest ≠ replicate 6 x00
             ∧ data = Speedie.make_message env (botID b) "heartbeat" (botID b).
Proof.
  unfold Speedie.sendHeartbeatToAllPeers.
  set (b0 := emit _ b).
  destruct (speedie_heartbeat_loop_targets env peers b0) as (new & H1 & H2).
  eexists. split.
  - eapply extends_trans; [|exact H1]. apply (extends_emit b b []), extends_refl.
  - intros dest data H. rewrite sends_app in H. simpl in H.
    destruct (H2 dest data H) as (Hin & Hs & Hd).
    destruct (not_skipped dest Hs) as (? & ? & ?). auto 10.
Qed.

Lemma speedie_heartbeat_loop_known (env : Env) (peers : list mac_addr) (b : Bot) :
  initialized (radio b) = true →
  (∀ p, p ∈ peers → Speedie.skipped p = false →
        esp_now_is_peer_exist p (radio b) = true) →
  let b' := Speedie.heartbeat_loop env peers b in
  radio b' = radio b
  ∧ ∃ new, extends b b' new
           ∧ send_results new
             = map (fun p => (p, ESP_OK))
                 (List.filter (fun p => negb (Speedie.skipped p)) peers).
Proof.
  simpl. revert b. induction peers as [|p rest IH]; intros b Hi Hk; simpl.
  - split; [reflexivity|]. exists []. split; [apply extends_refl|reflexivity].
  - assert (Hk' : ∀ q, q ∈ rest → Speedie.skipped q = false →
                       esp_now_is_peer_exist q (radio b) = true).
    { intros q Hq. apply Hk. by apply elem_of_cons; right. }
    destruct (Speedie.skipped p) eqn:Es; simpl.
    + by apply IH.
    + set (b0 := emit _ b).
      assert (Hp : esp_now_is_peer_exist p (radio b0) = true).
      { apply Hk; [by apply elem_of_cons; left|exact Es]. }
      unfold Speedie.sendESPNowMessage. rewrite Hp. simpl.
      destruct (speedie_transmit_known env p "heartbeat" (botID b0) b0 Hi Hp)
        as (R1 & _ & n1 & E1 & _ & _ & T1).
      set (b1 := Speedie.transmit env p "heartbeat" (botID b0) b0) in *.
      destruct (IH b1) as (R2 & n2 & E2 & T2).
      { by rewrite R1. }
      { rewrite R1. exact Hk'. }
      split; [exact (eq_trans R2 R1)|].
      eexists. split.
      * eapply extends_trans; [|exact E2]. eapply extends_trans; [|exact E1].
        apply (extends_emit b b []), extends_refl.
      * rewrite !send_results_app, T1, T2. reflexivity.
Qed.

(** X6: with the driver initialised and every entry of the table that
    passes the skip test registered, speedie_bot's
    [sendHeartbeatToAllPeers] hands the radio one frame for each such
    entry, in the order of the table, and each is accepted; the registry is
    left as it was. *)
Theorem speedie_heartbeat_reaches_every_known_peer
    (env : Env) (peers : list mac_addr) (b : Bot) :
  initialized (radio b) = true →
  (∀ p, p ∈ peers → Speedie.skipped p = false →
        esp_now_is_peer_exist p (radio b) = true) →
  let b' := Speedie.sendHeartbeatToAllPeers env peers b in
  radio b' = radio b
  ∧ ∃ new, extends b b' new
           ∧ send_results new
             = map (fun p => (p, ESP_OK))
                 (List.filter (fun p => negb (Speedie.skipped p)) peers).
Proof.
  intros Hi Hk. simpl. unfold Speedie.sendHeartbeatToAllPeers.
  set (b0 := emit _ b).
  destruct (speedie_heartbeat_loop_known env peers b0 Hi Hk) as (R & new & E & T).
  split; [exact R|].
  eexists. split.
  - eapply extends_trans; [|exact E]. apply (extends_emit b b []), extends_refl.
  - rewrite send_results_app. exact T.
Qed.

Lemma speedie_heartbeat_reaches_every_known_peer_witness :
  let table := [replicate 6 xff; Scenario.wheelie; replicate 6 x00] in
  let b := Scenario.bot "Speedie_Bot" "" 0 (Scenario.radio_with [Scenario.wheelie]) in
  send_results (trace (Speedie.sendHeartbeatToAllPeers (Scenario.env Scenario.newer)
                         table b))
  = [(Scenario.wheelie, ESP_OK)].
Proof.
  intros table b.
  destruct (speedie_heartbeat_reaches_every_known_peer (Scenario.env Scenario.newer)
              table b eq_refl) as (_ & new & E & T).
  - intros p Hp Hs.
    apply elem_of_cons in Hp as [->|Hp]; [discriminate|].
    apply elem_of_cons in Hp as [->|Hp]; [reflexivity|].
    apply list_elem_of_singleton in Hp as ->. discriminate.
  - unfold extends in E. rewrite E. exact T.
Defined.

(** X7: the template's [sendHeartbeatToAllPeers] hands the radio one
    frame for every entry of the table, in the order of the table and
    without looking at the registry; on an initialised driver the entries
    that are registered are accepted and every other one is refused as not
    found, and nothing is registered on the way. *)
Theorem template_heartbeat_one_request_per_entry
    (env : Env) (peers : list (mac_addr * string)) (b : Bot) :
  initialized (radio b) = true →
  let b' := Template.sendHeartbeatToAllPeers env peers b in
  radio b' = radio b
  ∧ send_results (trace b')
    = send_results (trace b)
        ++ map (fun p => (fst p,
                          if esp_now_is_peer_exist (fst p) (radio b) then ESP_OK
                          else ESP_ERR_ESPNOW_NOT_FOUND)) peers.
Proof.
  intros Hi. simpl. unfold Template.sendHeartbeatToAllPeers.
  set (b0 := emit _ b).
  assert (H : ∀ b1, radio b1 = radio b →
            radio (Template.heartbeat_loop env peers b1) = radio b
            ∧ send_results (trace (Template.heartbeat_loop env peers b1))
              = send_results (trace b1)
                  ++ map (fun p => (fst p,
                                    if esp_now_is_peer_exist (fst p) (radio b) then ESP_OK
                                    else ESP_ERR_ESPNOW_NOT_FOUND)) peers).
  { induction peers as [|[mac name] rest IH]; intros b1 Hr; simpl.
    - by rewrite app_nil_r.
    - set (b2 := emit _ b1). change (botID b1) with (botID b2).
      assert (Hi2 : initialized (radio b2) = true) by (simpl; by rewrite Hr).
      destruct (template_send_never_registers_core env mac "heartbeat" (botID b2) b2 Hi2)
        as [R T].
      destruct (IH (Template.sendESPNowMessage env mac "heartbeat" (botID b2) b2))
        as [R' T'].
      { rewrite R. exact Hr. }
      split; [exact R'|].
      rewrite T', T. change (radio b2) with (radio b1). rewrite Hr.
      change (trace b2) with (trace b1 ++ [Serial "Sending heartbeat to peer: %s" [AStr name]]).
      rewrite send_results_app. simpl. by rewrite app_nil_r, <- app_assoc. }
  destruct (H b0 eq_refl) as [R T]. split; [exact R|].
  rewrite T. simpl. rewrite send_results_app. simpl. by rewrite app_nil_r.
Qed.

Lemma template_heartbeat_one_request_per_entry_witness :
  let b := Scenario.bot "Temperature_Sensor" "" 0
             (Scenario.radio_with [Scenario.wheelie]) in
  send_results (trace (Template.sendHeartbeatToAllPeers (Scenario.env Scenario.newer)
                         Template.KNOWN_PEERS b))
  = [(Scenario.wheelie, ESP_OK);
     ([x20; xe7; xc8; x59; x5d; x08], ESP_ERR_ESPNOW_NOT_FOUND)].
Proof.
  intros b.
  destruct (template_heartbeat_one_request_per_entry (Scenario.env Scenario.newer)
              Template.KNOWN_PEERS b eq_refl) as [_ T].
  exact T.
Defined.

(** ** bot_wifi_client among the other sketches *)

Lemma wifi_client_send_results (env : Env) (mac : mac_addr) (ty pl : string) (b : Bot) :
  initialized (radio b) = true →
  let b' := WifiClient.sendESPNowMessage env mac ty pl b in
  radio b' = radio b ∧ botID b' = botID b
  ∧ send_results (trace b') = send_results (trace b) ++ [(mac, ESP_ERR_ESPNOW_ARG)].
Proof.
  intros Hi. simpl. unfold WifiClient.sendESPNowMessage, radio_send.
  rewrite wifi_client_make_message_length.
  unfold esp_now_send. rewrite Hi. simpl.
  rewrite !send_results_app. simpl. by rewrite app_nil_r.
Qed.

Lemma wifi_client_heartbeat_step (env : Env) (b : Bot) :
  initialized (radio b) = true →
  let b' := WifiClient.heartbeat_step env b in
  initialized (radio b') = true
  ∧ peer_list (radio b') = peer_list (radio b)
  ∧ botID b' = botID b
  ∧ send_results (trace b')
    = send_results (trace b)
        ++ match list_find (fun p => is_unicast p = true) (peer_list (radio b)) with
           | Some (_, p) => [(peer_addr p, ESP_ERR_ESPNOW_ARG)]
           | None => []
           end.
Proof.
  intros Hi. simpl.
  unfold WifiClient.heartbeat_step, esp_now_fetch_peer.
  rewrite Hi. simpl. rewrite drop_0.
  destruct (list_find _ (peer_list (radio b))) as [[i p]|] eqn:Ef; simpl.
  - set (b1 := set_radio _ b).
    destruct (wifi_client_send_results env (peer_addr p) "heartbeat" (botID b1) b1)
      as (R & I & T); [reflexivity|].
    change (botID b1) with (botID b) in *.
    rewrite R, I, T. auto.
  - rewrite app_nil_r. auto.
Qed.

Lemma wifi_client_heartbeat_loop (turns : nat) (env : Env) (b : Bot) :
  initialized (radio b) = true →
  send_results (trace (WifiClient.heartbeat_loop turns env b))
  = send_results (trace b)
      ++ match list_find (fun p => is_unicast p = true) (peer_list (radio b)) with
         | Some (_, p) => replicate turns (peer_addr p, ESP_ERR_ESPNOW_ARG)
         | None => []
         end.
Proof.
  revert b. induction turns as [|turns IH]; intros b Hi; simpl.
  - by repeat case_match; rewrite ?app_nil_r.
  - destruct (wifi_client_heartbeat_step env b Hi) as (Hi' & Hl & _ & T).
    rewrite IH by exact Hi'. rewrite Hl, T.
    destruct (list_find _ (peer_list (radio b))) as [[i p]|]; simpl;
      by rewrite <- app_assoc.
Qed.

(** X8: bot_wifi_client's [sendHeartbeatToAllPeers] asks the driver
    for the peer at the head of its list on every turn of its loop.  On an
    initialised driver it therefore makes as many requests as the registry
    has entries, the broadcast entry [setup] registers included, every one
    of them for the first unicast peer and every one refused, the frame
    being 252 bytes; with no unicast peer registered it makes none. *)
Theorem wifi_client_heartbeats_target_first_unicast_peer (env : Env) (b : Bot) :
  initialized (radio b) = true →
  send_results (trace (WifiClient.sendHeartbeatToAllPeers env b))
  = send_results (trace b)
      ++ match list_find (fun p => is_unicast p = true) (peer_list (radio b)) with
         | Some (_, p) =>
             replicate (length (peer_list (radio b)))
               (peer_addr p, ESP_ERR_ESPNOW_ARG)
         | None => []
         end.
Proof. intros Hi. by apply wifi_client_heartbeat_loop. Qed.

Lemma wifi_client_heartbeats_target_first_unicast_peer_witness :
  let b0 := Scenario.bot "ESP32_Bot_a1b2c3" "" 0 (Scenario.radio_with []) in
  let b := WifiClient.addESPNowPeer Scenario.second_peer
             (WifiClient.addESPNowPeer Scenario.first_peer
                (WifiClient.addESPNowPeer (replicate 6 xff) b0)) in
  send_results (trace (WifiClient.sendHeartbeatToAllPeers (Scenario.env Scenario.newer) b))
  = replicate 3 (Scenario.first_peer, ESP_ERR_ESPNOW_ARG).
Proof.
  intros b0 b.
  exact (wifi_client_heartbeats_target_first_unicast_peer
           (Scenario.env Scenario.newer) b eq_refl).
Defined.

(** X9: a frame of speedie_bot (the template builds the same one) that
    reaches bot_wifi_client is read with the wrong offsets.
    bot_wifi_client looks for the type at byte 32 and for the payload at
    byte 48, where the 168-byte frame has the ninth character of its type
    and the thirteenth of its payload: the handler logs and reports the
    type without its first 8 characters and the payload without its first
    12. *)
Theorem wifi_client_misreads_speedie_frame
    (cfg : Config) (env env' : Env) (mac : mac_addr) (id ty pl : string) (b : Bot) :
  let frame := Speedie.make_message env id ty pl in
  let ty' := string_of_list_byte (drop 8 (take 11 (C.c_str ty))) in
  let pl' := string_of_list_byte (drop 12 (take 127 (C.c_str pl))) in
  let line := Serial "ESP-NOW received from %s: %s" [AStr (macStr mac); AStr pl'] in
  let report :=
    JObj [("sender_mac", JStr (macStr mac));
          ("receiver_mac", JStr (macStr (wifi_mac env')));
          ("message_type", JStr ty');
          ("payload", JObj [("data", JStr pl'); ("reported_by", JStr (botID b))])] in
  C.read_cstr frame WifiClient.off_message_type = ty'
  ∧ C.read_cstr frame WifiClient.off_payload = pl'
  ∧ (trace (WifiClient.onESPNowReceive cfg env' mac frame b) = trace b ++ [line]
     ∨ ∃ url headers,
         trace (WifiClient.onESPNowReceive cfg env' mac frame b)
         = trace b ++ [line; HttpPost url headers report]).
Proof.
  simpl.
  assert (Hty : C.read_cstr (Speedie.make_message env id ty pl) WifiClient.off_message_type
                = string_of_list_byte (drop 8 (take 11 (C.c_str ty)))).
  { rewrite speedie_make_message_image. unfold C.read_cstr.
    change WifiClient.off_message_type with 32.
    rewrite drop_frame_image_32. by rewrite chars_drop_cfield by lia. }
  assert (Hpl : C.read_cstr (Speedie.make_message env id ty pl) WifiClient.off_payload
                = string_of_list_byte (drop 12 (take 127 (C.c_str pl)))).
  { rewrite speedie_make_message_image. unfold C.read_cstr.
    change WifiClient.off_payload with 48.
    rewrite drop_frame_image_48. by rewrite chars_drop_cfield by lia. }
  split; [exact Hty|split; [exact Hpl|]].
  unfold WifiClient.onESPNowReceive, WifiClient.sendESPNowActivity.
  rewrite Hty, Hpl.
  destruct (_ || _); simpl.
  - by left.
  - right. do 2 eexists. rewrite <- app_assoc. reflexivity.
Qed.

Lemma lookup_strncpy_outside (buf : list byte) (off : nat) (src : list byte) (n i : nat) :
  off + n ≤ length buf → i < off ∨ off + n ≤ i →
  C.strncpy buf off src n !! i = buf !! i.
Proof.
  intros Hl Hi. unfold C.strncpy.
  assert (Ht : length (take off buf) = off) by (rewrite length_take; lia).
  destruct Hi as [Hi|Hi].
  - rewrite lookup_app_l by lia. apply lookup_take_lt. lia.
  - rewrite lookup_app_r by lia.
    rewrite app_assoc, lookup_app_r by (rewrite length_padded; lia).
    rewrite length_padded, Ht, lookup_drop. f_equal. lia.
Qed.

Lemma lookup_store_u32_before (buf : list byte) (off : nat) (v : Z) (i : nat) :
  off ≤ length buf → i < off → C.store_u32 buf off v !! i = buf !! i.
Proof.
  intros Hl Hi. unfold C.store_u32.
  rewrite lookup_app_l by (rewrite length_take; lia). apply lookup_take_lt. lia.
Qed.

Lemma lookup_strncpy_inside (buf : list byte) (off : nat) (src : list byte) (n i : nat) :
  off ≤ length buf → i < length (take n (C.chars src)) →
  C.strncpy buf off src n !! (off + i) = take n (C.chars src) !! i.
Proof.
  intros Hl Hi. unfold C.strncpy.
  assert (Ht : length (take off buf) = off) by (rewrite length_take; lia).
  rewrite lookup_app_r by lia. rewrite Ht.
  replace (off + i - off) with i by lia.
  by rewrite lookup_app_l by lia.
Qed.

(** A buffer that starts with [k] bytes other than NUL holds a C string of
    [k] characters at least. *)
Lemma chars_length_ge (k : nat) (l : list byte) :
  (∀ i, i < k → ∃ c, l !! i = Some c ∧ c ≠ x00) → k ≤ length (C.chars l).
Proof.
  revert l. induction k as [|k IH]; intros l H; [lia|].
  destruct (H 0) as (c & Hc & Hn); [lia|].
  destruct l as [|c' l]; [discriminate|]. simpl in Hc. injection Hc as ->.
  simpl. destruct (Byte.eqb c x00) eqn:E.
  { apply byte_dec_bl in E. contradiction. }
  simpl. apply le_n_S, IH. intros i Hi. apply (H (S i)). lia.
Qed.

Lemma length_string_of_list_byte (l : list byte) :
  String.length (string_of_list_byte l) = length l.
Proof.
  by rewrite <- length_list_byte_of_string, list_byte_of_string_of_list_byte.
Qed.

(** X10: bot_wifi_client copies with [strncpy] and one byte less
    than each array, stores no terminator and does not clear its local
    frame.  So in every frame it builds the last byte of [sender_id], of
    [message_type] and of [payload] (bytes 31, 47 and 247) is whatever the
    stack held there, for every sender id, type and payload; and a payload
    of 199 characters or more is not terminated inside its array: when the
    stack byte behind it is not NUL, the string read from the payload field
    has more than the 199 characters that were copied. *)
Theorem wifi_client_frame_keeps_stack_bytes (env : Env) (id ty pl : string) :
  let stale := C.uninitialized (stack env) WifiClient.sizeof_message in
  let frame := WifiClient.make_message env id ty pl in
  frame !! 31 = stale !! 31 ∧ frame !! 47 = stale !! 47 ∧ frame !! 247 = stale !! 247
  ∧ (199 ≤ C.strlen pl →
     ∀ c, stale !! 247 = Some c → c ≠ x00 →
          199 < String.length (C.read_cstr frame WifiClient.off_payload)).
Proof.
  simpl. unfold WifiClient.make_message, WifiClient.sizeof_message,
    WifiClient.off_timestamp, WifiClient.off_payload,
    WifiClient.off_message_type, WifiClient.off_sender_id.
  pose proof (length_uninitialized (stack env) 252) as Hg.
  set (g := C.uninitialized (stack env) 252) in *.
  assert (H1 : length (C.strncpy g 0 (C.c_str id) (32 - 1)) = 252)
    by (rewrite length_strncpy; simpl; lia).
  set (m1 := C.strncpy g 0 _ _) in *.
  assert (H2 : length (C.strncpy m1 32 (C.c_str ty) (16 - 1)) = 252)
    by (rewrite length_strncpy; simpl; lia).
  set (m2 := C.strncpy m1 32 _ _) in *.
  assert (H3 : length (C.strncpy m2 48 (C.c_str pl) (200 - 1)) = 252)
    by (rewrite length_strncpy; simpl; lia).
  set (m3 := C.strncpy m2 48 _ _) in *.
  assert (Hk : ∀ i, i = 31 ∨ i = 47 ∨ i = 247 → C.store_u32 m3 248 (millis env) !! i = g !! i).
  { intros i Hi.
    rewrite lookup_store_u32_before by lia.
    subst m3. rewrite lookup_strncpy_outside by (simpl; lia).
    subst m2. rewrite lookup_strncpy_outside by (simpl; lia).
    subst m1. rewrite lookup_strncpy_outside by (simpl; lia).
    reflexivity. }
  split; [apply Hk; auto|]. split; [apply Hk; auto|]. split; [apply Hk; auto|].
  intros Hpl c Hc Hn. unfold C.strlen in Hpl.
  unfold C.read_cstr. rewrite length_string_of_list_byte.
  apply (chars_length_ge 200). intros i Hi. rewrite lookup_drop.
  destruct (decide (i = 199)) as [->|Hne].
  - exists c. split; [|exact Hn]. change (48 + 199) with 247.
    rewrite Hk by auto. exact Hc.
  - rewrite lookup_store_u32_before by lia.
    assert (Ht : length (take (200 - 1) (C.chars (C.c_str pl))) = 199).
    { rewrite chars_c_str, length_take. lia. }
    subst m3. rewrite lookup_strncpy_inside by lia.
    destruct (take (200 - 1) (C.chars (C.c_str pl)) !! i) as [x|] eqn:Ex.
    + exists x. split; [reflexivity|].
      pose proof (chars_take_no_nul (200 - 1) (C.c_str pl)) as Hf.
      rewrite Forall_lookup in Hf. exact (Hf i x Ex).
    + apply lookup_ge_None in Ex. lia.
Qed.

(** ** The template's discovery *)

(** X11: the template's [discoverMCPServer] assigns the endpoint on
    every path.  It returns true exactly when the mDNS responder started
    and a service answered, and the endpoint is then the first answer; in
    every other case, a responder that cannot be set up included, it
    returns false and the endpoint is the configured fallback host with
    port 8081, whatever endpoint the bot held before. *)
Theorem template_discovery_always_assigns (cfg : Config) (env : Env) (b : Bot) :
  let r := Template.discoverMCPServer cfg env b in
  (fst r = true ↔ mdns_begin env = true ∧ mdns_services env ≠ [])
  ∧ (fst r = true →
     (mcpServerIP (snd r), mcpServerPort (snd r)) = nth 0 (mdns_services env) ("", 0%Z))
  ∧ (fst r = false →
     mcpServerIP (snd r) = C.String_ (MCP_SERVER_IP_FALLBACK cfg)
     ∧ mcpServerPort (snd r) = 8081%Z).
Proof.
  simpl. unfold Template.discoverMCPServer.
  destruct (mdns_begin env); simpl.
  - destruct (mdns_services env) as [|[ip port] l]; simpl.
    + repeat split; try discriminate; intros [_ H]; congruence.
    + repeat split; try discriminate; auto.
  - repeat split; try discriminate. intros [H _]. discriminate.
Qed.

Lemma template_discovery_no_post (cfg : Config) (env : Env) (b : Bot) :
  http_posts (trace (snd (Template.discoverMCPServer cfg env b))) = http_posts (trace b).
Proof.
  unfold Template.discoverMCPServer.
  repeat case_match; simpl; rewrite ?http_posts_app; simpl; by rewrite ?app_nil_r.
Qed.

Lemma template_report_with_endpoint (cfg : Config) (env : Env) (b : Bot) :
  wifi_connected env = true → mcpServerIP b ≠ "" →
  http_posts (trace (Template.sendStatusToMCP cfg env b))
  = http_posts (trace b)
      ++ ["http://" +:+ mcpServerIP b +:+ ":"
            +:+ Arduino.String_of_int (mcpServerPort b) +:+ mcpStatusEndpoint].
Proof.
  intros Hw Hs. unfold Template.sendStatusToMCP. rewrite Hw. simpl.
  destruct (Arduino.equals (mcpServerIP b) "") eqn:E.
  { apply equals_empty in E. contradiction. }
  destruct (0 <? http_post_code env)%Z; simpl;
    rewrite !http_posts_app; simpl; by rewrite app_nil_r.
Qed.

(** X12: in the template a discovery that returns false still leaves
    a usable endpoint.  With WiFi up and a fallback host configured, the
    status report that follows a failed discovery is posted to the fallback
    host on port 8081. *)
Theorem template_reports_to_fallback_after_failed_discovery
    (cfg : Config) (env : Env) (b : Bot) :
  wifi_connected env = true →
  C.String_ (MCP_SERVER_IP_FALLBACK cfg) ≠ "" →
  fst (Template.discoverMCPServer cfg env b) = false →
  let b' := snd (Template.discoverMCPServer cfg env b) in
  http_posts (trace (Template.sendStatusToMCP cfg env b'))
  = http_posts (trace b)
      ++ ["http://" +:+ C.String_ (MCP_SERVER_IP_FALLBACK cfg) +:+ ":8081/api/bot/status"].
Proof.
  intros Hw Hf Hd b'.
  assert (Hs : mcpServerIP b' = C.String_ (MCP_SERVER_IP_FALLBACK cfg)
               ∧ mcpServerPort b' = 8081%Z).
  { subst b'. revert Hd. unfold Template.discoverMCPServer.
    repeat case_match; simpl; intros; simplify_eq; auto. }
  destruct Hs as [Hip Hport].
  rewrite template_report_with_endpoint by (rewrite ?Hip; auto).
  rewrite Hip, Hport. subst b'. rewrite template_discovery_no_post.
  reflexivity.
Qed.

Lemma template_reports_to_fallback_after_failed_discovery_witness :
  let env := Scenario.env Scenario.newer in
  let b := Scenario.bot "Temperature_Sensor" "10.0.0.7" 9000 (Scenario.radio_with []) in
  http_posts (trace (Template.sendStatusToMCP Template.config env
                       (snd (Template.discoverMCPServer Template.config env b))))
  = ["http://192.168.1.130:8081/api/bot/status"].
Proof.
  intros env b.
  exact (template_reports_to_fallback_after_failed_discovery Template.config env b
           eq_refl ltac:(discriminate) eq_refl).
Defined.

(** ** Reports of received frames *)

Lemma template_activity_posts (cfg : Config) (env : Env) (s r ty pl : string) (b : Bot) :
  wifi_connected env = true → mcpServerIP b ≠ "" →
  let b' := Template.sendESPNowActivity cfg env s r ty pl b in
  mcpServerIP b' = mcpServerIP b ∧ mcpServerPort b' = mcpServerPort b
  ∧ http_posts (trace b')
    = http_posts (trace b)
        ++ ["http://" +:+ mcpServerIP b +:+ ":"
              +:+ Arduino.String_of_int (mcpServerPort b) +:+ mcpESPNowEndpoint].
Proof.
  intros Hw Hs. simpl. unfold Template.sendESPNowActivity. rewrite Hw. simpl.
  destruct (Arduino.equals (mcpServerIP b) "") eqn:E.
  { apply equals_empty in E. contradiction. }
  simpl. by rewrite http_posts_app.
Qed.

Lemma template_send_no_post (env : Env) (mac : mac_addr) (ty pl : string) (b : Bot) :
  let b' := Template.sendESPNowMessage env mac ty pl b in
  mcpServerIP b' = mcpServerIP b ∧ mcpServerPort b' = mcpServerPort b
  ∧ http_posts (trace b') = http_posts (trace b).
Proof.
  simpl. unfold Template.sendESPNowMessage, radio_send.
  destruct (is_ok _); simpl; rewrite !http_posts_app; simpl;
    by rewrite !app_nil_r.
Qed.

Lemma template_respond_posts (cfg : Config) (env : Env) (mac : mac_addr)
    (ty : string) (b : Bot) :
  wifi_connected env = true → mcpServerIP b ≠ "" →
  let b' := Template.respondToPeerMessage cfg env mac ty b in
  mcpServerIP b' = mcpServerIP b ∧ mcpServerPort b' = mcpServerPort b
  ∧ http_posts (trace b')
    = http_posts (trace b)
        ++ ["http://" +:+ mcpServerIP b +:+ ":"
              +:+ Arduino.String_of_int (mcpServerPort b) +:+ mcpESPNowEndpoint].
Proof.
  intros Hw Hs. simpl. unfold Template.respondToPeerMessage.
  set (b0 := emit _ b).
  destruct (template_send_no_post env mac ty (botID b0 +:+ "_response") b0)
    as (I1 & P1 & T1).
  set (b1 := Template.sendESPNowMessage env mac ty (botID b0 +:+ "_response") b0) in *.
  destruct (template_activity_posts cfg env (macStr mac) "self" ty
              (botID b0 +:+ "_response") b1 Hw) as (I2 & P2 & T2).
  { by rewrite I1. }
  change (botID b) with (botID b0).
  rewrite I2, P2, T2, I1, P1, T1. simpl.
  rewrite http_posts_app. simpl. by rewrite app_nil_r.
Qed.

Lemma speedie_add_peer_no_post (env : Env) (mac : mac_addr) (b : Bot) :
  let b' := Speedie.addESPNowPeer env mac b in
  mcpServerIP b' = mcpServerIP b ∧ mcpServerPort b' = mcpServerPort b
  ∧ http_posts (trace b') = http_posts (trace b).
Proof.
  simpl. unfold Speedie.addESPNowPeer, radio_add_peer.
  repeat case_match; simplify_eq; simpl;
    rewrite ?http_posts_app; simpl; by rewrite ?app_nil_r.
Qed.

Lemma speedie_transmit_no_post (env : Env) (mac : mac_addr) (ty pl : string) (b : Bot) :
  let b' := Speedie.transmit env mac ty pl b in
  mcpServerIP b' = mcpServerIP b ∧ mcpServerPort b' = mcpServerPort b
  ∧ http_posts (trace b') = http_posts (trace b).
Proof.
  simpl. unfold Speedie.transmit, radio_send, Speedie.log_send_error.
  destruct (esp_now_send _ _ _); simpl;
    rewrite ?http_posts_app; simpl; by rewrite ?app_nil_r.
Qed.

Lemma speedie_send_no_post (env : Env) (mac : mac_addr) (ty pl : string) (b : Bot) :
  let b' := Speedie.sendESPNowMessage env mac ty pl b in
  mcpServerIP b' = mcpServerIP b ∧ mcpServerPort b' = mcpServerPort b
  ∧ http_posts (trace b') = http_posts (trace b).
Proof.
  cbv zeta. unfold Speedie.sendESPNowMessage.
  destruct (esp_now_is_peer_exist mac (radio b)); cbn [negb];
    [apply speedie_transmit_no_post|].
  set (b0 := emit _ b).
  destruct (speedie_add_peer_no_post env mac b0) as (I1 & P1 & T1).
  set (b1 := Speedie.addESPNowPeer env mac b0) in *.
  assert (H0 : mcpServerIP (emit (Delay 10) b1) = mcpServerIP b
               ∧ mcpServerPort (emit (Delay 10) b1) = mcpServerPort b
               ∧ http_posts (trace (emit (Delay 10) b1)) = http_posts (trace b)).
  { simpl. rewrite I1, P1, http_posts_app, T1. simpl.
    rewrite http_posts_app. simpl. by rewrite !app_nil_r. }
  destruct H0 as (I0 & P0 & T0).
  set (b2 := emit (Delay 10) b1) in *.
  destruct (esp_now_is_peer_exist mac (radio b2)); cbn [negb].
  - destruct (speedie_transmit_no_post env mac ty pl b2) as (I2 & P2 & T2).
    rewrite I2, P2, T2. auto.
  - split; [exact I0|split; [exact P0|]].
    unfold emit at 1. cbn [trace]. rewrite http_posts_app, T0. simpl.
    by rewrite app_nil_r.
Qed.

(** X13: what a received frame costs in requests to the server, with
    WiFi up and the server known.  The receive handler of the template
    posts to the ESP-NOW activity path twice for a heartbeat or a status
    frame, once for the reply and once for the frame, and once for any other
    frame; the handler of speedie_bot posts once for every frame.  All of
    it happens inside the receive callback. *)
Theorem received_frame_is_reported
    (cfg : Config) (env : Env) (mac : mac_addr) (incomingData : list byte) (b : Bot) :
  wifi_connected env = true → mcpServerIP b ≠ "" →
  let url := "http://" +:+ mcpServerIP b +:+ ":"
               +:+ Arduino.String_of_int (mcpServerPort b) +:+ mcpESPNowEndpoint in
  let msgType := C.read_cstr incomingData 24 in
  http_posts (trace (Template.onESPNowReceive cfg env mac incomingData b))
  = http_posts (trace b)
      ++ (if Arduino.equals msgType "heartbeat" || Arduino.equals msgType "status"
          then [url; url] else [url])
  ∧ http_posts (trace (Speedie.onESPNowReceive cfg env mac incomingData b))
    = http_posts (trace b) ++ [url].
Proof.
  intros Hw Hs. simpl. split.
  - unfold Template.onESPNowReceive.
    change Template.off_message_type with 24.
    set (ty := C.read_cstr incomingData 24).
    match goal with |- http_posts (trace (Template.sendESPNowActivity _ _ _ _ _ _ ?x)) = _ =>
      set (b1 := x) end.
    assert (H1 : mcpServerIP b1 = mcpServerIP b ∧ mcpServerPort b1 = mcpServerPort b
                 ∧ http_posts (trace b1)
                   = http_posts (trace b)
                       ++ (if Arduino.equals ty "heartbeat" || Arduino.equals ty "status"
                           then ["http://" +:+ mcpServerIP b +:+ ":"
                                   +:+ Arduino.String_of_int (mcpServerPort b)
                                   +:+ mcpESPNowEndpoint]
                           else [])).
    { subst b1.
      destruct (Arduino.equals ty "heartbeat"); simpl.
      - match goal with |- context [Template.respondToPeerMessage _ _ _ _ ?x] =>
          destruct (template_respond_posts cfg env mac "heartbeat_ack" x Hw Hs)
            as (I & P & T) end.
        rewrite I, P, T. simpl. rewrite !http_posts_app. simpl.
        by rewrite !app_nil_r.
      - destruct (Arduino.equals ty "status"); simpl.
        + match goal with |- context [Template.respondToPeerMessage _ _ _ _ ?x] =>
            destruct (template_respond_posts cfg env mac "status_ack" x Hw Hs)
              as (I & P & T) end.
          rewrite I, P, T. simpl. rewrite !http_posts_app. simpl.
          by rewrite !app_nil_r.
        + destruct (Arduino.endsWith ty "_ack"); simpl;
            rewrite !http_posts_app; simpl; by rewrite !app_nil_r. }
    destruct H1 as (I1 & P1 & T1).
    destruct (template_activity_posts cfg env (macStr mac) "self" ty
                (C.read_cstr incomingData Template.off_payload) b1 Hw)
      as (_ & _ & T2).
    { by rewrite I1. }
    rewrite T2, T1, I1, P1.
    destruct (_ || _); by rewrite <- app_assoc.
  - unfold Speedie.onESPNowReceive.
    set (ty := C.read_cstr incomingData Speedie.off_message_type).
    match goal with |- http_posts (trace (Speedie.sendESPNowActivity _ _ _ _ _ _ ?x)) = _ =>
      set (b1 := x) end.
    assert (H1 : mcpServerIP b1 = mcpServerIP b ∧ mcpServerPort b1 = mcpServerPort b
                 ∧ http_posts (trace b1) = http_posts (trace b)).
    { subst b1. unfold Speedie.respondToPeerMessage.
      repeat case_match;
        try match goal with |- context [Speedie.sendESPNowMessage ?e ?m ?t ?p ?x] =>
          destruct (speedie_send_no_post e m t p x) as (I & P & T);
          rewrite I, P, T end;
        simpl; rewrite !http_posts_app; simpl; by rewrite !app_nil_r. }
    destruct H1 as (I1 & P1 & T1).
    unfold Speedie.sendESPNowActivity. rewrite Hw, I1, P1. simpl.
    destruct (Arduino.equals (mcpServerIP b) "") eqn:E.
    { apply equals_empty in E. contradiction. }
    simpl. by rewrite http_posts_app, T1.
Qed.

Lemma received_frame_is_reported_witness :
  let env := Scenario.env Scenario.newer in
  let b := Scenario.bot "Temperature_Sensor" "192.168.1.130" 8081
             (Scenario.radio_with [Scenario.wheelie]) in
  let heartbeat := Template.make_message env "Wheelie_Bot" "heartbeat" "Wheelie_Bot" in
  http_posts (trace (Template.onESPNowReceive Template.config env Scenario.wheelie
                       heartbeat b))
  = ["http://192.168.1.130:8081/api/esp-now/message";
     "http://192.168.1.130:8081/api/esp-now/message"]
  ∧ http_posts (trace (Speedie.onESPNowReceive Template.config env Scenario.wheelie
                         heartbeat b))
    = ["http://192.168.1.130:8081/api/esp-now/message"].
Proof.
  intros env b heartbeat.
  exact (received_frame_is_reported Template.config env Scenario.wheelie heartbeat b
           eq_refl ltac:(discriminate)).
Defined.

(** ** esp_now_example: addresses *)

(** Two hexadecimal digits printed with [%02X] are parsed back to the
    byte. *)
Lemma parse_hex2 (b : byte) : C.byte_of_Z (C.strtol_16 (C.c_str (hex2 b))) = b.
Proof. destruct b; reflexivity. Qed.

(** [parseMacAddress] on a string of 17 characters: only the characters at
    the six pairs of digit positions are looked at. *)
Lemma parse_17_characters (c0 c1 c2 c3 c4 c5 c6 c7 c8 c9 c10 c11 c12 c13 c14 c15 c16 : ascii)
    (u0 u1 u2 u3 u4 u5 : byte) :
  let pair x y := C.byte_of_Z (C.strtol_16 (C.c_str (String x (String y "")))) in
  EspNowExample.parseMacAddress
    (String c0 (String c1 (String c2 (String c3 (String c4 (String c5
       (String c6 (String c7 (String c8 (String c9 (String c10 (String c11
          (String c12 (String c13 (String c14 (String c15 (String c16 "")))))))))))))))))
    [u0; u1; u2; u3; u4; u5]
  = (true, [pair c0 c1; pair c3 c4; pair c6 c7; pair c9 c10; pair c12 c13; pair c15 c16]).
Proof. reflexivity. Qed.

(** X14: [parseMacAddress] reads back what the sketch prints.  For
    every address of six bytes, the text the callbacks print for it with
    [%02X:%02X:%02X:%02X:%02X:%02X] is accepted and stored in the caller's
    array as the same six bytes. *)
Theorem parse_mac_round_trip (mac buf : mac_addr) :
  length mac = 6 → length buf = 6 →
  EspNowExample.parseMacAddress (macStr mac) buf = (true, mac).
Proof.
  intros Hm Hb.
  destruct mac as [|b0 [|b1 [|b2 [|b3 [|b4 [|b5 [|]]]]]]]; try discriminate Hm.
  destruct buf as [|u0 [|u1 [|u2 [|u3 [|u4 [|u5 [|]]]]]]]; try discriminate Hb.
  etrans.
  - exact (parse_17_characters
             (hex_digit (Byte.to_N b0 / 16)) (hex_digit (Byte.to_N b0 mod 16)) ":"
             (hex_digit (Byte.to_N b1 / 16)) (hex_digit (Byte.to_N b1 mod 16)) ":"
             (hex_digit (Byte.to_N b2 / 16)) (hex_digit (Byte.to_N b2 mod 16)) ":"
             (hex_digit (Byte.to_N b3 / 16)) (hex_digit (Byte.to_N b3 mod 16)) ":"
             (hex_digit (Byte.to_N b4 / 16)) (hex_digit (Byte.to_N b4 mod 16)) ":"
             (hex_digit (Byte.to_N b5 / 16)) (hex_digit (Byte.to_N b5 mod 16))
             u0 u1 u2 u3 u4 u5).
  - exact (f_equal (pair true)
             (f_equal2 cons (parse_hex2 b0)
                (f_equal2 cons (parse_hex2 b1)
                   (f_equal2 cons (parse_hex2 b2)
                      (f_equal2 cons (parse_hex2 b3)
                         (f_equal2 cons (parse_hex2 b4)
                            (f_equal2 cons (parse_hex2 b5) eq_refl))))))).
Qed.

Lemma parse_mac_round_trip_witness :
  EspNowExample.parseMacAddress "24:6F:28:AA:BB:CC" (replicate 6 x00)
  = (true, Scenario.first_peer).
Proof.
  exact (parse_mac_round_trip Scenario.first_peer (replicate 6 x00) eq_refl eq_refl).
Defined.

(** ** esp_now_example: peers and direct messages *)

Lemma example_add_step (mac : mac_addr) (b : Bot) :
  let info := {| peer_addr := mac; channel := 0; encrypt := false |} in
  let b' := (if is_ok (fst (radio_add_peer info b))
             then emit (Serial "Added peer: %02X:%02X:%02X:%02X:%02X:%02X" [AMac mac])
                    (snd (radio_add_peer info b))
             else snd (radio_add_peer info b)) in
  radio b' = snd (esp_now_add_peer info (radio b)).
Proof.
  simpl. unfold radio_add_peer.
  destruct (esp_now_add_peer _ (radio b)) as [r d]. simpl.
  by destruct (is_ok r).
Qed.

Lemma example_add_peers_loop (peers : list mac_addr) (b : Bot) :
  initialized (radio b) = true →
  length (peer_list (radio b)) + length peers ≤ 20 →
  let b' := EspNowExample.add_peers_loop peers b in
  initialized (radio b') = true
  ∧ (∀ p, p ∈ peers → esp_now_is_peer_exist p (radio b') = true)
  ∧ (∀ m, esp_now_is_peer_exist m (radio b) = true →
          esp_now_is_peer_exist m (radio b') = true)
  ∧ (∀ m, entries m (radio b) ≤ 1 → entries m (radio b') ≤ 1)
  ∧ length (peer_list (radio b')) ≤ length (peer_list (radio b)) + length peers.
Proof.
  simpl. revert b. induction peers as [|p rest IH]; intros b Hi Hl.
  - simpl. split; [exact Hi|]. split; [|split; [|split]]; auto; [|lia].
    intros q Hq. by apply elem_of_nil in Hq.
  - cbn [EspNowExample.add_peers_loop].
    set (info := {| peer_addr := p; channel := 0%Z; encrypt := false |}).
    pose proof (example_add_step p b) as Hr. simpl in Hr. fold info in Hr.
    destruct (radio_add_peer info b) as [result b0] eqn:Ea.
    simpl in Hr.
    set (b1 := if is_ok result then emit _ b0 else b0) in *.
    simpl in Hl.
    assert (Hd : initialized (radio b1) = true
                 ∧ esp_now_is_peer_exist p (radio b1) = true
                 ∧ (∀ m, esp_now_is_peer_exist m (radio b) = true →
                         esp_now_is_peer_exist m (radio b1) = true)
                 ∧ (∀ m, entries m (radio b) ≤ 1 → entries m (radio b1) ≤ 1)
                 ∧ length (peer_list (radio b1)) ≤ S (length (peer_list (radio b)))).
    { rewrite Hr.
      destruct (esp_now_is_peer_exist p (radio b)) eqn:Ek.
      - destruct (add_peer_known info (radio b) Ek) as [-> _]. auto 10.
      - assert (Hok : fst (esp_now_add_peer info (radio b)) = ESP_OK)
          by (apply add_peer_channel_0; [exact Hi|exact Ek|lia]).
        destruct (add_peer_ok_entries info (radio b) Hok) as (_ & Hi' & Hl' & Hk').
        split; [by rewrite Hi'|]. split; [by apply (add_peer_registers info)|].
        split; [exact Hk'|]. split; [|lia].
        intros m. apply add_peer_entries. }
    destruct Hd as (Hi1 & Hp1 & Hk1 & He1 & Hl1).
    destruct (IH b1 Hi1) as (Hi2 & Hp2 & Hk2 & He2 & Hl2); [lia|].
    split; [exact Hi2|]. split; [|split; [|split]].
    + intros q Hq. apply elem_of_cons in Hq as [->|Hq]; auto.
    + auto.
    + auto.
    + simpl. lia.
Qed.

(** X15: the loop of [addKnownPeers], for any table of peers.  On an
    initialised driver with room for the table, every address of the table
    is registered afterwards, what was registered stays registered, and an
    address listed twice, or registered before, does not get a second
    entry. *)
Theorem example_known_peers_are_registered (peers : list mac_addr) (b : Bot) :
  initialized (radio b) = true →
  length (peer_list (radio b)) + length peers ≤ 20 →
  let b' := EspNowExample.add_peers_loop peers b in
  (∀ p, p ∈ peers → esp_now_is_peer_exist p (radio b') = true)
  ∧ (∀ m, esp_now_is_peer_exist m (radio b) = true →
          esp_now_is_peer_exist m (radio b') = true)
  ∧ (∀ m, entries m (radio b) ≤ 1 → entries m (radio b') ≤ 1).
Proof.
  intros Hi Hl.
  destruct (example_add_peers_loop peers b Hi Hl) as (_ & H1 & H2 & H3 & _).
  auto.
Qed.

Lemma example_known_peers_are_registered_witness :
  let b := EspNowExample.addKnownPeers
             (Scenario.bot "ESP32_Bot_d4e5f6" "" 0 (Scenario.radio_with [])) in
  esp_now_is_peer_exist Scenario.first_peer (radio b) = true
  ∧ esp_now_is_peer_exist Scenario.second_peer (radio b) = true.
Proof.
  intros b.
  destruct (example_known_peers_are_registered EspNowExample.knownPeers
              (Scenario.bot "ESP32_Bot_d4e5f6" "" 0 (Scenario.radio_with [])) eq_refl)
    as (H & _ & _).
  - simpl. lia.
  - split; apply H.
    + by apply elem_of_cons; left.
    + by apply elem_of_cons; right; apply elem_of_cons; left.
Defined.

(** A frame of 256 bytes is never accepted. *)
Lemma esp_now_send_256 (mac : mac_addr) (d : driver) :
  is_ok (esp_now_send mac 256 d) = false.
Proof. unfold esp_now_send. by destruct (initialized d). Qed.

Lemma length_wire (message : list byte) : length (EspNowExample.wire message) = 256.
Proof.
  unfold EspNowExample.wire, EspNowExample.sizeof_message.
  rewrite length_take, length_app, length_replicate. lia.
Qed.

Lemma length_strcpy (buf : list byte) (off size : nat) (src m : list byte) :
  off + size ≤ length buf → C.strcpy buf off size src = Some m →
  length m = length buf.
Proof.
  intros Hl. unfold C.strcpy.
  destruct (Nat.leb_spec (length (C.chars src ++ [x00])) size) as [Hs|Hs]; [|discriminate].
  intros [= <-].
  rewrite !length_app, length_take, length_drop. rewrite length_app in *. simpl in *. lia.
Qed.

Lemma length_make_direct (env : Env) (id ty pl : string) (frame : list byte) :
  EspNowExample.make_direct env id ty pl = Some frame → length frame = 256.
Proof.
  unfold EspNowExample.make_direct, EspNowExample.sizeof_message,
    EspNowExample.off_sender_id, EspNowExample.off_message_type,
    EspNowExample.off_payload, EspNowExample.off_timestamp, EspNowExample.off_hop_count.
  pose proof (length_uninitialized (stack env) 256) as Hg.
  set (g := C.uninitialized (stack env) 256) in *.
  destruct (C.strcpy g 0 32 (C.c_str id)) as [m1|] eqn:E1; [|discriminate].
  apply length_strcpy in E1; [|lia].
  simpl.
  destruct (C.strcpy m1 32 16 (C.c_str ty)) as [m2|] eqn:E2; [|discriminate].
  apply length_strcpy in E2; [|lia].
  simpl.
  destruct (C.strcpy m2 48 200 (C.c_str pl)) as [m3|] eqn:E3; [|discriminate].
  apply length_strcpy in E3; [|lia].
  simpl. intros [= <-].
  rewrite length_store_byte, length_store_u32; lia.
Qed.

Lemma example_broadcast_step_count (message : list byte) (b : Bot) :
  messagesSent (EspNowExample.broadcast_step message b) = messagesSent b.
Proof.
  unfold EspNowExample.broadcast_step, radio_send.
  destruct (esp_now_fetch_peer true (radio b)) as [[r peer] d].
  destruct (is_ok r), peer as [peer|]; try reflexivity.
  rewrite length_wire. simpl.
  by rewrite esp_now_send_256.
Qed.

(** X16: in esp_now_example no send is ever counted.  The struct has
    256 bytes, [broadcastMessage] and [sendDirectMessage] hand all of them
    to [esp_now_send], and the driver takes 250 at most: whatever the frame,
    the registry and the destination, the request is refused and
    [networkStats.messagesSent] stays what it was. *)
Theorem example_sends_are_never_counted
    (env : Env) (mac : mac_addr) (ty pl : string) (message : list byte) (b : Bot) :
  messagesSent (EspNowExample.broadcastMessage message b) = messagesSent b
  ∧ ∀ b', EspNowExample.sendDirectMessage env mac ty pl b = Some b' →
          messagesSent b' = messagesSent b
          ∧ ∃ frame r, trace b' = trace b ++ [RadioSend mac frame r]
                       ∧ length frame = 256 ∧ r ≠ ESP_OK.
Proof.
  split.
  - unfold EspNowExample.broadcastMessage.
    generalize (esp_now_get_peer_num (radio b)). intros turns.
    revert b. induction turns as [|turns IH]; intros b; simpl; [reflexivity|].
    by rewrite IH, example_broadcast_step_count.
  - intros b'. unfold EspNowExample.sendDirectMessage.
    destruct (EspNowExample.make_direct env (botID b) ty pl) as [frame|] eqn:E;
      [|discriminate].
    pose proof (length_make_direct _ _ _ _ _ E) as Hl.
    simpl. unfold radio_send. rewrite Hl.
    pose proof (esp_now_send_256 mac (radio b)) as Hr.
    destruct (esp_now_send mac 256 (radio b)) eqn:Er; try discriminate Hr;
      simpl; intros [= <-]; (split; [reflexivity|]);
      do 2 eexists; (split; [reflexivity|]); split; auto; discriminate.
Qed.

(** The outcome of [strcpy] into a member. *)
Lemma strcpy_fits (buf : list byte) (off size : nat) (src : list byte) :
  length (C.chars src) < size →
  C.strcpy buf off size src
  = Some (take off buf ++ (C.chars src ++ [x00])
            ++ drop (off + S (length (C.chars src))) buf).
Proof.
  intros H. unfold C.strcpy. rewrite length_app. simpl.
  destruct (Nat.leb_spec (length (C.chars src) + 1) size) as [_|?]; [|lia].
  by replace (length (C.chars src) + 1) with (S (length (C.chars src))) by lia.
Qed.

Lemma strcpy_overrun (buf : list byte) (off size : nat) (src : list byte) :
  size ≤ length (C.chars src) → C.strcpy buf off size src = None.
Proof.
  intros H. unfold C.strcpy. rewrite length_app. simpl.
  destruct (Nat.leb_spec (length (C.chars src) + 1) size) as [?|_]; [lia|reflexivity].
Qed.

(** Bytes [off], [off + 1], ... of [m] are the characters of [s] and a
    NUL: the C string at [off] is [s]. *)
Lemma chars_at (m : list byte) (off : nat) (s : list byte) :
  Forall (fun c => c ≠ x00) s →
  (∀ i, i ≤ length s → m !! (off + i) = (s ++ [x00]) !! i) →
  C.chars (drop off m) = s.
Proof.
  intros Hs. revert off. induction Hs as [|c s Hc _ IH]; intros off H.
  - pose proof (H 0 (Nat.le_refl _)) as H0. rewrite Nat.add_0_r in H0. simpl in H0.
    by rewrite (drop_S _ _ _ H0).
  - pose proof (H 0 (Nat.le_0_l _)) as H0. rewrite Nat.add_0_r in H0. simpl in H0.
    rewrite (drop_S _ _ _ H0). simpl.
    destruct (Byte.eqb c x00) eqn:E.
    { apply byte_dec_bl in E. contradiction. }
    f_equal. apply IH. intros i Hi.
    replace (S off + i) with (off + S i) by lia.
    rewrite H by (simpl; lia). reflexivity.
Qed.

(** A write of [w] at [o] changes bytes [o], ..., [o + length w - 1] only. *)
Lemma lookup_splice (m w : list byte) (o i : nat) :
  o + length w ≤ length m →
  (take o m ++ w ++ drop (o + length w) m) !! i
  = if decide (o ≤ i < o + length w) then w !! (i - o) else m !! i.
Proof.
  intros Hl.
  assert (Ht : length (take o m) = o) by (rewrite length_take; lia).
  case_decide as Hi.
  - rewrite lookup_app_r by lia. rewrite Ht, lookup_app_l by lia. reflexivity.
  - destruct (decide (i < o)).
    + rewrite lookup_app_l by lia. apply lookup_take_lt. lia.
    + rewrite lookup_app_r by lia. rewrite Ht, lookup_app_r by lia.
      rewrite lookup_drop. f_equal. lia.
Qed.

Lemma splice_starts (m w : list byte) (o off : nat) (s : list byte) :
  o + length w ≤ length m →
  off + S (length s) ≤ o →
  (∀ i, i ≤ length s → m !! (off + i) = (s ++ [x00]) !! i) →
  ∀ i, i ≤ length s →
       (take o m ++ w ++ drop (o + length w) m) !! (off + i) = (s ++ [x00]) !! i.
Proof.
  intros Hl Ho H i Hi. rewrite lookup_splice by exact Hl.
  case_decide; [lia|]. by apply H.
Qed.

Lemma splice_writes (m w : list byte) (o : nat) :
  o + length w ≤ length m →
  ∀ i, i < length w → (take o m ++ w ++ drop (o + length w) m) !! (o + i) = w !! i.
Proof.
  intros Hl i Hi. rewrite lookup_splice by exact Hl.
  case_decide; [|lia]. f_equal. lia.
Qed.

(** The frame of [sendDirectMessage], whenever the three copies fit. *)
Lemma make_direct_fits (env : Env) (id ty pl : string) :
  C.strlen id < 32 → C.strlen ty < 16 → C.strlen pl < 200 →
  ∃ frame, EspNowExample.make_direct env id ty pl = Some frame
           ∧ C.read_cstr frame 0 = C.String_ id
           ∧ C.read_cstr frame 32 = C.String_ ty
           ∧ C.read_cstr frame 48 = C.String_ pl
           ∧ C.field frame 248 4 = C.le32 (millis env)
           ∧ EspNowExample.hop_count frame = 0%Z.
Proof.
  unfold C.strlen. intros Hid Hty Hpl.
  unfold EspNowExample.make_direct, EspNowExample.sizeof_message,
    EspNowExample.off_sender_id, EspNowExample.off_message_type,
    EspNowExample.off_payload, EspNowExample.off_timestamp, EspNowExample.off_hop_count.
  pose proof (length_uninitialized (stack env) 256) as Hg.
  set (g := C.uninitialized (stack env) 256) in *.
  rewrite (strcpy_fits g 0 32) by (rewrite chars_c_str; exact Hid).
  rewrite chars_c_str. simpl mbind.
  set (w1 := C.c_str id ++ [x00]).
  assert (L1 : length w1 = S (length (C.c_str id)))
    by (subst w1; rewrite length_app; simpl; lia).
  rewrite <- L1.
  set (m1 := take 0 g ++ w1 ++ drop (0 + length w1) g).
  assert (Hm1 : length m1 = 256).
  { subst m1. rewrite !length_app, length_take, length_drop. lia. }
  assert (S1 : ∀ i, i ≤ length (C.c_str id) → m1 !! (0 + i) = w1 !! i).
  { intros i Hi. apply splice_writes; lia. }
  rewrite (strcpy_fits m1 32 16) by (rewrite chars_c_str; exact Hty).
  rewrite chars_c_str. simpl mbind.
  set (w2 := C.c_str ty ++ [x00]).
  assert (L2 : length w2 = S (length (C.c_str ty)))
    by (subst w2; rewrite length_app; simpl; lia).
  rewrite <- L2.
  set (m2 := take 32 m1 ++ w2 ++ drop (32 + length w2) m1).
  assert (Hm2 : length m2 = 256).
  { subst m2. rewrite !length_app, length_take, length_drop. lia. }
  assert (S2 : ∀ i, i ≤ length (C.c_str ty) → m2 !! (32 + i) = w2 !! i).
  { intros i Hi. apply splice_writes; lia. }
  assert (S1' : ∀ i, i ≤ length (C.c_str id) → m2 !! (0 + i) = w1 !! i).
  { apply splice_starts; [lia|lia|exact S1]. }
  rewrite (strcpy_fits m2 48 200) by (rewrite chars_c_str; exact Hpl).
  rewrite chars_c_str. simpl mbind.
  set (w3 := C.c_str pl ++ [x00]).
  assert (L3 : length w3 = S (length (C.c_str pl)))
    by (subst w3; rewrite length_app; simpl; lia).
  rewrite <- L3.
  set (m3 := take 48 m2 ++ w3 ++ drop (48 + length w3) m2).
  assert (Hm3 : length m3 = 256).
  { subst m3. rewrite !length_app, length_take, length_drop. lia. }
  assert (S3 : ∀ i, i ≤ length (C.c_str pl) → m3 !! (48 + i) = w3 !! i).
  { intros i Hi. apply splice_writes; lia. }
  assert (S2' : ∀ i, i ≤ length (C.c_str ty) → m3 !! (32 + i) = w2 !! i).
  { apply splice_starts; [lia|lia|exact S2]. }
  assert (S1'' : ∀ i, i ≤ length (C.c_str id) → m3 !! (0 + i) = w1 !! i).
  { apply splice_starts; [lia|lia|exact S1']. }
  unfold C.store_u32.
  set (m4 := take 248 m3 ++ C.le32 (millis env) ++ drop (248 + 4) m3).
  assert (Hm4 : length m4 = 256).
  { subst m4. rewrite !length_app, length_take, length_drop, length_le32. lia. }
  assert (K : ∀ off s, off + S (length s) ≤ 248 →
              (∀ i, i ≤ length s → m3 !! (off + i) = (s ++ [x00]) !! i) →
              ∀ i, i ≤ length s →
                   C.store_byte m4 252 x00 !! (off + i) = (s ++ [x00]) !! i).
  { intros off s Ho H i Hi. unfold C.store_byte.
    rewrite list_lookup_insert_ne by lia.
    subst m4. apply (splice_starts m3 (C.le32 (millis env)) 248 off s);
      [rewrite length_le32; lia|lia|exact H|exact Hi]. }
  exists (C.store_byte m4 252 x00). split; [reflexivity|].
  unfold C.read_cstr, C.String_.
  split; [f_equal; apply chars_at; [apply chars_no_nul|apply K; [lia|exact S1'']]|].
  split; [f_equal; apply chars_at; [apply chars_no_nul|apply K; [lia|exact S2']]|].
  split; [f_equal; apply chars_at; [apply chars_no_nul|apply K; [lia|exact S3]]|].
  split.
  - unfold C.field, C.store_byte. subst m4.
    rewrite insert_app_r_alt by (rewrite length_take; lia).
    assert (Hk : length (take 248 m3) = 248) by (rewrite length_take; lia).
    rewrite Hk. change (252 - 248) with 4.
    rewrite (insert_app_r_alt (C.le32 (millis env)) _ 4) by (rewrite length_le32; lia).
    rewrite drop_app_length' by (symmetry; exact Hk).
    by rewrite take_app_length' by reflexivity.
  - unfold EspNowExample.hop_count, C.load_u8, EspNowExample.off_hop_count, C.store_byte.
    rewrite list_lookup_insert_eq by lia. reflexivity.
Qed.

(** X19: [sendDirectMessage] copies with [strcpy], without a bound.
    The three copies stay inside their arrays exactly when the bot's id has
    fewer than 32 characters, the type fewer than 16 and the payload fewer
    than 200; the frame then reads back as the three strings, with the
    timestamp in bytes 248 to 251 and hop count 0.  One character more in
    any of them, as a payload typed after the serial [send] command may
    have, and the copy runs over the array. *)
Theorem example_direct_message_frame (env : Env) (id ty pl : string) :
  (is_Some (EspNowExample.make_direct env id ty pl)
   ↔ C.strlen id < 32 ∧ C.strlen ty < 16 ∧ C.strlen pl < 200)
  ∧ ∀ frame, EspNowExample.make_direct env id ty pl = Some frame →
      C.read_cstr frame EspNowExample.off_sender_id = C.String_ id
      ∧ C.read_cstr frame EspNowExample.off_message_type = C.String_ ty
      ∧ C.read_cstr frame EspNowExample.off_payload = C.String_ pl
      ∧ C.field frame EspNowExample.off_timestamp 4 = C.le32 (millis env)
      ∧ EspNowExample.hop_count frame = 0%Z.
Proof.
  assert (Hn : ¬ (C.strlen id < 32 ∧ C.strlen ty < 16 ∧ C.strlen pl < 200) →
               EspNowExample.make_direct env id ty pl = None).
  { intros Hn. unfold EspNowExample.make_direct, C.strlen in *.
    destruct (decide (length (C.c_str id) < 32)) as [H1|H1].
    2:{ rewrite strcpy_overrun by (rewrite chars_c_str; lia). reflexivity. }
    rewrite strcpy_fits by (rewrite chars_c_str; lia). simpl mbind.
    destruct (decide (length (C.c_str ty) < 16)) as [H2|H2].
    2:{ rewrite strcpy_overrun by (rewrite chars_c_str; lia). reflexivity. }
    rewrite strcpy_fits by (rewrite chars_c_str; lia). simpl mbind.
    rewrite strcpy_overrun by (rewrite chars_c_str; lia). reflexivity. }
  split.
  - split.
    + intros [frame Hf].
      destruct (decide (C.strlen id < 32 ∧ C.strlen ty < 16 ∧ C.strlen pl < 200))
        as [H|H]; [exact H|].
      rewrite (Hn H) in Hf. discriminate.
    + intros (H1 & H2 & H3).
      destruct (make_direct_fits env id ty pl H1 H2 H3) as (frame & Hf & _).
      by exists frame.
  - intros frame Hf.
    destruct (decide (C.strlen id < 32 ∧ C.strlen ty < 16 ∧ C.strlen pl < 200))
      as [(H1 & H2 & H3)|H].
    + destruct (make_direct_fits env id ty pl H1 H2 H3) as (frame' & Hf' & Hr).
      rewrite Hf in Hf'. injection Hf' as <-. exact Hr.
    + rewrite (Hn H) in Hf. discriminate.
Qed.

(** ** Joining the WiFi network *)

Lemma waits_app (t1 t2 : list event) : waits (t1 ++ t2) = waits t1 ++ waits t2.
Proof. apply omap_app. Qed.

(** The waiting loop, which is the same in speedie_bot and in the
    template: it stops at the first poll that finds the station connected,
    or when the attempts are used up; only the trace changes. *)
Lemma speedie_wait_for_connection (w : WiFiAnswers) (budget attempts : nat) (b : Bot) :
  let r := Speedie.wait_for_connection w budget attempts b in
  ∃ j, fst r = attempts + j ∧ j ≤ budget
       ∧ (∀ k, attempts ≤ k < attempts + j → is_connected (status_after w k) = false)
       ∧ (j < budget → is_connected (status_after w (attempts + j)) = true)
       ∧ mcpServerIP (snd r) = mcpServerIP b
       ∧ mcpServerPort (snd r) = mcpServerPort b
       ∧ botStatus (snd r) = botStatus b
       ∧ radio (snd r) = radio b
       ∧ ∃ new, extends b (snd r) new ∧ waits new = replicate j 500%Z.
Proof.
  simpl. revert attempts b. induction budget as [|budget IH]; intros attempts b; simpl.
  - exists 0. repeat split; try lia. exists []. split; [apply extends_refl|reflexivity].
  - destruct (is_connected (status_after w attempts)) eqn:E; simpl.
    + exists 0. rewrite Nat.add_0_r. repeat split; try lia; auto.
      exists []. split; [apply extends_refl|reflexivity].
    + destruct (IH (S attempts) (emit (Serial "." []) (emit (Delay 500) b)))
        as (j & H1 & H2 & H3 & H4 & H5 & H6 & H7 & H8 & new & H9 & H10).
      exists (S j). rewrite H1. split; [lia|]. split; [lia|]. split.
      { intros k Hk. destruct (decide (k = attempts)) as [->|]; [exact E|].
        apply H3. lia. }
      split.
      { intros Hj. replace (attempts + S j) with (S attempts + j) by lia.
        apply H4. lia. }
      repeat split; auto.
      exists ([Delay 500; Serial "." []] ++ new). split.
      * eapply extends_trans; [|exact H9].
        apply (extends_emit b (emit (Delay 500) b) [Delay 500]).
        apply (extends_emit b b []), extends_refl.
      * rewrite waits_app, H10. reflexivity.
Qed.

Lemma template_wait_is_speedie_wait (w : WiFiAnswers) (budget attempts : nat) (b : Bot) :
  Template.wait_for_connection w budget attempts b
  = Speedie.wait_for_connection w budget attempts b.
Proof.
  revert attempts b. induction budget as [|budget IH]; intros attempts b; simpl;
    [reflexivity|].
  destruct (is_connected _); [reflexivity|apply IH].
Qed.

Lemma print_networks_keeps (nets : list (string * Z * bool)) (b : Bot) :
  let b' := Speedie.print_networks nets b in
  mcpServerIP b' = mcpServerIP b ∧ mcpServerPort b' = mcpServerPort b
  ∧ botStatus b' = botStatus b ∧ radio b' = radio b
  ∧ ∃ new, extends b b' new ∧ waits new = [].
Proof.
  simpl. unfold Speedie.print_networks.
  generalize (imap (fun i net => (i, net)) nets). intros l.
  revert b. induction l as [|[i [[ssid rssi] open]] l IH]; intros b; simpl.
  - repeat split. exists []. split; [apply extends_refl|reflexivity].
  - match goal with |- context [foldl _ ?x l] =>
      destruct (IH x) as (H1 & H2 & H3 & H4 & new & H5 & H6) end.
    rewrite H1, H2, H3, H4. repeat split.
    eexists. split.
    + eapply extends_trans; [|exact H5]. apply (extends_emit b b []), extends_refl.
    + rewrite waits_app, H6. reflexivity.
Qed.

Lemma template_print_is_speedie_print (nets : list (string * Z * bool)) (b : Bot) :
  Template.print_networks nets b = Speedie.print_networks nets b.
Proof. reflexivity. Qed.

(** Whether the poll the loop stops at finds the station connected. *)
Lemma connected_at_exit (w : WiFiAnswers) (j : nat) :
  j ≤ 20 →
  (∀ k, k < j → is_connected (status_after w k) = false) →
  (j < 20 → is_connected (status_after w j) = true) →
  is_connected (status_after w j) = true ↔ connects_within w 20.
Proof.
  intros Hj Hb Hs. split.
  - intros H. exists j. auto.
  - intros (k & Hk & Hc).
    destruct (decide (j < 20)) as [Hlt|Hge]; [auto|].
    assert (j = 20) as -> by lia.
    destruct (decide (k = 20)) as [->|]; [exact Hc|].
    rewrite Hb in Hc by lia. discriminate.
Qed.


(** X18: the template's [initializeWiFi] waits in the same way but
    only logs a failure: whether or not the station gets connected, the
    server endpoint and the status are what they were, so a bot that lost
    the network keeps the endpoint it had. *)
Theorem template_wifi_failure_keeps_endpoint
    (ssid password : string) (w : WiFiAnswers) (env : Env) (b : Bot) :
  let b' := snd (Template.initializeWiFi ssid password w env b) in
  mcpServerIP b' = mcpServerIP b ∧ mcpServerPort b' = mcpServerPort b
  ∧ status (botStatus b') = status (botStatus b)
  ∧ (¬ connects_within w 20 → botStatus b' = botStatus b)
  ∧ ∃ new j, extends b b' new ∧ waits new = replicate j 500%Z ∧ j ≤ 20.
Proof.
  simpl. unfold Template.initializeWiFi.
  rewrite template_print_is_speedie_print, template_wait_is_speedie_wait.
  set (b0 := emit _ (emit _ b)).
  destruct (print_networks_keeps (scanNetworks w) b0) as (P1 & P2 & P3 & P4 & n0 & P5 & P6).
  set (b1 := Speedie.print_networks (scanNetworks w) b0) in *.
  set (b2 := emit _ (emit _ b1)).
  destruct (speedie_wait_for_connection w 20 0 b2)
    as (j & W1 & W2 & W3 & W4 & W5 & W6 & W7 & W8 & n1 & W9 & W10).
  destruct (Speedie.wait_for_connection w 20 0 b2) as [attempts b3] eqn:Ew.
  simpl in W1, W5, W6, W7, W8, W9. subst attempts.
  assert (Hb3 : ∃ n, extends b b3 n ∧ waits n = replicate j 500%Z).
  { eexists. split.
    - eapply extends_trans; [|exact W9].
      apply extends_emit, extends_emit. eapply extends_trans; [|exact P5].
      apply extends_emit, (extends_emit b b []), extends_refl.
    - rewrite !waits_app, P6, W10. reflexivity. }
  destruct Hb3 as (n3 & E3 & Z3).
  pose proof (connected_at_exit w j W2 (fun k Hk => W3 k (conj (Nat.le_0_l k) Hk)) W4)
    as Hc.
  destruct (is_connected (status_after w j)) eqn:E; simpl.
  - rewrite W5, W6, W7. simpl. rewrite P1, P2, P3. repeat split; auto.
    + intros Hn. exfalso. apply Hn, Hc. reflexivity.
    + eexists _, j. split; [|split; [|exact W2]].
      * unfold extends in *. simpl. rewrite E3, <- !app_assoc. reflexivity.
      * rewrite !waits_app, Z3. simpl. by rewrite ?app_nil_r.
  - rewrite W5, W6, W7. simpl. rewrite P1, P2, P3. repeat split; auto.
    eexists _, j. split; [|split; [|exact W2]].
    * unfold extends in *. simpl. rewrite E3, <- !app_assoc. reflexivity.
    * rewrite !waits_app, Z3. simpl. by rewrite ?app_nil_r.
Qed.

(** A station that is connected after three waits: speedie_bot waits
    three times and keeps its endpoint. *)
Example speedie_wifi_connects_after_three_waits :
  let b := Scenario.bot "Speedie_Bot" "192.168.1.130" 8081 (Scenario.radio_with []) in
  let b' := snd (Speedie.initializeWiFi "lab" "secret" Scenario.link_after_3
                   (Scenario.env Scenario.newer) b) in
  waits (trace b') = [500; 500; 500]%Z
  ∧ mcpServerIP b' = "192.168.1.130"
  ∧ wifiSignal (botStatus b') = (-50)%Z.
Proof. repeat split; reflexivity. Qed.


(** ** speedie_bot: firmware check and status report *)

Lemma http_gets_app (t1 t2 : list event) :
  http_gets (t1 ++ t2) = http_gets t1 ++ http_gets t2.
Proof. apply omap_app. Qed.

(** X20: speedie_bot's [checkForFirmwareUpdate] starts an update in
    one case only: WiFi is up, the server is known, the firmware check is
    answered with HTTP 200 and the reported version is greater than
    [FIRMWARE_VERSION].  It then asks for
    http://ip:port/firmware/filename, once, and for the bare
    http://ip:port/firmware/ when the answer has no file name.  With WiFi
    down or the server unknown it makes no request at all; and whatever the
    updater returns, the server endpoint is left as it was. *)
Theorem speedie_update_only_when_newer (cfg : Config) (env : Env) (b : Bot) :
  let b' := Speedie.checkForFirmwareUpdate cfg env b in
  let doc := http_get_doc env in
  let endpoint := "http://" +:+ mcpServerIP b +:+ ":"
                    +:+ Arduino.String_of_int (mcpServerPort b) in
  let reachable := wifi_connected env && negb (Arduino.equals (mcpServerIP b) "") in
  http_gets (trace b')
  = http_gets (trace b)
      ++ (if reachable then [endpoint +:+ mcpFirmwareEndpoint] else [])
  ∧ updates (trace b')
    = updates (trace b)
        ++ (if reachable && (http_get_code env =? 200)%Z
               && SFltb (FIRMWARE_VERSION cfg) (doc_version doc)
            then [endpoint +:+ "/firmware/" +:+ default "" (doc_filename doc)]
            else [])
  ∧ mcpServerIP b' = mcpServerIP b ∧ mcpServerPort b' = mcpServerPort b.
Proof.
  simpl. unfold Speedie.checkForFirmwareUpdate.
  destruct (wifi_connected env); simpl.
  2:{ rewrite http_gets_app, updates_app. simpl. by rewrite !app_nil_r. }
  destruct (Arduino.equals (mcpServerIP b) ""); simpl.
  { rewrite http_gets_app, updates_app. simpl. by rewrite !app_nil_r. }
  destruct (http_get_code env =? 200)%Z; simpl.
  2:{ rewrite !http_gets_app, !updates_app. simpl. rewrite !app_nil_r.
      by rewrite !string_append_assoc. }
  destruct (SFltb (FIRMWARE_VERSION cfg) (doc_version (http_get_doc env)));
    [destruct (http_update env)|];
    simpl; rewrite !http_gets_app, !updates_app; simpl; rewrite ?app_nil_r;
    by rewrite !string_append_assoc.
Qed.

Lemma speedie_report_keeps_endpoint (cfg : Config) (env : Env) (b : Bot) :
  wifi_connected env = true → mcpServerIP b ≠ "" →
  let b' := Speedie.sendStatusToMCP cfg env b in
  mcpServerIP b' = mcpServerIP b ∧ mcpServerPort b' = mcpServerPort b
  ∧ mdns_lookups (trace b') = mdns_lookups (trace b)
  ∧ sends (trace b') = sends (trace b).
Proof.
  intros Hw Hs. simpl. unfold Speedie.sendStatusToMCP. rewrite Hw. simpl.
  destruct (Arduino.equals (mcpServerIP b) "") eqn:E.
  { apply equals_empty in E. contradiction. }
  destruct (0 <? http_post_code env)%Z; simpl;
    rewrite !mdns_lookups_app, !sends_app; simpl; by rewrite !app_nil_r.
Qed.

Lemma template_report_keeps_endpoint (cfg : Config) (env : Env) (b : Bot) :
  let b' := Template.sendStatusToMCP cfg env b in
  mcpServerIP b' = mcpServerIP b ∧ mcpServerPort b' = mcpServerPort b
  ∧ mdns_lookups (trace b') = mdns_lookups (trace b)
  ∧ sends (trace b') = sends (trace b).
Proof.
  simpl. unfold Template.sendStatusToMCP.
  destruct (_ || _); [auto|].
  destruct (0 <? http_post_code env)%Z; simpl;
    rewrite !mdns_lookups_app, !sends_app; simpl; by rewrite !app_nil_r.
Qed.

(** X21: the server endpoint is sticky under status reports.  With
    WiFi up and the server known, [sendStatusToMCP] of speedie_bot and of
    the template posts one report to http://ip:port/api/bot/status and,
    whatever the response code, an error included, leaves the endpoint as
    it was, runs no discovery and sends no frame: a server that stops
    answering is not looked up again. *)
Theorem status_report_keeps_endpoint (cfg : Config) (env : Env) (b : Bot) :
  wifi_connected env = true → mcpServerIP b ≠ "" →
  let url := "http://" +:+ mcpServerIP b +:+ ":"
               +:+ Arduino.String_of_int (mcpServerPort b) +:+ mcpStatusEndpoint in
  let kept b' :=
    http_posts (trace b') = http_posts (trace b) ++ [url]
    ∧ mcpServerIP b' = mcpServerIP b ∧ mcpServerPort b' = mcpServerPort b
    ∧ mdns_lookups (trace b') = mdns_lookups (trace b)
    ∧ sends (trace b') = sends (trace b) in
  kept (Speedie.sendStatusToMCP cfg env b)
  ∧ kept (Template.sendStatusToMCP cfg env b).
Proof.
  intros Hw Hs. simpl. split.
  - split; [by apply speedie_report_with_endpoint|].
    by apply speedie_report_keeps_endpoint.
  - split; [by apply template_report_with_endpoint|].
    apply template_report_keeps_endpoint.
Qed.

Lemma status_report_keeps_endpoint_witness :
  let b := Scenario.bot "Speedie_Bot" "192.168.1.130" 8081 (Scenario.radio_with []) in
  let b' := Speedie.sendStatusToMCP Speedie.config Scenario.server_down_env b in
  http_posts (trace b') = ["http://192.168.1.130:8081/api/bot/status"]
  ∧ mcpServerIP b' = "192.168.1.130" ∧ mcpServerPort b' = 8081%Z.
Proof.
  intros b b'.
  destruct (status_report_keeps_endpoint Speedie.config Scenario.server_down_env b
              eq_refl ltac:(discriminate)) as [(H1 & H2 & H3 & _) _].
  split; [exact H1|split; [exact H2|exact H3]].
Defined.

Lemma speedie_update_only_when_newer_witness :
  let b := Scenario.bot "Speedie_Bot" "192.168.1.130" 8081 (Scenario.radio_with []) in
  updates (trace (Speedie.checkForFirmwareUpdate Speedie.config
                    (Scenario.env Scenario.newer_without_filename) b))
  = ["http://192.168.1.130:8081/firmware/"].
Proof.
  intros b.
  destruct (speedie_update_only_when_newer Speedie.config
              (Scenario.env Scenario.newer_without_filename) b) as (_ & H & _).
  exact H.
Defined.
